(** * The task / environment layer of the RoboTHOR navigation tasks

    A shallow embedding of [rl_robothor/robothor_environment.py] and
    [rl_robothor/robothor_tasks.py]. The exploration-shaped task of
    [rl_robothor/object_nav/tasks.py] is not embedded: it inherits its
    episode bookkeeping and its [metrics] from a base class that is not
    part of the sources.

    Python floats are modelled by rationals ([Q]); the simulator
    controller, the sensor suite and the precomputed distance cache are
    external collaborators and appear as interfaces (type classes).
    Python exceptions are explicit: every method is a state transformer
    that returns either a value or the exception it raises. *)

From Stdlib Require Import QArith Qround Lqa.
From stdpp Require Import gmap strings list.

Open Scope Z_scope.

(** ** Python values, exceptions and the state-and-exception monad *)

Inductive exn : Type :=
  | ValueError
  | KeyError
  | IndexError
  | TypeError
  | ZeroDivisionError
  | AttributeError
  | AssertionError
  | NotImplementedError.

Inductive result (A : Type) : Type :=
  | Ok (a : A)
  | Raise (e : exn).
Arguments Ok {A} a.
Arguments Raise {A} e.

(** A method of an object with state [S]: it returns or raises, and in
    both cases leaves a (possibly mutated) state behind. *)
Definition M (S A : Type) : Type := S -> result A * S.

Definition ret {S A : Type} (a : A) : M S A := fun s => (Ok a, s).

Definition raise {S A : Type} (e : exn) : M S A := fun s => (Raise e, s).

Definition bind {S A B : Type} (m : M S A) (k : A -> M S B) : M S B :=
  fun s =>
    match m s with
    | (Ok a, s') => k a s'
    | (Raise e, s') => (Raise e, s')
    end.

Definition gets {S A : Type} (f : S -> A) : M S A := fun s => (Ok (f s), s).

Definition modify {S : Type} (f : S -> S) : M S unit := fun s => (Ok tt, f s).

Definition lift {S A : Type} (r : result A) : M S A := fun s => (r, s).

Notation "x <- m ;; k" := (bind m (fun x => k))
  (at level 62, m at next level, k at level 200, right associativity).
Notation "m ;;; k" := (bind m (fun _ => k))
  (at level 62, k at level 200, right associativity).

(** Methods that only read the state. *)
Definition read_only {S A : Type} (m : M S A) : Prop := forall s, snd (m s) = s.

(** Methods that keep a property of the state, whether they return or raise. *)
Definition preserves {S A : Type} (P : S -> Prop) (m : M S A) : Prop :=
  forall s, P s -> P (snd (m s)).

(** [float] comparisons on the rational model. *)
Definition Qltb (a b : Q) : bool := negb (Qle_bool b a).

(** [float("inf")] is the only non-finite float the code produces. *)
Inductive pyfloat : Type :=
  | FFin (q : Q)
  | FInf.

(** A value that is a float or [None]. *)
Inductive pyval : Type :=
  | VNone
  | VFloat (q : Q).

(** Python indexing of a sequence of length [n]: negative indices count
    from the end, anything else out of range raises [IndexError]. *)
Definition py_norm_index (n : nat) (i : Z) : option nat :=
  if (0 <=? i) && (i <? Z.of_nat n) then Some (Z.to_nat i)
  else if (- Z.of_nat n <=? i) && (i <? 0) then Some (Z.to_nat (Z.of_nat n + i))
  else None.

Definition py_index {A : Type} (l : list A) (i : Z) : result A :=
  match py_norm_index (length l) i with
  | Some k => match l !! k with Some a => Ok a | None => Raise IndexError end
  | None => Raise IndexError
  end.

(** Python 3 [round(x)] on a float: nearest integer, ties to even. *)
Definition py_round (q : Q) : Z :=
  let f := Qfloor q in
  let r := (q - inject_Z f)%Q in
  if Qltb r (1 # 2) then f
  else if Qltb (1 # 2) r then f + 1
  else if Z.even f then f else f + 1.

(** [np.clip(a, lo, hi)] is [minimum(maximum(a, lo), hi)]. *)
Definition np_clip (a lo hi : Z) : Z := Z.min (Z.max a lo) hi.

(** [x % m] on floats: the result takes the sign of [m]. *)
Definition py_fmod (x m : Q) : Q := (x - m * inject_Z (Qfloor (x / m)))%Q.

(** Two-dimensional [np.float64] arrays, as rows of cells. *)
Abbreviation array2 := (list (list Q)).

(** [v * np.ones((nx, nz))]; a negative dimension raises. *)
Definition np_full (nx nz : Z) (v : Q) : result array2 :=
  if (nx <? 0) || (nz <? 0) then Raise ValueError
  else Ok (replicate (Z.to_nat nx) (replicate (Z.to_nat nz) v)).

(** [a[i, j]] *)
Definition np_get2 (a : array2) (i j : Z) : result Q :=
  match py_index a i with
  | Ok row => py_index row j
  | Raise e => Raise e
  end.

(** [a[i, j] = v] *)
Definition np_set2 (a : array2) (i j : Z) (v : Q) : result array2 :=
  match py_norm_index (length a) i with
  | Some ki =>
      match a !! ki with
      | Some row =>
          match py_norm_index (length row) j with
          | Some kj => Ok (<[ki := <[kj := v]> row]> a)
          | None => Raise IndexError
          end
      | None => Raise IndexError
      end
  | None => Raise IndexError
  end.

(** ** The simulator interface *)

Record Position : Type := mkPosition { pos_x : Q; pos_y : Q; pos_z : Q }.

Record Rotation : Type := mkRotation { rot_x : Q; rot_y : Q; rot_z : Q }.

(** What [agent_state] returns: position, rotation and horizon. *)
Record Pose : Type := mkPose {
  pose_x : Q;
  pose_y : Q;
  pose_z : Q;
  pose_rotation : Rotation;
  pose_horizon : Q
}.

Record SimObject : Type := mkSimObject {
  objectType : string;
  visible : bool
}.

(** Image-like arrays; only the number of dimensions and the second
    axis matter to the code. *)
Inductive ndarray : Type :=
  | Arr1 (a : list Q)
  | Arr2 (a : list (list Q))
  | Arr3 (a : list (list (list Q)))
  | Arr4 (a : list (list (list (list Q)))).

(** The action names of [robothor_constants], whose string values the
    code never inspects: it only compares them with each other. *)
Inductive Action : Type :=
  | MOVE_AHEAD
  | MOVE_BACK
  | ROTATE_LEFT
  | ROTATE_RIGHT
  | LOOK_DOWN
  | LOOK_UP
  | END.

Definition Action_eqb (a b : Action) : bool :=
  match a, b with
  | MOVE_AHEAD, MOVE_AHEAD | MOVE_BACK, MOVE_BACK | ROTATE_LEFT, ROTATE_LEFT
  | ROTATE_RIGHT, ROTATE_RIGHT | LOOK_DOWN, LOOK_DOWN | LOOK_UP, LOOK_UP
  | END, END => true
  | _, _ => false
  end.

(** What [controller.step] is asked to do: [TeleportFull] to a pose,
    [GetReachablePositions], or one of the named agent actions. *)
Inductive SimAction : Type :=
  | TeleportFull (p : Pose)
  | GetReachablePositions
  | NamedAction (action : Action).

(** Calls made on the controller, for call-count instrumentation. *)
Inductive SimCall : Type :=
  | CallStep (a : SimAction)
  | CallReset (scene : string)
  | CallShortestPath (object_type : string) (position : Position)
      (rot : option Rotation).

(** The ai2thor controller, through the narrow interface the wrapper
    uses: reads of the last event, [step], [reset], and the shortest-path
    query of [ai2thor.util.metrics], which may move the agent and raises
    [ValueError] when there is no path. *)
Class Simulator (C : Type) : Type := {
  last_agent : C -> Pose;
  last_scene_name : C -> string;
  last_success : C -> bool;
  last_action_return_points : C -> list Position;
  last_objects : C -> list SimObject;
  last_frame : C -> ndarray;
  last_depth_frame : C -> ndarray;
  controller_step : SimAction -> C -> C;
  controller_reset : string -> C -> C;
  get_shortest_path_to_object_type :
    C -> string -> Position -> option Rotation -> result (list Position) * C
}.

(** [math.sqrt], known only to be non-negative. *)
Class MathLib : Type := {
  sqrt : Q -> Q;
  sqrt_nonneg : forall q, (0 <= sqrt q)%Q
}.

(** ** [RoboThorEnvironment] *)

Record Config : Type := mkConfig {
  gridSize : Q;
  rotateStepDegrees : Q
}.

(** One entry of [self.grids]: the per-target distance arrays and the
    bounding box [(xmin, xmax, zmin, zmax)] of the scene. *)
Record Grid : Type := mkGrid {
  grid_cells : gmap string array2;
  grid_xmin : Z;
  grid_xmax : Z;
  grid_zmin : Z;
  grid_zmax : Z
}.

Record Env (C : Type) : Type := mkEnv {
  controller : C;
  config : Config;
  known_good_location : option Pose;
  grids : gmap string Grid;
  sim_calls : list SimCall
}.
Arguments mkEnv {C}.
Arguments controller {C}.
Arguments config {C}.
Arguments known_good_location {C}.
Arguments grids {C}.
Arguments sim_calls {C}.

(** [try: body except <handled>: ... finally: final] *)
Definition try_except_finally {S A : Type} (body : M S A)
    (handler : exn -> option (M S A)) (final : M S unit) : M S A :=
  fun s =>
    let '(r, s1) := body s in
    let '(r', s2) :=
      match r with
      | Ok a => (Ok a, s1)
      | Raise e =>
          match handler e with
          | Some h => h s1
          | None => (Raise e, s1)
          end
      end in
    match final s2 with
    | (Ok _, s3) => (r', s3)
    | (Raise e, s3) => (Raise e, s3)
    end.

Definition position_of (pose : Pose) : Position :=
  mkPosition (pose_x pose) (pose_y pose) (pose_z pose).

Module RoboThorEnvironment.
Section Environment.
Context {C : Type} `{Simulator C} `{MathLib}.

Definition set_controller (c : C) (e : Env C) : Env C :=
  mkEnv c (config e) (known_good_location e) (grids e) (sim_calls e).

Definition set_grids (g : gmap string Grid) (e : Env C) : Env C :=
  mkEnv (controller e) (config e) (known_good_location e) g (sim_calls e).

Definition set_known_good_location (p : option Pose) (e : Env C) : Env C :=
  mkEnv (controller e) (config e) p (grids e) (sim_calls e).

Definition record_call (c : SimCall) (e : Env C) : Env C :=
  mkEnv (controller e) (config e) (known_good_location e) (grids e)
    (sim_calls e ++ [c]).

(** [self.controller.step(...)] *)
Definition step (a : SimAction) : M (Env C) unit :=
  modify (fun e =>
    record_call (CallStep a) (set_controller (controller_step a (controller e)) e)).

Definition agent_state : M (Env C) Pose :=
  gets (fun e => last_agent (controller e)).

Definition scene_name : M (Env C) string :=
  gets (fun e => last_scene_name (controller e)).

Definition last_action_success : M (Env C) bool :=
  gets (fun e => last_success (controller e)).

Definition current_frame : M (Env C) ndarray :=
  gets (fun e => last_frame (controller e)).

Definition current_depth : M (Env C) ndarray :=
  gets (fun e => last_depth_frame (controller e)).

Definition currently_reachable_points : M (Env C) (list Position) :=
  step GetReachablePositions ;;;
  gets (fun e => last_action_return_points (controller e)).

Definition all_objects : M (Env C) (list SimObject) :=
  gets (fun e => last_objects (controller e)).

(** [all_objects_with_properties({"visible": True})] *)
Definition visible_objects : M (Env C) (list SimObject) :=
  objs <- all_objects ;;
  ret (List.filter (fun o => Bool.eqb (visible o) true) objs).

(** [metrics.get_shortest_path_to_object_type(self.controller, ...)] *)
Definition shortest_path_query (object_type : string) (position : Position)
    (rot : option Rotation) : M (Env C) (list Position) :=
  fun e =>
    let '(r, c') :=
      get_shortest_path_to_object_type (controller e) object_type position rot in
    (r, record_call (CallShortestPath object_type position rot)
          (set_controller c' e)).

Definition path_corners (object_type : string) : M (Env C) (list Position) :=
  pose <- agent_state ;;
  let position := position_of pose in
  let rot := Some (pose_rotation pose) in
  try_except_finally
    (shortest_path_query object_type position rot)
    (fun e => match e with ValueError => Some (ret []) | _ => None end)
    (step (TeleportFull pose)).

Definition segment_length (a b : Position) : Q :=
  sqrt ((pos_x b - pos_x a) ^ 2 + (pos_z b - pos_z a) ^ 2)%Q.

(** The loop of [path_corners_to_dist]: [sum += ...] for [it] from 1. *)
Fixpoint sum_segments (acc : Q) (prev : Position) (rest : list Position) : Q :=
  match rest with
  | [] => acc
  | c :: rest' => sum_segments (acc + segment_length prev c)%Q c rest'
  end.

Definition path_corners_to_dist (corners : list Position) : pyfloat :=
  match corners with
  | [] => FInf
  | c0 :: rest => FFin (sum_segments 0%Q c0 rest)
  end.

Definition quantize (cfg : Config) (v : Q) : result Z :=
  if Qeq_bool (gridSize cfg) 0 then Raise ZeroDivisionError
  else Ok (py_round (v / gridSize cfg)).

Definition lookup_grid (scene : string) : M (Env C) Grid :=
  fun e =>
    match grids e !! scene with
    | Some g => (Ok g, e)
    | None => (Raise KeyError, e)
    end.

Definition quantized_agent_state (xz_subsampling rot_subsampling : Z)
    : M (Env C) (Z * Z * Z) :=
  pose <- agent_state ;;
  scene <- scene_name ;;
  g <- lookup_grid scene ;;
  cfg <- gets config ;;
  qx <- lift (quantize cfg (pose_x pose)) ;;
  let x := np_clip qx (grid_xmin g) (grid_xmax g) in
  qz <- lift (quantize cfg (pose_z pose)) ;;
  let z := np_clip qz (grid_zmin g) (grid_zmax g) in
  let rs := (rotateStepDegrees cfg * inject_Z rot_subsampling)%Q in
  let shifted := (rot_y (pose_rotation pose) + rs / 2)%Q in
  let normalized := py_fmod shifted 360 in
  if Qeq_bool rs 0 then raise ZeroDivisionError
  else
    let r := py_round (normalized / rs) in
    if xz_subsampling =? 0 then raise ZeroDivisionError
    else ret ((x - grid_xmin g) / xz_subsampling,
              (z - grid_zmin g) / xz_subsampling, r).

Definition set_cells (cells : gmap string array2) (g : Grid) : Grid :=
  mkGrid cells (grid_xmin g) (grid_xmax g) (grid_zmin g) (grid_zmax g).

(** [self.grids[scene][0][target]] *)
Definition lookup_cells (scene target : string) : M (Env C) array2 :=
  g <- lookup_grid scene ;;
  match grid_cells g !! target with
  | Some a => ret a
  | None => raise KeyError
  end.

(** [self.grids[scene][0][target][i, j] = v] *)
Definition store_cell (scene target : string) (i j : Z) (v : Q)
    : M (Env C) unit :=
  g <- lookup_grid scene ;;
  a <- lookup_cells scene target ;;
  a' <- lift (np_set2 a i j v) ;;
  modify (fun e =>
    set_grids (<[scene := set_cells (<[target := a']> (grid_cells g)) g]> (grids e)) e).

Definition access_grid (target : string) : M (Env C) Q :=
  scene <- scene_name ;;
  g <- lookup_grid scene ;;
  (match grid_cells g !! target with
   | Some _ => ret tt
   | None =>
       let nx := grid_xmax g - grid_xmin g + 1 in
       let nz := grid_zmax g - grid_zmin g + 1 in
       a <- lift (np_full nx nz (-2)%Q) ;;
       modify (fun e =>
         set_grids (<[scene := set_cells (<[target := a]> (grid_cells g)) g]> (grids e)) e)
   end) ;;;
  p <- quantized_agent_state 1 1 ;;
  let '(p0, p1, _) := p in
  scene1 <- scene_name ;;
  a <- lookup_cells scene1 target ;;
  v <- lift (np_get2 a p0 p1) ;;
  if Qltb v (- (3 # 2))%Q then
    corners <- path_corners target ;;
    let dist :=
      match path_corners_to_dist corners with
      | FInf => (-1)%Q
      | FFin d => d
      end in
    scene2 <- scene_name ;;
    store_cell scene2 target p0 p1 dist ;;;
    ret dist
  else
    scene2 <- scene_name ;;
    a2 <- lookup_cells scene2 target ;;
    lift (np_get2 a2 p0 p1).

Definition dist_to_object (object_type : string) : M (Env C) Q :=
  access_grid object_type.

Definition object_reachable (object_type : string) : M (Env C) bool :=
  d <- access_grid object_type ;;
  ret (Qltb (- (1 # 2))%Q d).

Definition minimum (l : list Z) : result Z :=
  match l with
  | [] => Raise ValueError
  | a :: l' => Ok (fold_left Z.min l' a)
  end.

Definition maximum (l : list Z) : result Z :=
  match l with
  | [] => Raise ValueError
  | a :: l' => Ok (fold_left Z.max l' a)
  end.

Fixpoint quantize_points (cfg : Config) (pts : list Position)
    : result (list (Z * Z)) :=
  match pts with
  | [] => Ok []
  | p :: pts' =>
      match quantize cfg (pos_x p) with
      | Raise e => Raise e
      | Ok qx =>
          match quantize cfg (pos_z p) with
          | Raise e => Raise e
          | Ok qz =>
              match quantize_points cfg pts' with
              | Raise e => Raise e
              | Ok rest => Ok ((qx, qz) :: rest)
              end
          end
      end
  end.

Definition initialize_grid_dimensions (reachable_points : list Position)
    : M (Env C) (Z * Z * Z * Z) :=
  cfg <- gets config ;;
  keys <- lift (quantize_points cfg reachable_points) ;;
  let points := remove_dups keys in
  if negb (length reachable_points =? length points)%nat then raise AssertionError
  else
    xmin <- lift (minimum (fst <$> points)) ;;
    xmax <- lift (maximum (fst <$> points)) ;;
    zmin <- lift (minimum (snd <$> points)) ;;
    zmax <- lift (maximum (snd <$> points)) ;;
    ret (xmin, xmax, zmin, zmax).

Definition initialize_grid : M (Env C) unit :=
  scene <- scene_name ;;
  known <- gets (fun e => grids e !! scene) ;;
  match known with
  | Some _ => ret tt
  | None =>
      pts <- currently_reachable_points ;;
      dims <- initialize_grid_dimensions pts ;;
      let '(xmin, xmax, zmin, zmax) := dims in
      scene' <- scene_name ;;
      modify (fun e =>
        set_grids (<[scene' := mkGrid ∅ xmin xmax zmin zmax]> (grids e)) e)
  end.

(** The [else] branch of [reset]: back to the known good location. *)
Definition return_to_known_good_location : M (Env C) unit :=
  known <- gets known_good_location ;;
  match known with
  | None => raise AssertionError
  | Some pose =>
      step (TeleportFull pose) ;;;
      ok <- last_action_success ;;
      if ok then ret tt else raise AssertionError
  end.

Definition reset (scene : option string) : M (Env C) unit :=
  current <- scene_name ;;
  (match scene with
   | Some s =>
       if negb (String.eqb s current) then
         modify (fun e =>
           record_call (CallReset s)
             (set_controller (controller_reset s (controller e)) e)) ;;;
         ok <- last_action_success ;;
         if ok then
           pose <- agent_state ;;
           modify (set_known_good_location (Some pose))
         else raise AssertionError
       else return_to_known_good_location
   | None => return_to_known_good_location
   end) ;;;
  initialize_grid.

End Environment.
End RoboThorEnvironment.


(** ** What the tasks share *)

Record RewardConfigs : Type := mkRewardConfigs {
  step_penalty : Q;
  goal_success_reward : Q;
  failed_stop_reward : Q;
  shaping_weight : Q
}.

(** A sensor reading: an [np.ndarray] or anything else. *)
Inductive obsval : Type :=
  | ObsArray (a : ndarray)
  | ObsOther (v : Z).

Abbreviation observations := (list (string * obsval)).

Record StepInfo : Type := mkStepInfo {
  info_last_action_success : option bool;
  info_action : Z
}.

Record RLStepResult : Type := mkRLStepResult {
  observation : observations;
  reward : Q;
  done : bool;
  info : StepInfo
}.

(** The one message the tasks log: "No path for {} from {} to {}". *)
Record Warning : Type := NoPath {
  warn_scene : string;
  warn_from : Pose;
  warn_to : string
}.

(** What [metrics()] returns when it does not return [{}]. *)
Record Metrics (Info : Type) : Type := mkMetrics {
  m_success : option bool;
  m_ep_length : Z;
  m_total_reward : Q;
  m_dist_to_target : pyval;
  m_spl : pyval;
  m_task_info : Info
}.
Arguments mkMetrics {Info}.
Arguments m_success {Info}.
Arguments m_ep_length {Info}.
Arguments m_total_reward {Info}.
Arguments m_dist_to_target {Info}.
Arguments m_spl {Info}.
Arguments m_task_info {Info}.

(** The precomputed distance cache and its two lookups
    ([utils.cache_utils]), which answer with a float or [None]. *)
Class CacheUtils (Cache : Type) : Type := {
  cache_is_empty : Cache -> bool;
  get_distance : Cache -> Pose -> string -> pyval;
  get_distance_to_object : Cache -> Pose -> string -> pyval
}.

(** [self.env.dist_to_point]: the environment class above does not
    define it, so what the call does is left open (an environment
    without the method makes it raise [AttributeError]). *)
Class PointDistance (C : Type) : Type := {
  dist_to_point : string -> M (Env C) Q
}.

(** Truth value of an [Optional[bool]]. *)
Definition truthy (b : option bool) : bool :=
  match b with
  | Some true => true
  | _ => false
  end.

(** [a < b] and [a > b] on values that may be [None]: comparing [None]
    with a float raises [TypeError]. *)
Definition py_lt (a b : pyval) : result bool :=
  match a, b with
  | VFloat p, VFloat q => Ok (Qltb p q)
  | _, _ => Raise TypeError
  end.

Definition py_le (a b : pyval) : result bool :=
  match a, b with
  | VFloat p, VFloat q => Ok (Qle_bool p q)
  | _, _ => Raise TypeError
  end.

Definition py_gt (a b : pyval) : result bool := py_lt b a.

(** [a == b]: never raises, [None] equals no float. *)
Definition py_eq (a b : pyval) : bool :=
  match a, b with
  | VFloat p, VFloat q => Qeq_bool p q
  | VNone, VNone => true
  | _, _ => false
  end.

(** [a - b] *)
Definition py_sub (a b : pyval) : result Q :=
  match a, b with
  | VFloat p, VFloat q => Ok (p - q)%Q
  | _, _ => Raise TypeError
  end.

(** [a / b] on floats *)
Definition py_div (a b : Q) : result Q :=
  if Qeq_bool b 0 then Raise ZeroDivisionError else Ok (a / b)%Q.

(** [max(a, b)]: the first argument unless the second is greater. *)
Definition py_max (a b : Q) : Q := if Qltb a b then b else a.

(** [np.sum] of a list of floats. *)
Definition np_sum (l : list Q) : Q := fold_left Qplus l 0%Q.

Definition position_eqb (a b : Position) : bool :=
  Qeq_bool (pos_x a) (pos_x b) && Qeq_bool (pos_y a) (pos_y b)
  && Qeq_bool (pos_z a) (pos_z b).

(** [len(path) > 1 and path[-1] != path[-2]] *)
Definition last_two_differ (path : list Position) : bool :=
  match rev path with
  | last :: before :: _ => negb (position_eqb last before)
  | _ => false
  end.

(** Modelled from the spec: [compute_single_spl] belongs to ai2thor and
    is not in the sources; the spec gives it as 0 for an unsuccessful
    episode and otherwise optimal / max(actual, optimal), both lengths
    being sums of consecutive Euclidean distances. *)
Definition euclidean `{MathLib} (a b : Position) : Q :=
  sqrt ((pos_x b - pos_x a) ^ 2 + (pos_y b - pos_y a) ^ 2
        + (pos_z b - pos_z a) ^ 2)%Q.

Fixpoint path_distance `{MathLib} (path : list Position) : Q :=
  match path with
  | a :: (b :: _) as rest => (euclidean a b + path_distance rest)%Q
  | _ => 0%Q
  end.

Definition compute_single_spl `{MathLib} (path shortest_path : list Position)
    (successful_path : option bool) : result pyval :=
  if negb (truthy successful_path) then Ok (VFloat 0)
  else
    let li := path_distance shortest_path in
    let pi := path_distance path in
    match py_div li (py_max pi li) with
    | Ok r => Ok (VFloat r)
    | Raise e => Raise e
    end.

(** ** [PointNavTask] *)

Module PointNavTask.
Section Task.
Context {C : Type} `{Simulator C} `{MathLib} `{PointDistance C}.
Context {Cache : Type} `{CacheUtils Cache}.

Definition _actions : list Action := [MOVE_AHEAD; ROTATE_LEFT; ROTATE_RIGHT; END].

Record TaskInfo : Type := mkTaskInfo {
  target : string;
  object_type : string
}.

(** [episode_info], when given: the shortest path and its length. *)
Record EpisodeInfo : Type := mkEpisodeInfo {
  shortest_path : list Position;
  shortest_path_length : pyfloat
}.

Record state : Type := mkState {
  env : Env C;
  sensor_suite : Env C -> observations;
  task_info : TaskInfo;
  max_steps : Z;
  _num_steps_taken : Z;
  reward_configs : RewardConfigs;
  _took_end_action : bool;
  _success : option bool;
  distance_cache : option Cache;
  episode_optimal_corners : list Position;
  last_geodesic_distance : pyval;
  optimal_distance : pyval;
  _rewards : list Q;
  path : list Position;
  num_moves_made : Z;
  last_action_success : option bool;
  warnings : list Warning
}.

Definition set_env (e : Env C) (t : state) : state :=
  mkState e (sensor_suite t) (task_info t) (max_steps t) (_num_steps_taken t)
    (reward_configs t) (_took_end_action t) (_success t) (distance_cache t)
    (episode_optimal_corners t) (last_geodesic_distance t) (optimal_distance t)
    (_rewards t) (path t) (num_moves_made t) (last_action_success t) (warnings t).

Definition set_num_steps_taken (n : Z) (t : state) : state :=
  mkState (env t) (sensor_suite t) (task_info t) (max_steps t) n
    (reward_configs t) (_took_end_action t) (_success t) (distance_cache t)
    (episode_optimal_corners t) (last_geodesic_distance t) (optimal_distance t)
    (_rewards t) (path t) (num_moves_made t) (last_action_success t) (warnings t).

Definition set_took_end_action (b : bool) (t : state) : state :=
  mkState (env t) (sensor_suite t) (task_info t) (max_steps t) (_num_steps_taken t)
    (reward_configs t) b (_success t) (distance_cache t)
    (episode_optimal_corners t) (last_geodesic_distance t) (optimal_distance t)
    (_rewards t) (path t) (num_moves_made t) (last_action_success t) (warnings t).

Definition set_success (b : option bool) (t : state) : state :=
  mkState (env t) (sensor_suite t) (task_info t) (max_steps t) (_num_steps_taken t)
    (reward_configs t) (_took_end_action t) b (distance_cache t)
    (episode_optimal_corners t) (last_geodesic_distance t) (optimal_distance t)
    (_rewards t) (path t) (num_moves_made t) (last_action_success t) (warnings t).

Definition set_last_geodesic_distance (d : pyval) (t : state) : state :=
  mkState (env t) (sensor_suite t) (task_info t) (max_steps t) (_num_steps_taken t)
    (reward_configs t) (_took_end_action t) (_success t) (distance_cache t)
    (episode_optimal_corners t) d (optimal_distance t)
    (_rewards t) (path t) (num_moves_made t) (last_action_success t) (warnings t).

Definition set_rewards (r : list Q) (t : state) : state :=
  mkState (env t) (sensor_suite t) (task_info t) (max_steps t) (_num_steps_taken t)
    (reward_configs t) (_took_end_action t) (_success t) (distance_cache t)
    (episode_optimal_corners t) (last_geodesic_distance t) (optimal_distance t)
    r (path t) (num_moves_made t) (last_action_success t) (warnings t).

Definition set_path (p : list Position) (t : state) : state :=
  mkState (env t) (sensor_suite t) (task_info t) (max_steps t) (_num_steps_taken t)
    (reward_configs t) (_took_end_action t) (_success t) (distance_cache t)
    (episode_optimal_corners t) (last_geodesic_distance t) (optimal_distance t)
    (_rewards t) p (num_moves_made t) (last_action_success t) (warnings t).

Definition set_num_moves_made (n : Z) (t : state) : state :=
  mkState (env t) (sensor_suite t) (task_info t) (max_steps t) (_num_steps_taken t)
    (reward_configs t) (_took_end_action t) (_success t) (distance_cache t)
    (episode_optimal_corners t) (last_geodesic_distance t) (optimal_distance t)
    (_rewards t) (path t) n (last_action_success t) (warnings t).

Definition set_last_action_success (b : option bool) (t : state) : state :=
  mkState (env t) (sensor_suite t) (task_info t) (max_steps t) (_num_steps_taken t)
    (reward_configs t) (_took_end_action t) (_success t) (distance_cache t)
    (episode_optimal_corners t) (last_geodesic_distance t) (optimal_distance t)
    (_rewards t) (path t) (num_moves_made t) b (warnings t).

Definition add_warning (w : Warning) (t : state) : state :=
  mkState (env t) (sensor_suite t) (task_info t) (max_steps t) (_num_steps_taken t)
    (reward_configs t) (_took_end_action t) (_success t) (distance_cache t)
    (episode_optimal_corners t) (last_geodesic_distance t) (optimal_distance t)
    (_rewards t) (path t) (num_moves_made t) (last_action_success t)
    (warnings t ++ [w]).

(** A call on [self.env]. *)
Definition on_env {A : Type} (m : M (Env C) A) : M state A :=
  fun t => let '(r, e') := m (env t) in (r, set_env e' t).

(** [if self.distance_cache:] holds for a cache that is given and not empty. *)
Definition cache_in_use (c : option Cache) : option Cache :=
  match c with
  | Some cache => if cache_is_empty cache then None else Some cache
  | None => None
  end.

(** [get_logger().warning("No path for {} from {} to {}".format(...))] *)
Definition warn_no_path (tget : string) : M state unit :=
  scene <- on_env RoboThorEnvironment.scene_name ;;
  pose <- on_env RoboThorEnvironment.agent_state ;;
  modify (add_warning (NoPath scene pose tget)).

(** Modelled from the spec: [rl_base.task.Task] is not in the sources.
    The episode is over once [END] was taken or the step budget is
    exhausted; [num_steps_taken] counts the calls of [step]. *)
Definition reached_terminal_state (t : state) : bool := _took_end_action t.

Definition num_steps_taken (t : state) : Z := _num_steps_taken t.

Definition is_done (t : state) : bool :=
  reached_terminal_state t || (max_steps t <=? num_steps_taken t).

Definition get_observations : M state observations :=
  gets (fun t => sensor_suite t (env t)).

Definition dist_to_target : M state pyval :=
  tget <- gets (fun t => target (task_info t)) ;;
  res <- on_env (dist_to_point tget) ;;
  ret (if Qltb (- (1 # 2)) res then VFloat res else VNone).

(** The distance to the target, from the cache when there is one. *)
Definition current_distance : M state pyval :=
  cache <- gets (fun t => cache_in_use (distance_cache t)) ;;
  match cache with
  | Some c =>
      pose <- on_env RoboThorEnvironment.agent_state ;;
      tget <- gets (fun t => target (task_info t)) ;;
      ret (get_distance c pose tget)
  | None => dist_to_target
  end.

Definition _is_goal_in_range : M state (option bool) :=
  tget <- gets (fun t => target (task_info t)) ;;
  dist <- current_distance ;;
  lower <- lift (py_lt (VFloat (- (1 # 2))) dist) ;;
  in_range <- (if lower then lift (py_le dist (VFloat (2 # 10))) else ret false) ;;
  if in_range then ret (Some true)
  else
    beyond <- lift (py_gt dist (VFloat (2 # 10))) ;;
    if beyond then ret (Some false)
    else
      warn_no_path tget ;;;
      ret None.

Definition shaping : M state Q :=
  let rew := 0%Q in
  weight <- gets (fun t => shaping_weight (reward_configs t)) ;;
  if Qeq_bool weight 0 then ret rew
  else
    measured <- current_distance ;;
    last <- gets last_geodesic_distance ;;
    let geodesic_distance :=
      if py_eq measured (VFloat (-1)) then last else measured in
    last_ok <- lift (py_gt last (VFloat (- (1 # 2)))) ;;
    both_ok <- (if last_ok then lift (py_gt geodesic_distance (VFloat (- (1 # 2))))
                else ret false) ;;
    rew' <- (if both_ok
             then delta <- lift (py_sub last geodesic_distance) ;; ret (rew + delta)%Q
             else ret rew) ;;
    modify (set_last_geodesic_distance geodesic_distance) ;;;
    ret (rew' * weight)%Q.

Definition judge : M state Q :=
  base <- gets (fun t => step_penalty (reward_configs t)) ;;
  shaped <- shaping ;;
  let reward := (base + shaped)%Q in
  took_end <- gets _took_end_action ;;
  succ <- gets _success ;;
  cfg <- gets reward_configs ;;
  let reward :=
    if took_end then
      match succ with
      | Some b =>
          (reward + (if b then goal_success_reward cfg else failed_stop_reward cfg))%Q
      | None => reward
      end
    else reward in
  modify (fun t => set_rewards (_rewards t ++ [reward]) t) ;;;
  ret reward.

Definition _step (action : Z) : M state RLStepResult :=
  action_str <- lift (py_index _actions action) ;;
  (if Action_eqb action_str END then
     modify (set_took_end_action true) ;;;
     in_range <- _is_goal_in_range ;;
     modify (set_success in_range) ;;;
     modify (set_last_action_success in_range)
   else
     on_env (RoboThorEnvironment.step (NamedAction action_str)) ;;;
     ok <- on_env RoboThorEnvironment.last_action_success ;;
     modify (set_last_action_success (Some ok)) ;;;
     pose <- on_env RoboThorEnvironment.agent_state ;;
     modify (fun t => set_path (path t ++ [position_of pose]) t)) ;;;
  moved <- gets (fun t => last_two_differ (path t)) ;;
  (if moved then modify (fun t => set_num_moves_made (num_moves_made t + 1) t)
   else ret tt) ;;;
  obs <- get_observations ;;
  rew <- judge ;;
  finished <- gets is_done ;;
  last_ok <- gets last_action_success ;;
  ret (mkRLStepResult obs rew finished (mkStepInfo last_ok action)).

(** Modelled from the spec: [Task.step] of [rl_base.task] is not in the
    sources; it runs [_step] and counts the step. *)
Definition step (action : Z) : M state RLStepResult :=
  sr <- _step action ;;
  modify (fun t => set_num_steps_taken (_num_steps_taken t + 1) t) ;;;
  ret sr.

Definition spl : M state pyval :=
  succ <- gets _success ;;
  if negb (truthy succ) then ret (VFloat 0)
  else
    cache <- gets (fun t => cache_in_use (distance_cache t)) ;;
    match cache with
    | Some _ =>
        li <- gets optimal_distance ;;
        moves <- gets num_moves_made ;;
        grid_size <- gets (fun t => gridSize (config (env t))) ;;
        let pi := (inject_Z moves * grid_size)%Q in
        match li with
        | VNone => raise TypeError
        | VFloat l =>
            res <- lift (py_div l (py_max pi l)) ;;
            ret (VFloat res)
        end
    | None =>
        walked <- gets path ;;
        corners <- gets episode_optimal_corners ;;
        lift (compute_single_spl walked corners succ)
    end.

Definition metrics : M state (option (Metrics TaskInfo)) :=
  finished <- gets is_done ;;
  if negb finished then ret None
  else
    total_reward <- gets (fun t => np_sum (_rewards t)) ;;
    modify (set_rewards []) ;;;
    succ <- gets _success ;;
    match succ with
    | None => ret None
    | Some _ =>
        cache <- gets (fun t => cache_in_use (distance_cache t)) ;;
        match cache with
        | None => raise NotImplementedError
        | Some c =>
            pose <- on_env RoboThorEnvironment.agent_state ;;
            tget <- gets (fun t => target (task_info t)) ;;
            let dist2tget := get_distance c pose tget in
            match dist2tget with
            | VNone => ret None
            | VFloat _ =>
                s <- spl ;;
                match s with
                | VNone => ret None
                | VFloat _ =>
                    steps <- gets num_steps_taken ;;
                    info <- gets task_info ;;
                    ret (Some (mkMetrics succ steps total_reward dist2tget s info))
                end
            end
        end
    end.

(** An episode: the calls of [step] the sampler makes, in order. *)
Fixpoint run_episode (actions : list Z) : M state (list RLStepResult) :=
  match actions with
  | [] => ret []
  | a :: rest =>
      sr <- step a ;;
      srs <- run_episode rest ;;
      ret (sr :: srs)
  end.

(** Properties of the task that do not look at the environment, the last
    measured distance, the warnings or the rewards. *)
Definition bookkeeping_free (P : state -> Prop) : Prop :=
  (forall e t, P t -> P (set_env e t)) /\
  (forall d t, P t -> P (set_last_geodesic_distance d t)) /\
  (forall w t, P t -> P (add_warning w t)).

(** [PointNavTask(env, sensors, task_info, max_steps, reward_configs,
    distance_cache, episode_info)] *)
Definition __init__ (sensors : Env C -> observations) (info : TaskInfo)
    (steps : Z) (rewards : RewardConfigs) (cache : option Cache)
    (episode_info : option EpisodeInfo) (e : Env C) : result state * Env C :=
  let t0 :=
    mkState e sensors info steps 0 rewards false (Some false) cache
      [] VNone VNone [] [] 0 None [] in
  let build : M state unit :=
    corners_dist <-
      (match episode_info with
       | Some ei => ret (shortest_path ei, shortest_path_length ei)
       | None =>
           corners <- on_env (RoboThorEnvironment.path_corners (target info)) ;;
           ret (corners, RoboThorEnvironment.path_corners_to_dist corners)
       end) ;;
    (match snd corners_dist with
     | FInf => warn_no_path (target info)
     | FFin _ => ret tt
     end) ;;;
    last <-
      (match cache_in_use cache with
       | Some c =>
           pose <- on_env RoboThorEnvironment.agent_state ;;
           ret (get_distance c pose (target info))
       | None =>
           d <- on_env (RoboThorEnvironment.dist_to_object (object_type info)) ;;
           ret (VFloat d)
       end) ;;
    modify (fun t =>
      mkState (env t) sensors info steps 0 rewards false (Some false) cache
        (fst corners_dist) last last [] [] 0 None (warnings t)) in
  match build t0 with
  | (Ok _, t) => (Ok t, env t)
  | (Raise ex, t) => (Raise ex, env t)
  end.

End Task.
End PointNavTask.

(** ** [ObjectNavTask] *)

(** [pat in s] on strings. *)
Fixpoint contains (pat s : string) : bool :=
  String.prefix pat s ||
  match s with
  | EmptyString => false
  | String _ s' => contains pat s'
  end.

(** [len(a.shape)] *)
Definition ndim (a : ndarray) : nat :=
  match a with
  | Arr1 _ => 1
  | Arr2 _ => 2
  | Arr3 _ => 3
  | Arr4 _ => 4
  end.

(** Reversal of the second axis, the slice [::-1] in second place. *)
Definition reverse_axis1 (a : ndarray) : ndarray :=
  match a with
  | Arr1 v => Arr1 v
  | Arr2 rows => Arr2 (reverse <$> rows)
  | Arr3 rows => Arr3 (reverse <$> rows)
  | Arr4 rows => Arr4 (reverse <$> rows)
  end.

(** [a[:, ::-1]]: two indices, too many for one dimension. *)
Definition flip_columns_2d (a : ndarray) : result ndarray :=
  if (ndim a <? 2)%nat then Raise IndexError else Ok (reverse_axis1 a).

(** [a[:, ::-1, :]]: three indices, too many for fewer dimensions. *)
Definition flip_columns_3d (a : ndarray) : result ndarray :=
  if (ndim a <? 3)%nat then Raise IndexError else Ok (reverse_axis1 a).

(** Following the spec: [b] is the exact horizontal flip of [a] when it
    has the same shape and each of its rows holds the pixels of the same
    row of [a] in the opposite left-to-right order. *)
Definition row_flipped {A : Type} (r r' : list A) : Prop :=
  length r' = length r /\
  forall j : nat, (j < length r)%nat -> r' !! j = r !! (length r - 1 - j)%nat.

Definition horizontal_flip_spec (a b : ndarray) : Prop :=
  match a, b with
  | Arr2 x, Arr2 y => Forall2 row_flipped x y
  | Arr3 x, Arr3 y => Forall2 row_flipped x y
  | Arr4 x, Arr4 y => Forall2 row_flipped x y
  | _, _ => False
  end.

Module ObjectNavTask.
Section Task.
Context {C : Type} `{Simulator C} `{MathLib}.
Context {Cache : Type} `{CacheUtils Cache}.

Definition _actions : list Action :=
  [MOVE_AHEAD; ROTATE_LEFT; ROTATE_RIGHT; END; LOOK_UP; LOOK_DOWN].

Record TaskInfo : Type := mkTaskInfo {
  target : string;
  object_type : string;
  mirrored : bool;
  distance_to_target : pyval;
  followed_path : list Pose;
  taken_actions : list Action;
  action_names : list Action
}.

Record state : Type := mkState {
  env : Env C;
  sensor_suite : Env C -> observations;
  task_info : TaskInfo;
  max_steps : Z;
  _num_steps_taken : Z;
  reward_configs : RewardConfigs;
  _took_end_action : bool;
  _success : option bool;
  mirror : bool;
  distance_cache : option Cache;
  episode_optimal_corners : option (list Position);
  last_geodesic_distance : pyval;
  optimal_distance : pyval;
  _rewards : list Q;
  path : list Position;
  num_moves_made : Z;
  last_action_success : option bool
}.

Definition set_env (e : Env C) (t : state) : state :=
  mkState e (sensor_suite t) (task_info t) (max_steps t) (_num_steps_taken t)
    (reward_configs t) (_took_end_action t) (_success t) (mirror t)
    (distance_cache t) (episode_optimal_corners t) (last_geodesic_distance t)
    (optimal_distance t) (_rewards t) (path t) (num_moves_made t)
    (last_action_success t).

Definition set_task_info (i : TaskInfo) (t : state) : state :=
  mkState (env t) (sensor_suite t) i (max_steps t) (_num_steps_taken t)
    (reward_configs t) (_took_end_action t) (_success t) (mirror t)
    (distance_cache t) (episode_optimal_corners t) (last_geodesic_distance t)
    (optimal_distance t) (_rewards t) (path t) (num_moves_made t)
    (last_action_success t).

Definition set_num_steps_taken (n : Z) (t : state) : state :=
  mkState (env t) (sensor_suite t) (task_info t) (max_steps t) n
    (reward_configs t) (_took_end_action t) (_success t) (mirror t)
    (distance_cache t) (episode_optimal_corners t) (last_geodesic_distance t)
    (optimal_distance t) (_rewards t) (path t) (num_moves_made t)
    (last_action_success t).

Definition set_took_end_action (b : bool) (t : state) : state :=
  mkState (env t) (sensor_suite t) (task_info t) (max_steps t) (_num_steps_taken t)
    (reward_configs t) b (_success t) (mirror t)
    (distance_cache t) (episode_optimal_corners t) (last_geodesic_distance t)
    (optimal_distance t) (_rewards t) (path t) (num_moves_made t)
    (last_action_success t).

Definition set_success (b : option bool) (t : state) : state :=
  mkState (env t) (sensor_suite t) (task_info t) (max_steps t) (_num_steps_taken t)
    (reward_configs t) (_took_end_action t) b (mirror t)
    (distance_cache t) (episode_optimal_corners t) (last_geodesic_distance t)
    (optimal_distance t) (_rewards t) (path t) (num_moves_made t)
    (last_action_success t).

Definition set_mirror (b : bool) (t : state) : state :=
  mkState (env t) (sensor_suite t) (task_info t) (max_steps t) (_num_steps_taken t)
    (reward_configs t) (_took_end_action t) (_success t) b
    (distance_cache t) (episode_optimal_corners t) (last_geodesic_distance t)
    (optimal_distance t) (_rewards t) (path t) (num_moves_made t)
    (last_action_success t).

Definition set_last_geodesic_distance (d : pyval) (t : state) : state :=
  mkState (env t) (sensor_suite t) (task_info t) (max_steps t) (_num_steps_taken t)
    (reward_configs t) (_took_end_action t) (_success t) (mirror t)
    (distance_cache t) (episode_optimal_corners t) d
    (optimal_distance t) (_rewards t) (path t) (num_moves_made t)
    (last_action_success t).

Definition set_rewards (r : list Q) (t : state) : state :=
  mkState (env t) (sensor_suite t) (task_info t) (max_steps t) (_num_steps_taken t)
    (reward_configs t) (_took_end_action t) (_success t) (mirror t)
    (distance_cache t) (episode_optimal_corners t) (last_geodesic_distance t)
    (optimal_distance t) r (path t) (num_moves_made t)
    (last_action_success t).

Definition set_path (p : list Position) (t : state) : state :=
  mkState (env t) (sensor_suite t) (task_info t) (max_steps t) (_num_steps_taken t)
    (reward_configs t) (_took_end_action t) (_success t) (mirror t)
    (distance_cache t) (episode_optimal_corners t) (last_geodesic_distance t)
    (optimal_distance t) (_rewards t) p (num_moves_made t)
    (last_action_success t).

Definition set_num_moves_made (n : Z) (t : state) : state :=
  mkState (env t) (sensor_suite t) (task_info t) (max_steps t) (_num_steps_taken t)
    (reward_configs t) (_took_end_action t) (_success t) (mirror t)
    (distance_cache t) (episode_optimal_corners t) (last_geodesic_distance t)
    (optimal_distance t) (_rewards t) (path t) n
    (last_action_success t).

Definition set_last_action_success (b : option bool) (t : state) : state :=
  mkState (env t) (sensor_suite t) (task_info t) (max_steps t) (_num_steps_taken t)
    (reward_configs t) (_took_end_action t) (_success t) (mirror t)
    (distance_cache t) (episode_optimal_corners t) (last_geodesic_distance t)
    (optimal_distance t) (_rewards t) (path t) (num_moves_made t) b.

(** [self.task_info["taken_actions"].append(a)] *)
Definition append_taken_action (a : Action) (i : TaskInfo) : TaskInfo :=
  mkTaskInfo (target i) (object_type i) (mirrored i) (distance_to_target i)
    (followed_path i) (taken_actions i ++ [a]) (action_names i).

(** [self.task_info["followed_path"].append(pose)] *)
Definition append_followed_path (p : Pose) (i : TaskInfo) : TaskInfo :=
  mkTaskInfo (target i) (object_type i) (mirrored i) (distance_to_target i)
    (followed_path i ++ [p]) (taken_actions i) (action_names i).

Definition on_env {A : Type} (m : M (Env C) A) : M state A :=
  fun t => let '(r, e') := m (env t) in (r, set_env e' t).

Definition cache_in_use (c : option Cache) : option Cache :=
  match c with
  | Some cache => if cache_is_empty cache then None else Some cache
  | None => None
  end.

(** Modelled from the spec: [rl_base.task.Task] is not in the sources.
    The episode is over once [END] was taken or the step budget is
    exhausted; [num_steps_taken] counts the calls of [step]. *)
Definition reached_terminal_state (t : state) : bool := _took_end_action t.

Definition num_steps_taken (t : state) : Z := _num_steps_taken t.

Definition is_done (t : state) : bool :=
  reached_terminal_state t || (max_steps t <=? num_steps_taken t).

(** The flip applied to one observation of a mirrored task. *)
Definition mirror_observation (o : string * obsval) : string * obsval :=
  let '(name, value) := o in
  match value with
  | ObsArray a =>
      if contains "rgb" name || contains "depth" name then
        if (ndim a =? 3)%nat then (name, ObsArray (reverse_axis1 a))
        else if (ndim a =? 2)%nat then (name, ObsArray (reverse_axis1 a))
        else o
      else o
  | ObsOther _ => o
  end.

Definition get_observations : M state observations :=
  obs <- gets (fun t => sensor_suite t (env t)) ;;
  mirrored_task <- gets mirror ;;
  if mirrored_task then ret (mirror_observation <$> obs) else ret obs.

Definition render (mode : string) : M state ndarray :=
  if negb (String.eqb mode "rgb" || String.eqb mode "depth") then raise AssertionError
  else
    frame <- (if String.eqb mode "rgb"
              then on_env RoboThorEnvironment.current_frame
              else on_env RoboThorEnvironment.current_depth) ;;
    mirrored_task <- gets mirror ;;
    if mirrored_task then lift (flip_columns_3d frame) else ret frame.

Definition _is_goal_in_range : M state bool :=
  wanted <- gets (fun t => object_type (task_info t)) ;;
  objs <- on_env RoboThorEnvironment.visible_objects ;;
  ret (existsb (fun o => String.eqb (objectType o) wanted) objs).

Definition shaping : M state Q :=
  let rew := 0%Q in
  weight <- gets (fun t => shaping_weight (reward_configs t)) ;;
  if Qeq_bool weight 0 then ret rew
  else
    cache <- gets (fun t => cache_in_use (distance_cache t)) ;;
    wanted <- gets (fun t => object_type (task_info t)) ;;
    geodesic_distance <-
      (match cache with
       | Some c =>
           pose <- on_env RoboThorEnvironment.agent_state ;;
           ret (get_distance_to_object c pose wanted)
       | None =>
           d <- on_env (RoboThorEnvironment.dist_to_object wanted) ;;
           ret (VFloat d)
       end) ;;
    last <- gets last_geodesic_distance ;;
    last_ok <- lift (py_gt last (VFloat (- (1 # 2)))) ;;
    both_ok <- (if last_ok then lift (py_gt geodesic_distance (VFloat (- (1 # 2))))
                else ret false) ;;
    rew' <- (if both_ok
             then delta <- lift (py_sub last geodesic_distance) ;; ret (rew + delta)%Q
             else ret rew) ;;
    modify (set_last_geodesic_distance geodesic_distance) ;;;
    ret (rew' * weight)%Q.

Definition judge : M state Q :=
  base <- gets (fun t => step_penalty (reward_configs t)) ;;
  shaped <- shaping ;;
  let reward := (base + shaped)%Q in
  took_end <- gets _took_end_action ;;
  succ <- gets _success ;;
  cfg <- gets reward_configs ;;
  let reward :=
    if took_end then
      (reward + (if truthy succ then goal_success_reward cfg
                 else failed_stop_reward cfg))%Q
    else reward in
  modify (fun t => set_rewards (_rewards t ++ [reward]) t) ;;;
  ret reward.

(** The action name after the mirror swap of [_step]. *)
Definition mirrored_action (mirrored_task : bool) (action_str : Action) : Action :=
  if mirrored_task then
    if Action_eqb action_str ROTATE_RIGHT then ROTATE_LEFT
    else if Action_eqb action_str ROTATE_LEFT then ROTATE_RIGHT
    else action_str
  else action_str.

Definition _step (action : Z) : M state RLStepResult :=
  named <- lift (py_index _actions action) ;;
  mirrored_task <- gets mirror ;;
  let action_str := mirrored_action mirrored_task named in
  modify (fun t => set_task_info (append_taken_action action_str (task_info t)) t) ;;;
  (if Action_eqb action_str END then
     modify (set_took_end_action true) ;;;
     in_range <- _is_goal_in_range ;;
     modify (set_success (Some in_range)) ;;;
     modify (set_last_action_success (Some in_range))
   else
     on_env (RoboThorEnvironment.step (NamedAction action_str)) ;;;
     ok <- on_env RoboThorEnvironment.last_action_success ;;
     modify (set_last_action_success (Some ok)) ;;;
     pose <- on_env RoboThorEnvironment.agent_state ;;
     modify (fun t => set_path (path t ++ [position_of pose]) t) ;;;
     modify (fun t => set_task_info (append_followed_path pose (task_info t)) t)) ;;;
  moved <- gets (fun t => last_two_differ (path t)) ;;
  (if moved then modify (fun t => set_num_moves_made (num_moves_made t + 1) t)
   else ret tt) ;;;
  obs <- get_observations ;;
  rew <- judge ;;
  finished <- gets is_done ;;
  last_ok <- gets last_action_success ;;
  ret (mkRLStepResult obs rew finished (mkStepInfo last_ok action)).

(** Modelled from the spec: [Task.step] of [rl_base.task] is not in the
    sources; it runs [_step] and counts the step. *)
Definition step (action : Z) : M state RLStepResult :=
  sr <- _step action ;;
  modify (fun t => set_num_steps_taken (_num_steps_taken t + 1) t) ;;;
  ret sr.

Definition spl : M state pyval :=
  succ <- gets _success ;;
  if negb (truthy succ) then ret (VFloat 0)
  else
    cache <- gets (fun t => cache_in_use (distance_cache t)) ;;
    match cache with
    | Some _ =>
        li <- gets optimal_distance ;;
        moves <- gets num_moves_made ;;
        grid_size <- gets (fun t => gridSize (config (env t))) ;;
        let pi := (inject_Z moves * grid_size)%Q in
        match li with
        | VNone => raise TypeError
        | VFloat l =>
            res <- lift (py_div l (py_max pi l)) ;;
            ret (VFloat res)
        end
    | None =>
        walked <- gets path ;;
        corners <- gets episode_optimal_corners ;;
        match corners with
        | None => raise AttributeError
        | Some cs => lift (compute_single_spl walked cs succ)
        end
    end.

Definition metrics : M state (option (Metrics TaskInfo)) :=
  cache <- gets (fun t => cache_in_use (distance_cache t)) ;;
  match cache with
  | None => raise NotImplementedError
  | Some c =>
      pose <- on_env RoboThorEnvironment.agent_state ;;
      wanted <- gets (fun t => object_type (task_info t)) ;;
      let dist2tget := get_distance_to_object c pose wanted in
      finished <- gets is_done ;;
      if negb finished then ret None
      else
        succ <- gets _success ;;
        steps <- gets num_steps_taken ;;
        total_reward <- gets (fun t => np_sum (_rewards t)) ;;
        s <- spl ;;
        info <- gets task_info ;;
        modify (set_rewards []) ;;;
        ret (Some (mkMetrics succ steps total_reward dist2tget s info))
  end.

(** An episode: the calls of [step] the sampler makes, in order. *)
Fixpoint run_episode (actions : list Z) : M state (list RLStepResult) :=
  match actions with
  | [] => ret []
  | a :: rest =>
      sr <- step a ;;
      srs <- run_episode rest ;;
      ret (sr :: srs)
  end.

(** Properties of the task that survive the environment calls a step
    makes and the update of the last measured distance. *)
Definition step_frame (P : state -> Prop) : Prop :=
  preserves P (on_env RoboThorEnvironment.agent_state) /\
  (forall o, preserves P (on_env (RoboThorEnvironment.dist_to_object o))) /\
  preserves P (on_env RoboThorEnvironment.visible_objects) /\
  (forall d t, P t -> P (set_last_geodesic_distance d t)).

(** The action a step decodes, with left and right exchanged. *)
Definition opposite_rotation (a : Action) : Action :=
  match a with
  | ROTATE_LEFT => ROTATE_RIGHT
  | ROTATE_RIGHT => ROTATE_LEFT
  | other => other
  end.

(** What [get_observations] treats as an image: an array whose name
    mentions "rgb" or "depth". *)
Definition image_like (o : string * obsval) : bool :=
  match snd o with
  | ObsArray _ => contains "rgb" (fst o) || contains "depth" (fst o)
  | ObsOther _ => false
  end.

(** Following the spec: the mirrored reading [o'] of a reading [o]. An
    image-like array with 2 or 3 dimensions is the exact horizontal flip
    of the original under the same name; anything else is the original. *)
Definition mirrored_reading_spec (o o' : string * obsval) : Prop :=
  fst o' = fst o /\
  match snd o with
  | ObsArray a =>
      if image_like o && ((ndim a =? 2)%nat || (ndim a =? 3)%nat) then
        exists a', snd o' = ObsArray a' /\ horizontal_flip_spec a a'
      else snd o' = snd o
  | ObsOther _ => snd o' = snd o
  end.

(** [if not task_info["distance_to_target"]] *)
Definition distance_given (d : pyval) : bool :=
  match d with
  | VNone => false
  | VFloat q => negb (Qeq_bool q 0)
  end.

(** [ObjectNavTask(env, sensors, task_info, max_steps, reward_configs,
    distance_cache)] *)
Definition __init__ (sensors : Env C -> observations) (info : TaskInfo)
    (steps : Z) (rewards : RewardConfigs) (cache : option Cache) (e : Env C)
    : result state * Env C :=
  let t0 :=
    mkState e sensors info steps 0 rewards false (Some false) (mirrored info)
      cache None VNone VNone [] [] 0 None in
  let build : M state unit :=
    last <-
      (match cache_in_use cache with
       | Some c =>
           pose <- on_env RoboThorEnvironment.agent_state ;;
           ret (get_distance_to_object c pose (object_type info))
       | None =>
           d <- on_env (RoboThorEnvironment.dist_to_object (object_type info)) ;;
           ret (VFloat d)
       end) ;;
    modify (set_last_geodesic_distance last) ;;;
    start <- on_env RoboThorEnvironment.agent_state ;;
    let info' :=
      mkTaskInfo (target info) (object_type info) (mirrored info)
        (distance_to_target info) [start] [] _actions in
    modify (set_task_info info') ;;;
    corners <-
      (if negb (distance_given (distance_to_target info)) then
         cs <- on_env (RoboThorEnvironment.path_corners (target info)) ;;
         ret (Some cs)
       else ret None) ;;
    modify (fun t =>
      mkState (env t) sensors info' steps 0 rewards false (Some false)
        (mirrored info) cache corners last last [] [] 0 None) in
  match build t0 with
  | (Ok _, t) => (Ok t, env t)
  | (Raise ex, t) => (Raise ex, env t)
  end.

End Task.
End ObjectNavTask.

(** ** Observing the environment: grid cells, call counts, call sequences *)

Module EnvObservations.
Section Observations.
Context {C : Type} `{Simulator C} `{MathLib}.

Import RoboThorEnvironment.

(** The value the grid of [scene] holds for [target] at the quantized
    cell [(i, j)], when there is one. *)
Definition grid_value (e : Env C) (scene target : string) (i j : Z) : option Q :=
  match grids e !! scene with
  | Some g =>
      match grid_cells g !! target with
      | Some a =>
          match np_get2 a i j with
          | Ok v => Some v
          | Raise _ => None
          end
      | None => None
      end
  | None => None
  end.

Definition grid_bounds (g : Grid) : Z * Z * Z * Z :=
  (grid_xmin g, grid_xmax g, grid_zmin g, grid_zmax g).

(** The quantized [(x, z)] cell of the agent, as [access_grid] computes it. *)
Definition current_cell (e : Env C) : option (Z * Z) :=
  match fst (quantized_agent_state 1 1 e) with
  | Ok (p0, p1, _) => Some (p0, p1)
  | Raise _ => None
  end.

(** A cell is filled when [access_grid] no longer takes it for unknown. *)
Definition filled (v : Q) : Prop := Qltb v (- (3 # 2))%Q = false.

(** Number of shortest-path queries issued so far. *)
Definition is_path_query (c : SimCall) : bool :=
  match c with
  | CallShortestPath _ _ _ => true
  | _ => false
  end.

Definition path_queries (e : Env C) : nat :=
  length (List.filter is_path_query (sim_calls e)).

(** The calls recorded so far begin with [l]: nothing was taken back. *)
Definition calls_extend (l : list SimCall) (e : Env C) : Prop :=
  exists rest, sim_calls e = l ++ rest.

(** The public operations of the environment, for talking about what an
    arbitrary client does between two calls. *)
Inductive EnvOp : Type :=
  | OpStep (a : SimAction)
  | OpReset (scene : option string)
  | OpInitializeGrid
  | OpAccessGrid (target : string)
  | OpDistToObject (object_type : string)
  | OpObjectReachable (object_type : string)
  | OpPathCorners (object_type : string)
  | OpReachablePoints
  | OpVisibleObjects.

Definition run_op (o : EnvOp) (e : Env C) : Env C :=
  match o with
  | OpStep a => snd (step a e)
  | OpReset scene => snd (reset scene e)
  | OpInitializeGrid => snd (initialize_grid e)
  | OpAccessGrid target => snd (access_grid target e)
  | OpDistToObject t => snd (dist_to_object t e)
  | OpObjectReachable t => snd (object_reachable t e)
  | OpPathCorners t => snd (path_corners t e)
  | OpReachablePoints => snd (currently_reachable_points e)
  | OpVisibleObjects => snd (visible_objects e)
  end.

Definition run_ops (ops : list EnvOp) (e : Env C) : Env C :=
  fold_left (fun e' o => run_op o e') ops e.

(** Everything but [access_grid] and [initialize_grid] leaves [grids] alone. *)
Definition keeps_grids {A : Type} (m : M (Env C) A) : Prop :=
  forall G, preserves (fun e => grids e = G) m.

(** Contract of the simulator: only [reset] changes the scene. *)
Definition scene_changes_only_on_reset : Prop :=
  (forall a c, last_scene_name (controller_step a c) = last_scene_name c) /\
  (forall c t p r,
     last_scene_name (snd (get_shortest_path_to_object_type c t p r))
     = last_scene_name c).

(** Contract of the simulator: [TeleportFull] puts the agent at the
    requested pose. *)
Definition teleport_reaches_pose : Prop :=
  forall pose c, last_agent (controller_step (TeleportFull pose) c) = pose.

End Observations.
End EnvObservations.

(** ** A deterministic fake simulator

    A small stand-in for the controller, implementing the interface
    above, on which the theorems below are exercised. *)

Module Fake.

Record Controller : Type := mkController {
  fake_agent : Pose;
  fake_scene : string;
  fake_success : bool;
  fake_return : list Position;
  fake_objects : list SimObject;
  fake_frame : ndarray;
  fake_depth : ndarray
}.

Definition origin : Pose := mkPose 0 0 0 (mkRotation 0 0 0) 0.

Definition reachable : list Position :=
  [mkPosition 0 0 0; mkPosition 0 0 (1 # 4); mkPosition 0 0 (1 # 2);
   mkPosition (1 # 4) 0 0; mkPosition (1 # 4) 0 (1 # 4); mkPosition (1 # 4) 0 (1 # 2)].

Definition television : Position := mkPosition 0 0 3.

Definition move_ahead (p : Pose) : Pose :=
  mkPose (pose_x p) (pose_y p) (pose_z p + (1 # 4)) (pose_rotation p) (pose_horizon p).

Definition rotate (deg : Q) (p : Pose) : Pose :=
  mkPose (pose_x p) (pose_y p) (pose_z p)
    (mkRotation (rot_x (pose_rotation p)) (rot_y (pose_rotation p) + deg)
       (rot_z (pose_rotation p)))
    (pose_horizon p).

Definition with_agent (p : Pose) (ok : bool) (c : Controller) : Controller :=
  mkController p (fake_scene c) ok (fake_return c) (fake_objects c)
    (fake_frame c) (fake_depth c).

Definition do_step (a : SimAction) (c : Controller) : Controller :=
  match a with
  | TeleportFull p => with_agent p true c
  | GetReachablePositions =>
      mkController (fake_agent c) (fake_scene c) true reachable (fake_objects c)
        (fake_frame c) (fake_depth c)
  | NamedAction MOVE_AHEAD => with_agent (move_ahead (fake_agent c)) true c
  | NamedAction ROTATE_LEFT => with_agent (rotate (-30) (fake_agent c)) true c
  | NamedAction ROTATE_RIGHT => with_agent (rotate 30 (fake_agent c)) true c
  | NamedAction _ => with_agent (fake_agent c) false c
  end.

Definition do_reset (scene : string) (c : Controller) : Controller :=
  mkController origin scene true [] (fake_objects c) (fake_frame c) (fake_depth c).

(** The query walks the agent to the target and leaves it there: the
    caller has to put it back. Only televisions can be reached. *)
Definition do_shortest_path (c : Controller) (object_type : string)
    (position : Position) (rot : option Rotation)
    : result (list Position) * Controller :=
  if String.eqb object_type "Television" then
    (Ok [position; television],
     with_agent (mkPose (pos_x television) (pos_y television) (pos_z television)
                   (mkRotation 0 0 0) 0) true c)
  else (Raise ValueError, with_agent (move_ahead (fake_agent c)) false c).

#[global] Instance simulator : Simulator Controller := {
  last_agent := fake_agent;
  last_scene_name := fake_scene;
  last_success := fake_success;
  last_action_return_points := fake_return;
  last_objects := fake_objects;
  last_frame := fake_frame;
  last_depth_frame := fake_depth;
  controller_step := do_step;
  controller_reset := do_reset;
  get_shortest_path_to_object_type := do_shortest_path
}.

(** Square root to six decimals, rounded down. *)
Definition approx_sqrt (q : Q) : Q :=
  Z.sqrt (Qfloor (q * 1000000000000)) # 1000000.

Lemma approx_sqrt_nonneg (q : Q) : (0 <= approx_sqrt q)%Q.
Proof.
  unfold approx_sqrt, Qle. cbn [Qnum Qden].
  pose proof (Z.sqrt_nonneg (Qfloor (q * 1000000000000))). lia.
Qed.

#[global] Instance mathlib : MathLib := {
  sqrt := approx_sqrt;
  sqrt_nonneg := approx_sqrt_nonneg
}.

Definition frame : ndarray :=
  Arr3 [[[1; 2; 3]; [4; 5; 6]]; [[7; 8; 9]; [10; 11; 12]]]%Q.

Definition depth : ndarray := Arr2 [[1; 2; 3]; [4; 5; 6]]%Q.

Definition controller0 : Controller :=
  mkController origin "FloorPlan_Train1_1" true []
    [mkSimObject "Television" true; mkSimObject "Apple" false] frame depth.

Definition env0 : Env Controller :=
  mkEnv controller0 (mkConfig (1 # 4) 30) (Some origin) ∅ [].

(** The environment after [reset()]: the grid of the scene exists. *)
Definition env1 : Env Controller := snd (RoboThorEnvironment.reset None env0).

(** A distance cache: targets along the z axis, by name; a negative
    entry stands for a target that cannot be reached. *)
Definition Cache : Type := list (string * Q).

Fixpoint cache_find (c : Cache) (name : string) : option Q :=
  match c with
  | [] => None
  | (k, v) :: c' => if String.eqb k name then Some v else cache_find c' name
  end.

Definition cached_distance (c : Cache) (pose : Pose) (name : string) : pyval :=
  match cache_find c name with
  | None => VNone
  | Some zt =>
      if Qltb zt 0 then VFloat (-1)
      else if Qltb (pose_z pose) zt then VFloat (zt - pose_z pose)
      else VFloat (pose_z pose - zt)
  end.

#[global] Instance cache_utils : CacheUtils Cache := {
  cache_is_empty := fun c => match c with [] => true | _ => false end;
  get_distance := cached_distance;
  get_distance_to_object := cached_distance
}.

(** An environment that answers [dist_to_point] from its grid. *)
#[global] Instance point_distance : PointDistance Controller := {
  dist_to_point := RoboThorEnvironment.access_grid
}.

Definition cache0 : Cache := [("Television", 3 # 10); ("Apple", -1)]%Q.

Definition rewards0 : RewardConfigs :=
  mkRewardConfigs (- (1 # 100)) 10 0 1.

Definition sensors0 (e : Env Controller) : observations :=
  [("rgb_lowres", ObsArray (fake_frame (controller e)));
   ("depth_lowres", ObsArray (fake_depth (controller e)));
   ("semantic_map", ObsArray (fake_depth (controller e)));
   ("goal_object_type_ind", ObsOther 3)].

Definition or_else {A : Type} (r : result A) (default : A) : A :=
  match r with
  | Ok a => a
  | Raise _ => default
  end.

Definition point_task_blank (cache : option Cache) (tget : string)
    : PointNavTask.state :=
  PointNavTask.mkState env1 sensors0 (PointNavTask.mkTaskInfo tget tget) 100 0
    rewards0 false (Some false) cache [] VNone VNone [] [] 0 None [].

(** PointNav episodes: with the cache towards the television, with the
    cache towards an unreachable apple, and without cache. *)
Definition point_task (cache : option Cache) (tget : string)
    : PointNavTask.state :=
  or_else
    (fst (PointNavTask.__init__ sensors0 (PointNavTask.mkTaskInfo tget tget)
            100 rewards0 cache None env1))
    (point_task_blank cache tget).

Definition object_info (tget : string) (mirrored : bool) : ObjectNavTask.TaskInfo :=
  ObjectNavTask.mkTaskInfo tget tget mirrored VNone [] [] [].

Definition object_task_blank (cache : option Cache) (tget : string)
    (mirrored : bool) : ObjectNavTask.state :=
  ObjectNavTask.mkState env1 sensors0 (object_info tget mirrored) 100 0
    rewards0 false (Some false) mirrored cache None VNone VNone [] [] 0 None.

Definition object_task (cache : option Cache) (tget : string) (mirrored : bool)
    : ObjectNavTask.state :=
  or_else
    (fst (ObjectNavTask.__init__ sensors0 (object_info tget mirrored)
            100 rewards0 cache env1))
    (object_task_blank cache tget mirrored).

(** Episodes on the fake: one move ahead and [END], towards the
    television (reached) and towards the apple (no path). *)
Definition point_reached : PointNavTask.state :=
  snd (PointNavTask.run_episode [0; 3] (point_task (Some cache0) "Television")).

Definition point_no_path : PointNavTask.state :=
  snd (PointNavTask.run_episode [0; 3] (point_task (Some cache0) "Apple")).

Definition object_reached : ObjectNavTask.state :=
  snd (ObjectNavTask.run_episode [0; 3] (object_task (Some cache0) "Television" true)).

(** The step results of the first of these episodes, and its metrics. *)
Definition point_reached_results : list RLStepResult :=
  or_else
    (fst (PointNavTask.run_episode [0; 3] (point_task (Some cache0) "Television")))
    [].

Definition point_reached_metrics : Metrics PointNavTask.TaskInfo :=
  match fst (PointNavTask.metrics point_reached) with
  | Ok (Some m) => m
  | _ => mkMetrics None 0 0 VNone VNone (PointNavTask.mkTaskInfo "" "")
  end.

End Fake.

(** ** Well-formed grids *)

Module GridShape.
Section Shape.
Context {C : Type} `{Simulator C} `{MathLib}.

(** An array of shape [(nx, nz)]. *)
Definition has_shape (a : array2) (nx nz : Z) : Prop :=
  length a = Z.to_nat nx /\ Forall (fun row => length row = Z.to_nat nz) a.

(** A grid as [initialize_grid] and [access_grid] build it: a non-empty
    bounding box, and every distance array of the size of the box. *)
Definition grid_well_formed (g : Grid) : Prop :=
  grid_xmin g <= grid_xmax g /\ grid_zmin g <= grid_zmax g /\
  forall t a, grid_cells g !! t = Some a ->
    has_shape a (grid_xmax g - grid_xmin g + 1) (grid_zmax g - grid_zmin g + 1).

Definition env_well_formed (e : Env C) : Prop :=
  forall scene g, grids e !! scene = Some g -> grid_well_formed g.

(** The shortest-path query fails with [ValueError] or not at all. *)
Definition query_fails_only_without_path : Prop :=
  forall c t p r ex,
    fst (get_shortest_path_to_object_type c t p r) = Raise ex -> ex = ValueError.

(** What the simulator answers to the query [path_corners] makes. *)
Definition path_query (t : string) (e : Env C) : result (list Position) :=
  fst (get_shortest_path_to_object_type (controller e) t
         (position_of (last_agent (controller e)))
         (Some (pose_rotation (last_agent (controller e))))).

(** The distance [access_grid] derives from the answer of the query. *)
Definition distance_of_answer (r : result (list Position)) : Q :=
  match r with
  | Ok (c0 :: rest) => RoboThorEnvironment.sum_segments 0%Q c0 rest
  | _ => (-1)%Q
  end.

(** The value of a cell, a cell without array counting as unknown. *)
Definition cell_or_unknown (e : Env C) (scene t : string) (i j : Z) : Q :=
  match EnvObservations.grid_value e scene t i j with
  | Some v => v
  | None => (-2)%Q
  end.

(** The two controller calls of one shortest-path lookup. *)
Definition lookup_calls (t : string) (e : Env C) : list SimCall :=
  [CallShortestPath t (position_of (last_agent (controller e)))
     (Some (pose_rotation (last_agent (controller e))));
   CallStep (TeleportFull (last_agent (controller e)))].

(** What a cell of a distance array may hold: the mark of an unknown
    cell, the mark of an unreachable target, or a length. *)
Definition distance_entry (v : Q) : Prop := (v == -2 \/ v == -1 \/ 0 <= v)%Q.

Definition distances_valid (e : Env C) : Prop :=
  forall scene g t a,
    grids e !! scene = Some g -> grid_cells g !! t = Some a ->
    Forall (Forall distance_entry) a.

(** The invariant of the grid cache. *)
Definition cache_invariant (e : Env C) : Prop :=
  env_well_formed e /\ distances_valid e.

(** Whether the simulator found a path: an answer with a corner. *)
Definition path_found (r : result (list Position)) : bool :=
  match r with
  | Ok (_ :: _) => true
  | _ => false
  end.

(** [reset] up to its last statement: everything before the call of
    [initialize_grid]. *)
Definition reset_prefix (scene : option string) : M (Env C) unit :=
  current <- RoboThorEnvironment.scene_name ;;
  match scene with
  | Some s =>
      if negb (String.eqb s current) then
        modify (fun e =>
          RoboThorEnvironment.record_call (CallReset s)
            (RoboThorEnvironment.set_controller (controller_reset s (controller e)) e)) ;;;
        ok <- RoboThorEnvironment.last_action_success ;;
        if ok then
          pose <- RoboThorEnvironment.agent_state ;;
          modify (RoboThorEnvironment.set_known_good_location (Some pose))
        else raise AssertionError
      else RoboThorEnvironment.return_to_known_good_location
  | None => RoboThorEnvironment.return_to_known_good_location
  end.

End Shape.
End GridShape.

(** ** Steps of the tasks *)

(** The step result [sr] with [action] in its info. *)
Definition with_action (action : Z) (sr : RLStepResult) : RLStepResult :=
  mkRLStepResult (observation sr) (reward sr) (done sr)
    (mkStepInfo (info_last_action_success (info sr)) action).

(** Two runs that end in the same state, both raising the same exception
    or returning results related by [R]. *)
Definition run_related {S A B : Type} (R : A -> B -> Prop)
    (x : result A * S) (y : result B * S) : Prop :=
  snd x = snd y /\
  match fst x, fst y with
  | Ok a, Ok b => R a b
  | Raise e, Raise e' => e = e'
  | _, _ => False
  end.

(** What [PointNavTask._is_goal_in_range] makes of a distance that is a
    float: in range within (-0.5, 0.2], out of range beyond 0.2, and
    [None] otherwise. *)
Definition range_verdict (d : Q) : option bool :=
  if Qltb (- (1 # 2)) d && Qle_bool d (2 # 10) then Some true
  else if Qltb (2 # 10) d then Some false
  else None.


(** [task_info["followed_path"]] holds the starting pose and then the
    pose behind every entry of [path], in order. *)
Definition follows_path {C : Type} `{Simulator C} {Cache : Type}
    (t : ObjectNavTask.state (C := C) (Cache := Cache)) : Prop :=
  exists start rest,
    ObjectNavTask.followed_path (ObjectNavTask.task_info t) = start :: rest /\
    position_of <$> rest = ObjectNavTask.path t.

(** An object of the wanted type is among the visible ones. *)
Definition target_visible {C : Type} `{Simulator C} {Cache : Type}
    (t : ObjectNavTask.state (C := C) (Cache := Cache)) : Prop :=
  exists o,
    o ∈ last_objects (controller (ObjectNavTask.env t)) /\
    visible o = true /\
    objectType o = ObjectNavTask.object_type (ObjectNavTask.task_info t).

(** ** The experiment configuration: processes per device *)

Module ObjectNavRoboThorRGBDDPPOCVPRExperimentConfig.

(** The attributes of the configuration that [split_num_processes] reads. *)
Record ExperimentConfig : Type := mkExperimentConfig {
  NUM_PROCESSES : Z
}.

(** The class as written: [NUM_PROCESSES = 60]. *)
Definition default : ExperimentConfig := mkExperimentConfig 60.

(** [a % b] on integers: the sign of the divisor, as [Z.modulo]. *)
Definition py_mod (a b : Z) : result Z :=
  if b =? 0 then Raise ZeroDivisionError else Ok (a mod b).

(** [res[i] += 1] *)
Definition increment (res : list Z) (i : Z) : result (list Z) :=
  match py_norm_index (length res) i with
  | Some k =>
      match res !! k with
      | Some v => Ok (<[k := v + 1]> res)
      | None => Raise IndexError
      end
  | None => Raise IndexError
  end.

(** The loop [for it in range(...): res[it % ndevices] += 1], over the
    values of [it] still to come. *)
Fixpoint distribute (ndevices : Z) (its : list Z) (res : list Z) : result (list Z) :=
  match its with
  | [] => Ok res
  | it :: rest =>
      match py_mod it ndevices with
      | Raise e => Raise e
      | Ok i =>
          match increment res i with
          | Raise e => Raise e
          | Ok res' => distribute ndevices rest res'
          end
      end
  end.

(** [range(n)] *)
Definition range (n : Z) : list Z := Z.of_nat <$> seq 0 (Z.to_nat n).

Definition split_num_processes (self : ExperimentConfig) (ndevices : Z)
    : result (list Z) :=
  if NUM_PROCESSES self <? ndevices then Raise AssertionError
  else
    let res := replicate (Z.to_nat ndevices) 0 in
    distribute ndevices (range (NUM_PROCESSES self)) res.

(** [sum(res)] *)
Definition total (res : list Z) : Z := foldr Z.add 0 res.

(** The number of [it] below [n] that fall on device [j] of [d]. *)
Definition share (d n j : Z) : Z := (n + d - 1 - j) / d.

Definition shares (d n : Z) : list Z := share d n <$> range d.

End ObjectNavRoboThorRGBDDPPOCVPRExperimentConfig.

(** ** The exploration-shaped [ObjectNavTask] of [rl_robothor.object_nav.tasks] *)

(** [self.env.agent_to_grid]: the environment class above does not
    define it, so what the call does is left open (an environment
    without the method makes it raise [AttributeError]). *)
Class AgentToGrid (C : Type) : Type := {
  agent_to_grid : Z -> Z -> M (Env C) (Z * Z * Z)
}.

Module ExplorationObjectNavTask.
Section Task.
Context {C : Type} `{Simulator C} `{MathLib} `{AgentToGrid C}.

Definition _actions : list Action :=
  [MOVE_AHEAD; MOVE_BACK; ROTATE_LEFT; ROTATE_RIGHT; LOOK_DOWN; LOOK_UP; END].

Record RewardConfigs : Type := mkRewardConfigs {
  step_penalty : Q;
  goal_success_reward : Q;
  failed_stop_reward : Q;
  shaping_weight : Q;
  exploration_shaping_weight : Q;
  unsuccessful_action_penalty : Q
}.

Record TaskInfo : Type := mkTaskInfo {
  object_type : string
}.

(** [info={"last_action_success": ...}] *)
Record StepInfo : Type := mkStepInfo {
  info_last_action_success : option bool
}.

Record RLStepResult : Type := mkRLStepResult {
  observation : observations;
  reward : Q;
  done : bool;
  info : StepInfo
}.

(** The attributes of the task. [_rewards] is the record behind the
    accumulated total reward of [metrics()], see [step] below. *)
Record state : Type := mkState {
  env : Env C;
  sensor_suite : Env C -> observations;
  task_info : TaskInfo;
  max_steps : Z;
  _num_steps_taken : Z;
  _took_end_action : bool;
  _success : bool;
  last_action_success : option bool;
  reward_configs : RewardConfigs;
  is_robot : bool;
  cur_dist : Q;
  visited : gset (Z * Z * Z);
  _rewards : list Q
}.

Definition set_env (e : Env C) (t : state) : state :=
  mkState e (sensor_suite t) (task_info t) (max_steps t) (_num_steps_taken t)
    (_took_end_action t) (_success t) (last_action_success t) (reward_configs t)
    (is_robot t) (cur_dist t) (visited t) (_rewards t).

Definition set_num_steps_taken (n : Z) (t : state) : state :=
  mkState (env t) (sensor_suite t) (task_info t) (max_steps t) n
    (_took_end_action t) (_success t) (last_action_success t) (reward_configs t)
    (is_robot t) (cur_dist t) (visited t) (_rewards t).

Definition set_took_end_action (b : bool) (t : state) : state :=
  mkState (env t) (sensor_suite t) (task_info t) (max_steps t) (_num_steps_taken t)
    b (_success t) (last_action_success t) (reward_configs t)
    (is_robot t) (cur_dist t) (visited t) (_rewards t).

Definition set_success (b : bool) (t : state) : state :=
  mkState (env t) (sensor_suite t) (task_info t) (max_steps t) (_num_steps_taken t)
    (_took_end_action t) b (last_action_success t) (reward_configs t)
    (is_robot t) (cur_dist t) (visited t) (_rewards t).

Definition set_last_action_success (b : option bool) (t : state) : state :=
  mkState (env t) (sensor_suite t) (task_info t) (max_steps t) (_num_steps_taken t)
    (_took_end_action t) (_success t) b (reward_configs t)
    (is_robot t) (cur_dist t) (visited t) (_rewards t).

Definition set_cur_dist (d : Q) (t : state) : state :=
  mkState (env t) (sensor_suite t) (task_info t) (max_steps t) (_num_steps_taken t)
    (_took_end_action t) (_success t) (last_action_success t) (reward_configs t)
    (is_robot t) d (visited t) (_rewards t).

Definition set_visited (v : gset (Z * Z * Z)) (t : state) : state :=
  mkState (env t) (sensor_suite t) (task_info t) (max_steps t) (_num_steps_taken t)
    (_took_end_action t) (_success t) (last_action_success t) (reward_configs t)
    (is_robot t) (cur_dist t) v (_rewards t).

Definition set_rewards (r : list Q) (t : state) : state :=
  mkState (env t) (sensor_suite t) (task_info t) (max_steps t) (_num_steps_taken t)
    (_took_end_action t) (_success t) (last_action_success t) (reward_configs t)
    (is_robot t) (cur_dist t) (visited t) r.

(** A call on [self.env]. *)
Definition on_env {A : Type} (m : M (Env C) A) : M state A :=
  fun t => let '(r, e') := m (env t) in (r, set_env e' t).

(** Modelled from the spec: the base classes ([rl_base.task.Task] and
    the [ObjectNavTask] of [rl_ai2thor]) are not in the sources. The
    episode is over once [END] was taken or the step budget is
    exhausted; the observations are those of the sensor suite; and the
    goal test at [END] is that a visible object has the wanted type. *)
Definition is_done (t : state) : bool :=
  _took_end_action t || (max_steps t <=? _num_steps_taken t).

Definition get_observations : M state observations :=
  gets (fun t => sensor_suite t (env t)).

Definition _is_goal_object_visible : M state bool :=
  wanted <- gets (fun t => object_type (task_info t)) ;;
  objs <- on_env RoboThorEnvironment.visible_objects ;;
  ret (existsb (fun o => String.eqb (objectType o) wanted) objs).

Definition shaping : M state Q :=
  weight <- gets (fun t => shaping_weight (reward_configs t)) ;;
  if Qeq_bool weight 0 then ret 0%Q
  else
    wanted <- gets (fun t => object_type (task_info t)) ;;
    new_dist <- on_env (RoboThorEnvironment.dist_to_object wanted) ;;
    cur <- gets cur_dist ;;
    let rew :=
      if Qltb (- (1 # 2)) cur && Qltb (- (1 # 2)) new_dist
      then (cur - new_dist)%Q else 0%Q in
    modify (set_cur_dist new_dist) ;;;
    old_visited <- gets (fun t => size (visited t)) ;;
    cell <- on_env (agent_to_grid 4 3) ;;
    modify (fun t => set_visited ({[cell]} ∪ visited t) t) ;;;
    new_visited <- gets (fun t => size (visited t)) ;;
    explore <- gets (fun t => exploration_shaping_weight (reward_configs t)) ;;
    let rew :=
      (rew + explore * inject_Z (Z.of_nat new_visited - Z.of_nat old_visited))%Q in
    ret (rew * weight)%Q.

Definition judge : M state Q :=
  base <- gets (fun t => step_penalty (reward_configs t)) ;;
  shaped <- shaping ;;
  let reward := (base + shaped)%Q in
  last_ok <- gets last_action_success ;;
  cfg <- gets reward_configs ;;
  let reward :=
    if negb (truthy last_ok) then (reward + unsuccessful_action_penalty cfg)%Q
    else reward in
  took_end <- gets _took_end_action ;;
  succ <- gets _success ;;
  let reward :=
    if took_end then
      (reward + (if succ then goal_success_reward cfg else failed_stop_reward cfg))%Q
    else reward in
  ret reward.

Definition _step (action : Z) : M state RLStepResult :=
  action_str <- lift (py_index _actions action) ;;
  (if Action_eqb action_str END then
     modify (set_took_end_action true) ;;;
     seen <- _is_goal_object_visible ;;
     modify (set_success seen) ;;;
     modify (set_last_action_success (Some seen))
   else
     on_env (RoboThorEnvironment.step (NamedAction action_str)) ;;;
     ok <- on_env RoboThorEnvironment.last_action_success ;;
     modify (set_last_action_success (Some ok))) ;;;
  obs <- get_observations ;;
  rew <- judge ;;
  finished <- gets is_done ;;
  last_ok <- gets last_action_success ;;
  ret (mkRLStepResult obs rew finished (mkStepInfo last_ok)).

(** Modelled from the spec: [Task.step] and [metrics] of the base
    classes are not in the sources. The step runs [_step] and counts
    itself. The spec has [metrics()] return [{}] until the episode is
    terminal, and afterwards the success flag, the episode length, the
    accumulated total reward (the sum of all per-step rewards, then
    reset to empty), the distance to the target, the SPL and the task
    info, or [{}] when a distance or SPL value is unavailable. The
    [judge] of this class keeps no record of what it returns, so the
    reward of each step result is recorded here. How the base class
    measures the final distance and the SPL is left open. *)
Definition step (action : Z) : M state RLStepResult :=
  sr <- _step action ;;
  modify (fun t =>
    set_num_steps_taken (_num_steps_taken t + 1)
      (set_rewards (_rewards t ++ [reward sr]) t)) ;;;
  ret sr.

Variable final_distance : state -> pyval.
Variable final_spl : state -> pyval.

Definition metrics : M state (option (Metrics TaskInfo)) :=
  finished <- gets is_done ;;
  if negb finished then ret None
  else
    total_reward <- gets (fun t => np_sum (_rewards t)) ;;
    modify (set_rewards []) ;;;
    succ <- gets _success ;;
    steps <- gets _num_steps_taken ;;
    info <- gets task_info ;;
    dist2tget <- gets final_distance ;;
    s <- gets final_spl ;;
    match dist2tget, s with
    | VFloat _, VFloat _ =>
        ret (Some (mkMetrics (Some succ) steps total_reward dist2tget s info))
    | _, _ => ret None
    end.

(** An episode: the calls of [step] the sampler makes, in order. *)
Fixpoint run_episode (actions : list Z) : M state (list RLStepResult) :=
  match actions with
  | [] => ret []
  | a :: rest =>
      sr <- step a ;;
      srs <- run_episode rest ;;
      ret (sr :: srs)
  end.

(** [ObjectNavTask(env, sensors, task_info, max_steps, reward_configs)];
    the constructor of the base class leaves a task that has neither
    ended nor succeeded. *)
Definition __init__ (sensors : Env C -> observations) (info : TaskInfo)
    (steps : Z) (rewards : RewardConfigs) (e : Env C) : result state * Env C :=
  let t0 := mkState e sensors info steps 0 false false None rewards false 0 ∅ [] in
  let build : M state unit :=
    d <- on_env (RoboThorEnvironment.dist_to_object (object_type info)) ;;
    modify (set_cur_dist d) ;;;
    cell <- on_env (agent_to_grid 4 3) ;;
    modify (set_visited {[cell]}) in
  match build t0 with
  | (Ok _, t) => (Ok t, env t)
  | (Raise ex, t) => (Raise ex, env t)
  end.

End Task.
End ExplorationObjectNavTask.

(** ** More episodes on the fake simulator *)

Module Episodes.

(** Two moves ahead towards the television, the cache in use. *)
Definition point_two_moves : PointNavTask.state :=
  snd (PointNavTask.run_episode [0; 0] (Fake.point_task (Some Fake.cache0) "Television")).

(** The metrics of the mirrored episode that reached the television. *)
Definition object_reached_metrics : Metrics ObjectNavTask.TaskInfo :=
  match fst (ObjectNavTask.metrics Fake.object_reached) with
  | Ok (Some m) => m
  | _ => mkMetrics None 0 0 VNone VNone (Fake.object_info "" false)
  end.

(** On the fake, [agent_to_grid] is the quantized agent state. *)
#[global] Instance agent_to_grid_fake : AgentToGrid Fake.Controller := {
  agent_to_grid := RoboThorEnvironment.quantized_agent_state
}.

Definition exploration_rewards : ExplorationObjectNavTask.RewardConfigs :=
  ExplorationObjectNavTask.mkRewardConfigs (- (1 # 100)) 10 0 1 (1 # 10) (- (3 # 100)).

Definition exploration_blank : ExplorationObjectNavTask.state :=
  ExplorationObjectNavTask.mkState Fake.env1 Fake.sensors0
    (ExplorationObjectNavTask.mkTaskInfo "Television") 100 0 false false None
    exploration_rewards false 0 ∅ [].

(** An exploration-shaped episode: one move ahead and [END]. *)
Definition exploration_task : ExplorationObjectNavTask.state :=
  Fake.or_else
    (fst (ExplorationObjectNavTask.__init__ Fake.sensors0
            (ExplorationObjectNavTask.mkTaskInfo "Television") 100
            exploration_rewards Fake.env1))
    exploration_blank.

Definition exploration_done : ExplorationObjectNavTask.state :=
  snd (ExplorationObjectNavTask.run_episode [0; 6] exploration_task).

Definition exploration_results : list ExplorationObjectNavTask.RLStepResult :=
  Fake.or_else (fst (ExplorationObjectNavTask.run_episode [0; 6] exploration_task)) [].

(** For the two entries of the metrics left open: the last measured
    distance, and an SPL of 0. *)
Definition exploration_distance
    (t : ExplorationObjectNavTask.state (C := Fake.Controller)) : pyval :=
  VFloat (ExplorationObjectNavTask.cur_dist t).

Definition exploration_spl
    (t : ExplorationObjectNavTask.state (C := Fake.Controller)) : pyval := VFloat 0.

Definition exploration_metrics : Metrics ExplorationObjectNavTask.TaskInfo :=
  match fst (ExplorationObjectNavTask.metrics exploration_distance exploration_spl
               exploration_done) with
  | Ok (Some m) => m
  | _ => mkMetrics None 0 0 VNone VNone (ExplorationObjectNavTask.mkTaskInfo "")
  end.

End Episodes.

(** * Verification *)

(** ** Facts about float comparison *)

Lemma Qltb_lt (a b : Q) : Qltb a b = true <-> (a < b)%Q.
Proof.
  unfold Qltb. rewrite negb_true_iff. split.
  - intros H. destruct (Qlt_le_dec a b) as [Hl | Hl]; [exact Hl |].
    apply Qle_bool_iff in Hl. congruence.
  - intros H. destruct (Qle_bool b a) eqn:E; [| reflexivity].
    apply Qle_bool_iff in E. lra.
Qed.

Lemma Qltb_ge (a b : Q) : Qltb a b = false <-> (b <= a)%Q.
Proof.
  unfold Qltb. rewrite negb_false_iff. apply Qle_bool_iff.
Qed.

(** The ratio of [spl]: optimal length over the longer of the two. *)
Lemma spl_ratio_bounds (li pi : Q) :
  (0 < li)%Q -> (li <= pi)%Q ->
  exists r, py_div li (py_max pi li) = Ok r /\ (0 <= r)%Q /\ (r <= 1)%Q.
Proof.
  intros Hpos Hle. unfold py_max, py_div.
  assert (Hm : Qltb pi li = false) by (apply Qltb_ge; exact Hle).
  rewrite Hm.
  destruct (Qeq_bool pi 0) eqn:E.
  - apply Qeq_bool_eq in E. lra.
  - exists (li / pi)%Q. split; [reflexivity |].
    assert (Hpi : (0 < pi)%Q) by lra. split.
    + apply Qle_shift_div_l; [exact Hpi | lra].
    + apply Qle_shift_div_r; [exact Hpi | lra].
Qed.

(** ** Facts about indexing *)

Lemma py_norm_index_lt (n : nat) (i : Z) (k : nat) :
  py_norm_index n i = Some k -> (k < n)%nat.
Proof.
  unfold py_norm_index. intros Hk.
  destruct ((0 <=? i) && (i <? Z.of_nat n)) eqn:E1.
  - inversion Hk; subst. apply andb_true_iff in E1 as [? ?]. lia.
  - destruct ((- Z.of_nat n <=? i) && (i <? 0)) eqn:E2; simpl in *; [| discriminate].
    inversion Hk; subst. apply andb_true_iff in E2 as [? ?]. lia.
Qed.

Lemma np_get2_inv (a : array2) (i j : Z) (v : Q) :
  np_get2 a i j = Ok v <->
  exists ki kj row,
    py_norm_index (length a) i = Some ki /\ a !! ki = Some row /\
    py_norm_index (length row) j = Some kj /\ row !! kj = Some v.
Proof.
  unfold np_get2, py_index. split.
  - intros Hg.
    destruct (py_norm_index (length a) i) as [ki |] eqn:Ei; simpl in *; [| discriminate].
    destruct (a !! ki) as [row |] eqn:Er; simpl in *; [| discriminate].
    destruct (py_norm_index (length row) j) as [kj |] eqn:Ej; simpl in *; [| discriminate].
    destruct (row !! kj) as [w |] eqn:Ew; simpl in *; [| discriminate].
    inversion Hg; subst. eauto 10.
  - intros (ki & kj & row & -> & -> & -> & ->). reflexivity.
Qed.

Lemma np_set2_get2_same (a a' : array2) (i j : Z) (w : Q) :
  np_set2 a i j w = Ok a' -> np_get2 a' i j = Ok w.
Proof.
  unfold np_set2. intros Hs.
  destruct (py_norm_index (length a) i) as [ki |] eqn:Ei; simpl in *; [| discriminate].
  destruct (a !! ki) as [row |] eqn:Er; simpl in *; [| discriminate].
  destruct (py_norm_index (length row) j) as [kj |] eqn:Ej; simpl in *; [| discriminate].
  inversion Hs; subst. apply np_get2_inv.
  exists ki, kj, (<[kj := w]> row).
  rewrite !length_insert. repeat split; auto.
  - apply list_lookup_insert_eq. eapply py_norm_index_lt; eauto.
  - apply list_lookup_insert_eq. eapply py_norm_index_lt; eauto.
Qed.

(** Writing one cell leaves every other cell alone: a read at [(i, j)]
    after a write at [(i', j')] sees the old value unless the two index
    pairs name the same cell. *)
Lemma np_set2_get2 (a a' : array2) (i' j' i j : Z) (w v : Q) :
  np_set2 a i' j' w = Ok a' -> np_get2 a i j = Ok v ->
  np_get2 a' i j = Ok v \/ np_get2 a i' j' = Ok v.
Proof.
  unfold np_set2. intros Hs Hg.
  destruct (py_norm_index (length a) i') as [ki' |] eqn:Ei'; simpl in *; [| discriminate].
  destruct (a !! ki') as [row' |] eqn:Er'; simpl in *; [| discriminate].
  destruct (py_norm_index (length row') j') as [kj' |] eqn:Ej'; simpl in *; [| discriminate].
  inversion Hs; subst; clear Hs.
  apply np_get2_inv in Hg as (ki & kj & row & Hi & Hr & Hj & Hv).
  destruct (decide (ki' = ki)) as [-> | Hne].
  - assert (row' = row) by congruence; subst row'.
    destruct (decide (kj' = kj)) as [-> | Hnej].
    + right. apply np_get2_inv. eauto 10.
    + left. apply np_get2_inv. exists ki, kj, (<[kj' := w]> row).
      rewrite !length_insert. repeat split; auto.
      * apply list_lookup_insert_eq. eapply py_norm_index_lt; eauto.
      * rewrite list_lookup_insert_ne; auto.
  - left. apply np_get2_inv. exists ki, kj, row.
    rewrite !length_insert. repeat split; auto.
    rewrite list_lookup_insert_ne; auto.
Qed.

(** ** Facts about methods: read-only methods and preserved properties *)

Lemma read_only_ret {S A : Type} (a : A) : read_only (@ret S A a).
Proof. intros s. reflexivity. Qed.

Lemma read_only_raise {S A : Type} (e : exn) : read_only (@raise S A e).
Proof. intros s. reflexivity. Qed.

Lemma read_only_gets {S A : Type} (f : S -> A) : read_only (gets f).
Proof. intros s. reflexivity. Qed.

Lemma read_only_lift {S A : Type} (r : result A) : read_only (@lift S A r).
Proof. intros s. reflexivity. Qed.

Lemma read_only_bind {S A B : Type} (m : M S A) (k : A -> M S B) :
  read_only m -> (forall a, read_only (k a)) -> read_only (bind m k).
Proof.
  intros Hm Hk s. unfold bind. specialize (Hm s).
  destruct (m s) as [[a | e] s']; simpl in *; subst; [apply Hk | reflexivity].
Qed.

Lemma preserves_read_only {S A : Type} (P : S -> Prop) (m : M S A) :
  read_only m -> preserves P m.
Proof. intros Hm s Hs. rewrite Hm. exact Hs. Qed.

Lemma preserves_bind {S A B : Type} (P : S -> Prop) (m : M S A) (k : A -> M S B) :
  preserves P m -> (forall a, preserves P (k a)) -> preserves P (bind m k).
Proof.
  intros Hm Hk s Hs. unfold bind. specialize (Hm s Hs).
  destruct (m s) as [[a | e] s']; simpl in *; [apply Hk |]; exact Hm.
Qed.

Lemma preserves_modify {S : Type} (P : S -> Prop) (f : S -> S) :
  (forall s, P s -> P (f s)) -> preserves P (modify f).
Proof. intros Hf s Hs. simpl. auto. Qed.

(** Reading through a read-only method: the state after is the state before. *)
Lemma read_only_run {S A : Type} (m : M S A) (s : S) :
  read_only m -> m s = (fst (m s), s).
Proof. intros Hm. specialize (Hm s). destruct (m s); simpl in *; congruence. Qed.

Lemma preserves_ret {S A : Type} (P : S -> Prop) (a : A) : preserves P (@ret S A a).
Proof. intros s Hs. exact Hs. Qed.

Lemma preserves_raise {S A : Type} (P : S -> Prop) (e : exn) :
  preserves P (@raise S A e).
Proof. intros s Hs. exact Hs. Qed.

Lemma preserves_gets {S A : Type} (P : S -> Prop) (f : S -> A) : preserves P (gets f).
Proof. intros s Hs. exact Hs. Qed.

Lemma preserves_lift {S A : Type} (P : S -> Prop) (r : result A) :
  preserves P (@lift S A r).
Proof. intros s Hs. exact Hs. Qed.

(** A bind that returns went through both of its halves. *)
Lemma bind_ok_inv {S A B : Type} (m : M S A) (k : A -> M S B) (s s' : S) (b : B) :
  bind m k s = (Ok b, s') ->
  exists a s1, m s = (Ok a, s1) /\ k a s1 = (Ok b, s').
Proof.
  unfold bind. destruct (m s) as [[a | e] s1]; [eauto | discriminate].
Qed.

Lemma preserves_run {S A : Type} (P : S -> Prop) (m : M S A) (s s' : S) (r : result A) :
  preserves P m -> m s = (r, s') -> P s -> P s'.
Proof. intros Hm Hrun Hs. specialize (Hm s Hs). rewrite Hrun in Hm. exact Hm. Qed.

(** A property established by the first half of a bind and kept by the
    second holds at the end. *)
Lemma preserves_after {S A B : Type} (P : S -> Prop) (m : M S A) (k : A -> M S B)
    (s : S) :
  P (snd (m s)) -> (forall a, preserves P (k a)) -> P (snd (bind m k s)).
Proof.
  intros Hm Hk. unfold bind.
  destruct (m s) as [[a | e] s1]; simpl in *; [apply Hk |]; exact Hm.
Qed.

(** One step of a proof that a method keeps a property: through binds,
    branches and the state-free primitives. *)
Ltac preserves_step :=
  first
    [ apply preserves_ret | apply preserves_raise | apply preserves_gets
    | apply preserves_lift
    | apply preserves_bind; [| intros ?]
    | match goal with
      | |- preserves _ (if ?b then _ else _) => destruct b
      | |- preserves _ (match ?t with _ => _ end) => destruct t
      end ].

(** ** The grid cache of [RoboThorEnvironment] *)

Module EnvFacts.
Section EnvironmentFacts.
Context {C : Type} `{Simulator C} `{MathLib}.

Import RoboThorEnvironment EnvObservations.

Ltac unfold_monad :=
  unfold bind, ret, raise, gets, modify, lift in *; simpl in *.

Lemma read_only_lookup_grid (scene : string) : read_only (lookup_grid (C := C) scene).
Proof. intros e. unfold lookup_grid. destruct (grids e !! scene); reflexivity. Qed.

Ltac read_only_step :=
  first
    [ apply read_only_ret | apply read_only_raise | apply read_only_gets
    | apply read_only_lift | apply read_only_lookup_grid
    | apply read_only_bind; [| intros ?]
    | match goal with
      | |- read_only (if ?b then _ else _) => destruct b
      | |- read_only (match ?t with _ => _ end) => destruct t
      end ].

Lemma read_only_quantized_agent_state (a b : Z) :
  read_only (quantized_agent_state (C := C) a b).
Proof.
  unfold quantized_agent_state, agent_state, scene_name.
  repeat read_only_step.
Qed.

Lemma read_only_lookup_cells (scene target : string) :
  read_only (lookup_cells (C := C) scene target).
Proof. unfold lookup_cells. repeat read_only_step. Qed.

Lemma sum_segments_nonneg (rest : list Position) (acc : Q) (prev : Position) :
  (0 <= acc)%Q -> (0 <= sum_segments acc prev rest)%Q.
Proof.
  revert acc prev. induction rest as [| c rest IH]; intros acc prev Hacc; simpl.
  - exact Hacc.
  - apply IH. unfold segment_length.
    pose proof (sqrt_nonneg ((pos_x c - pos_x prev) ^ 2 + (pos_z c - pos_z prev) ^ 2)%Q).
    lra.
Qed.

(** What [access_grid] writes on a miss is never taken for unknown. *)
Lemma stored_distance_filled (corners : list Position) :
  filled match path_corners_to_dist corners with
         | FInf => (-1)%Q
         | FFin d => d
         end.
Proof.
  unfold filled. apply Qltb_ge. destruct corners as [| c0 rest]; simpl.
  - lra.
  - pose proof (sum_segments_nonneg rest 0%Q c0). lra.
Qed.

Lemma path_corners_frame (t : string) (e : Env C) :
  grids (snd (path_corners t e)) = grids e /\
  config (snd (path_corners t e)) = config e.
Proof.
  unfold path_corners, agent_state, try_except_finally, shortest_path_query, step.
  unfold_monad.
  destruct (get_shortest_path_to_object_type _ _ _ _) as [r c'].
  destruct r as [p | []]; simpl; auto.
Qed.

Lemma path_corners_scene (t : string) (e : Env C) :
  scene_changes_only_on_reset ->
  last_scene_name (controller (snd (path_corners t e)))
  = last_scene_name (controller e).
Proof.
  intros [Hstep Hquery].
  unfold path_corners, agent_state, try_except_finally, shortest_path_query, step.
  unfold_monad.
  specialize (Hquery (controller e) t (position_of (last_agent (controller e)))
                (Some (pose_rotation (last_agent (controller e))))).
  destruct (get_shortest_path_to_object_type _ _ _ _) as [r c'].
  simpl in Hquery.
  destruct r as [p | []]; simpl; rewrite Hstep; auto.
Qed.

Lemma grid_value_inv (e : Env C) (scene target : string) (i j : Z) (v : Q) :
  grid_value e scene target i j = Some v ->
  exists g a, grids e !! scene = Some g /\ grid_cells g !! target = Some a /\
              np_get2 a i j = Ok v.
Proof.
  unfold grid_value. intros Hv.
  destruct (grids e !! scene) as [g |] eqn:Eg; [| discriminate].
  destruct (grid_cells g !! target) as [a |] eqn:Ea; [| discriminate].
  destruct (np_get2 a i j) as [w |] eqn:Hw; [| discriminate].
  inversion Hv; subst. exists g, a. auto.
Qed.

Lemma current_cell_inv (e : Env C) (p0 p1 : Z) :
  current_cell e = Some (p0, p1) ->
  exists r, quantized_agent_state 1 1 e = (Ok (p0, p1, r), e).
Proof.
  unfold current_cell. intros Hc.
  rewrite (read_only_run _ e (read_only_quantized_agent_state 1 1)).
  destruct (fst (quantized_agent_state 1 1 e)) as [[[q0 q1] r] |]; [| discriminate].
  inversion Hc; subst. eauto.
Qed.

(** A hit: the stored value is returned and nothing at all changes. *)
Lemma access_grid_hit (t : string) (e : Env C) (p0 p1 : Z) (v : Q) :
  current_cell e = Some (p0, p1) ->
  grid_value e (last_scene_name (controller e)) t p0 p1 = Some v ->
  filled v ->
  access_grid t e = (Ok v, e).
Proof.
  intros Hc Hv Hf.
  apply grid_value_inv in Hv as (g & a & Hg & Ha & Hget).
  apply current_cell_inv in Hc as [r Hq].
  unfold access_grid, scene_name, lookup_cells, lookup_grid.
  unfold_monad. rewrite Hg, Ha. simpl. rewrite Hq. simpl.
  rewrite Hg. simpl. rewrite Ha. simpl. rewrite Hget. simpl.
  unfold filled in Hf. rewrite Hf. rewrite Hg. simpl. rewrite Ha. simpl.
  rewrite Hget. reflexivity.
Qed.

Lemma grid_value_store (e : Env C) (scene : string) (g : Grid) (t' : string)
    (a' : array2) (s t : string) (i j : Z) :
  grid_value
    (set_grids (<[scene := set_cells (<[t' := a']> (grid_cells g)) g]> (grids e)) e)
    s t i j
  = if decide (s = scene) then
      if decide (t = t') then
        match np_get2 a' i j with Ok v => Some v | Raise _ => None end
      else
        match grid_cells g !! t with
        | Some a => match np_get2 a i j with Ok v => Some v | Raise _ => None end
        | None => None
        end
    else grid_value e s t i j.
Proof.
  unfold grid_value. simpl.
  destruct (decide (s = scene)) as [-> | Hs].
  - rewrite lookup_insert_eq. simpl.
    destruct (decide (t = t')) as [-> | Ht].
    + rewrite lookup_insert_eq. reflexivity.
    + rewrite lookup_insert_ne by congruence. reflexivity.
  - rewrite lookup_insert_ne by congruence. reflexivity.
Qed.

Lemma grid_value_ext (e e' : Env C) (s t : string) (i j : Z) :
  grids e' = grids e -> grid_value e' s t i j = grid_value e s t i j.
Proof. unfold grid_value. intros ->. reflexivity. Qed.

Lemma lookup_cells_inv (scene target : string) (e : Env C) (a : array2) :
  fst (lookup_cells scene target e) = Ok a ->
  exists g, grids e !! scene = Some g /\ grid_cells g !! target = Some a.
Proof.
  unfold lookup_cells, lookup_grid. unfold_monad.
  destruct (grids e !! scene) as [g |] eqn:Eg; simpl; [| discriminate].
  destruct (grid_cells g !! target) as [a0 |] eqn:Ea; simpl; [| discriminate].
  intros Ha. inversion Ha; subst. eauto.
Qed.

Lemma lookup_cells_run (scene target : string) (e : Env C) (g : Grid) (a : array2) :
  grids e !! scene = Some g -> grid_cells g !! target = Some a ->
  lookup_cells scene target e = (Ok a, e).
Proof.
  intros Hg Ha. unfold lookup_cells, lookup_grid. unfold_monad.
  rewrite Hg. simpl. rewrite Ha. reflexivity.
Qed.

(** The write of [access_grid]: it lands on the cell that was read. *)
Lemma store_cell_preserves (scene t' : string) (p0 p1 : Z) (d : Q) (e : Env C)
    (a0 : array2) (v0 : Q) (s t : string) (i j : Z) (v : Q) :
  fst (lookup_cells scene t' e) = Ok a0 ->
  np_get2 a0 p0 p1 = Ok v0 -> Qltb v0 (- (3 # 2))%Q = true ->
  grid_value e s t i j = Some v -> filled v ->
  grid_value (snd (store_cell scene t' p0 p1 d e)) s t i j = Some v.
Proof.
  intros Ha0 Hv0 Hlt Hv Hf.
  apply lookup_cells_inv in Ha0 as (g & Hg & Ha).
  unfold store_cell. unfold bind at 1. unfold lookup_grid at 1. rewrite Hg.
  unfold bind at 1. rewrite (lookup_cells_run _ _ _ _ _ Hg Ha).
  unfold_monad.
  destruct (np_set2 a0 p0 p1 d) as [a' |] eqn:Eset; simpl; [| exact Hv].
  rewrite grid_value_store.
  destruct (decide (s = scene)) as [-> | Hne]; [| exact Hv].
  apply grid_value_inv in Hv as (g' & a & Hg' & Ha' & Hget).
  assert (g' = g) by congruence; subst g'.
  destruct (decide (t = t')) as [-> | Hnet].
  - assert (a = a0) by congruence; subst a.
    destruct (np_set2_get2 _ _ _ _ _ _ _ _ Eset Hget) as [Hsame | Hold].
    + rewrite Hsame. reflexivity.
    + assert (v0 = v) by congruence; subst v0.
      unfold filled in Hf. congruence.
  - rewrite Ha', Hget. reflexivity.
Qed.

(** What a miss writes is what it returns. *)
Lemma store_cell_stores (scene t' : string) (p0 p1 : Z) (d : Q) (e e' : Env C) :
  store_cell scene t' p0 p1 d e = (Ok tt, e') ->
  grid_value e' scene t' p0 p1 = Some d /\ controller e' = controller e.
Proof.
  unfold store_cell. unfold bind at 1. unfold lookup_grid at 1.
  destruct (grids e !! scene) as [g |] eqn:Hg; [| discriminate].
  unfold bind at 1. rewrite (read_only_run _ e (read_only_lookup_cells scene t')).
  destruct (fst (lookup_cells scene t' e)) as [a0 |] eqn:Ha0; [| discriminate].
  unfold_monad.
  destruct (np_set2 a0 p0 p1 d) as [a' |] eqn:Eset; simpl; [| discriminate].
  intros Heq. inversion Heq; subst; clear Heq.
  rewrite grid_value_store. rewrite !decide_True by reflexivity.
  rewrite (np_set2_get2_same _ _ _ _ _ Eset). auto.
Qed.

(** No call of [access_grid] rewrites a filled cell. *)
Lemma access_grid_preserves (t' : string) (e : Env C) (s t : string) (i j : Z) (v : Q) :
  scene_changes_only_on_reset ->
  grid_value e s t i j = Some v -> filled v ->
  grid_value (snd (access_grid t' e)) s t i j = Some v.
Proof.
  intros Hsim Hv Hf.
  unfold access_grid, scene_name.
  unfold bind at 1. unfold gets at 1.
  unfold bind at 1. unfold lookup_grid at 1.
  destruct (grids e !! last_scene_name (controller e)) as [g |] eqn:Eg; [| exact Hv].
  match goal with
  | |- context [bind (quantized_agent_state 1 1) ?k] =>
      assert (Htail : forall e1, grid_value e1 s t i j = Some v ->
                grid_value (bind (quantized_agent_state 1 1) k e1).2 s t i j = Some v)
  end.
  { intros e1 Hv1.
    unfold bind at 1.
    rewrite (read_only_run _ e1 (read_only_quantized_agent_state 1 1)).
    destruct (fst (quantized_agent_state 1 1 e1)) as [[[p0 p1] r] |]; [| exact Hv1].
    unfold bind at 1. unfold gets at 1.
    unfold bind at 1.
    rewrite (read_only_run _ e1 (read_only_lookup_cells _ t')).
    destruct (fst (lookup_cells _ t' e1)) as [a0 |] eqn:Ea0; [| exact Hv1].
    unfold bind at 1. unfold lift at 1.
    destruct (np_get2 a0 p0 p1) as [v0 |] eqn:Ev0; [| exact Hv1].
    destruct (Qltb v0 (- (3 # 2))%Q) eqn:Elt.
    - unfold bind at 1.
      pose proof (path_corners_frame t' e1) as [Hgr _].
      pose proof (path_corners_scene t' e1 Hsim) as Hsc.
      destruct (path_corners t' e1) as [[corners | ex] e2]; simpl in Hgr, Hsc.
      + unfold bind at 1. unfold gets at 1. unfold bind at 1. rewrite Hsc.
        assert (Hv2 : grid_value e2 s t i j = Some v)
          by (rewrite (grid_value_ext e1 e2) by exact Hgr; exact Hv1).
        assert (Ha2 : fst (lookup_cells (last_scene_name (controller e1)) t' e2) = Ok a0).
        { apply lookup_cells_inv in Ea0 as (g1 & Hg1 & Ha1).
          rewrite (lookup_cells_run _ _ e2 g1 a0); auto. rewrite Hgr. exact Hg1. }
        pose proof (store_cell_preserves _ _ p0 p1
                      match path_corners_to_dist corners with
                      | FFin d => d
                      | FInf => (-1)%Q
                      end e2 a0 v0 s t i j v Ha2 Ev0 Elt Hv2 Hf) as Hst.
        destruct (store_cell _ t' p0 p1 _ e2) as [[[] | ex] e3]; exact Hst.
      + simpl. rewrite (grid_value_ext e1 e2) by exact Hgr. exact Hv1.
    - unfold bind at 1. unfold gets at 1. unfold bind at 1.
      rewrite (read_only_run _ e1 (read_only_lookup_cells _ t')).
      destruct (fst (lookup_cells _ t' e1)) as [a2 |]; [| exact Hv1].
      unfold lift. exact Hv1. }
  unfold bind at 1.
  destruct (grid_cells g !! t') as [a |] eqn:Et.
  - unfold ret at 1. apply Htail, Hv.
  - unfold bind at 1. unfold lift at 1.
    destruct (np_full _ _ _) as [a |]; [| exact Hv].
    unfold modify at 1.
    match goal with
    | |- grid_value (snd (_ ?e1)) _ _ _ _ = _ =>
        assert (Hv1 : grid_value e1 s t i j = Some v)
    end.
    { rewrite grid_value_store.
      destruct (decide (s = last_scene_name (controller e))) as [-> | Hne]; [| exact Hv].
      apply grid_value_inv in Hv as (g' & a' & Hg' & Ha' & Hget).
      assert (g' = g) by congruence; subst g'.
      destruct (decide (t = t')) as [-> | Hnet]; [congruence |].
      rewrite Ha', Hget. reflexivity. }
    apply Htail, Hv1.
Qed.

Lemma keeps_grids_run {A : Type} (m : M (Env C) A) (e : Env C) :
  keeps_grids m -> grids (snd (m e)) = grids e.
Proof. intros Hm. apply (Hm (grids e) e). reflexivity. Qed.

Lemma keeps_grids_step (a : SimAction) : keeps_grids (step a).
Proof. intros G e He. exact He. Qed.

Lemma keeps_grids_path_corners (t : string) : keeps_grids (path_corners t).
Proof. intros G e He. rewrite (proj1 (path_corners_frame t e)). exact He. Qed.

Lemma keeps_grids_reachable_points : keeps_grids currently_reachable_points.
Proof.
  intros G. unfold currently_reachable_points.
  apply preserves_bind; [apply keeps_grids_step | intros ?].
  apply preserves_read_only, read_only_gets.
Qed.

Lemma keeps_grids_visible_objects : keeps_grids visible_objects.
Proof.
  intros G. apply preserves_read_only. unfold visible_objects, all_objects.
  repeat read_only_step.
Qed.

Lemma read_only_initialize_grid_dimensions (pts : list Position) :
  read_only (initialize_grid_dimensions (C := C) pts).
Proof. unfold initialize_grid_dimensions. repeat read_only_step. Qed.

Lemma grid_value_new_scene (e : Env C) (scene : string) (g : Grid)
    (s t : string) (i j : Z) (v : Q) :
  grids e !! scene = None ->
  grid_value e s t i j = Some v ->
  grid_value (set_grids (<[scene := g]> (grids e)) e) s t i j = Some v.
Proof.
  intros Hnone Hv. unfold grid_value in *. simpl.
  destruct (decide (s = scene)) as [-> | Hne].
  - rewrite Hnone in Hv. discriminate.
  - rewrite lookup_insert_ne by congruence. exact Hv.
Qed.

(** [initialize_grid] only ever adds a scene that has no grid yet. *)
Lemma initialize_grid_preserves (s t : string) (i j : Z) (v : Q) :
  scene_changes_only_on_reset ->
  preserves (fun e => grid_value e s t i j = Some v) initialize_grid.
Proof.
  intros [Hstep _] e Hv.
  unfold initialize_grid, scene_name.
  unfold bind at 1. unfold gets at 1. unfold bind at 1. unfold gets at 1.
  destruct (grids e !! last_scene_name (controller e)) as [g |] eqn:Eg; [exact Hv |].
  unfold bind at 1.
  pose proof (keeps_grids_run _ e keeps_grids_reachable_points) as Hgr.
  assert (Hsc : last_scene_name (controller (snd (currently_reachable_points e)))
                = last_scene_name (controller e)).
  { unfold currently_reachable_points, step. unfold_monad. apply Hstep. }
  destruct (currently_reachable_points e) as [[pts | ex] e1]; simpl in Hgr, Hsc;
    [| simpl; rewrite (grid_value_ext e e1) by exact Hgr; exact Hv].
  unfold bind at 1.
  rewrite (read_only_run _ e1 (read_only_initialize_grid_dimensions pts)).
  assert (Hv1 : grid_value e1 s t i j = Some v)
    by (rewrite (grid_value_ext e e1) by exact Hgr; exact Hv).
  destruct (fst (initialize_grid_dimensions pts e1)) as [[[[xmin xmax] zmin] zmax] | ex];
    [| exact Hv1].
  unfold_monad. apply grid_value_new_scene; [| exact Hv1].
  rewrite Hsc, Hgr. exact Eg.
Qed.

Lemma reset_preserves (scene : option string) (s t : string) (i j : Z) (v : Q) :
  scene_changes_only_on_reset ->
  preserves (fun e => grid_value e s t i j = Some v) (reset scene).
Proof.
  intros Hsim. unfold reset, return_to_known_good_location.
  assert (Hro : forall A (m : M (Env C) A), keeps_grids m ->
            preserves (fun e => grid_value e s t i j = Some v) m).
  { intros A m Hm e Hv. rewrite (grid_value_ext e) by (apply keeps_grids_run, Hm).
    exact Hv. }
  assert (Hk : forall A (m : M (Env C) A), read_only m -> keeps_grids m).
  { intros A m Hm G. apply preserves_read_only, Hm. }
  assert (Hmod : forall f : Env C -> Env C, (forall e, grids (f e) = grids e) ->
            preserves (fun e => grid_value e s t i j = Some v) (modify f)).
  { intros f Hf. apply preserves_modify. intros e Hv.
    rewrite (grid_value_ext e) by apply Hf. exact Hv. }
  apply preserves_bind; [apply Hro, Hk, read_only_gets | intros current].
  apply preserves_bind; [| intros _; apply initialize_grid_preserves, Hsim].
  repeat first
    [ apply preserves_bind; [| intros ?]
    | apply Hmod; intros ?; reflexivity
    | match goal with
      | |- preserves _ (if ?b then _ else _) => destruct b
      | |- preserves _ (match ?t with _ => _ end) => destruct t
      end
    | solve [apply Hro, Hk; unfold last_action_success, agent_state; read_only_step]
    | apply Hro, keeps_grids_step ].
Qed.

Lemma run_op_preserves (o : EnvOp) (e : Env C) (s t : string) (i j : Z) (v : Q) :
  scene_changes_only_on_reset ->
  grid_value e s t i j = Some v -> filled v ->
  grid_value (run_op o e) s t i j = Some v.
Proof.
  intros Hsim Hv Hf. destruct o; cbn [run_op].
  - exact Hv.
  - apply reset_preserves; assumption.
  - apply initialize_grid_preserves; assumption.
  - apply access_grid_preserves; assumption.
  - apply access_grid_preserves; assumption.
  - unfold object_reachable.
    apply (preserves_bind (fun e => grid_value e s t i j = Some v));
      [| intros d; apply preserves_read_only, read_only_ret | exact Hv].
    intros e' Hv'. apply access_grid_preserves; assumption.
  - rewrite (grid_value_ext e) by apply keeps_grids_run, keeps_grids_path_corners.
    exact Hv.
  - rewrite (grid_value_ext e) by apply keeps_grids_run, keeps_grids_reachable_points.
    exact Hv.
  - rewrite (grid_value_ext e) by apply keeps_grids_run, keeps_grids_visible_objects.
    exact Hv.
Qed.

Lemma run_ops_preserves (ops : list EnvOp) (e : Env C) (s t : string) (i j : Z) (v : Q) :
  scene_changes_only_on_reset ->
  grid_value e s t i j = Some v -> filled v ->
  grid_value (run_ops ops e) s t i j = Some v.
Proof.
  intros Hsim. revert e. induction ops as [| o ops IH]; intros e Hv Hf; simpl.
  - exact Hv.
  - apply IH; [| exact Hf]. apply run_op_preserves; assumption.
Qed.

(** Quantization reads the pose, the configuration and the bounding box
    of the current scene, nothing else. *)
Lemma quantized_agent_state_depends (a b : Z) (e e' : Env C) :
  controller e' = controller e -> config e' = config e ->
  grid_bounds <$> (grids e' !! last_scene_name (controller e))
  = grid_bounds <$> (grids e !! last_scene_name (controller e)) ->
  fst (quantized_agent_state a b e') = fst (quantized_agent_state a b e).
Proof.
  destruct e as [c cfg kgl gr calls], e' as [c' cfg' kgl' gr' calls'].
  simpl. intros -> -> Hb.
  unfold quantized_agent_state, agent_state, scene_name, lookup_grid.
  unfold_monad.
  destruct (gr' !! last_scene_name c) as [g' |];
    destruct (gr !! last_scene_name c) as [g |];
    simpl in Hb; try discriminate; [| reflexivity].
  unfold grid_bounds in Hb. inversion Hb as [[Hx0 Hx1 Hz0 Hz1]].
  simpl. rewrite Hx0, Hx1, Hz0, Hz1.
  repeat (match goal with
          | |- context [match ?t with _ => _ end] => destruct t eqn:?
          | |- context [if ?t then _ else _] => destruct t eqn:?
          end; simpl; try reflexivity).
Qed.

Lemma current_cell_depends (e e' : Env C) :
  controller e' = controller e -> config e' = config e ->
  grid_bounds <$> (grids e' !! last_scene_name (controller e))
  = grid_bounds <$> (grids e !! last_scene_name (controller e)) ->
  current_cell e' = current_cell e.
Proof.
  intros Hc Hcfg Hb. unfold current_cell.
  rewrite (quantized_agent_state_depends 1 1 e e' Hc Hcfg Hb). reflexivity.
Qed.

(** Whatever [access_grid] returns is, afterwards, the value of the
    agent's cell, and that cell counts as filled. *)
Lemma access_grid_result (t : string) (e e1 : Env C) (d : Q) :
  scene_changes_only_on_reset ->
  access_grid t e = (Ok d, e1) ->
  exists p0 p1,
    current_cell e = Some (p0, p1) /\
    grid_value e1 (last_scene_name (controller e)) t p0 p1 = Some d /\
    filled d.
Proof.
  intros Hsim.
  unfold access_grid, scene_name.
  unfold bind at 1. unfold gets at 1.
  unfold bind at 1. unfold lookup_grid at 1.
  destruct (grids e !! last_scene_name (controller e)) as [g |] eqn:Eg; [| discriminate].
  match goal with
  | |- context [bind (quantized_agent_state 1 1) ?k] =>
      assert (Htail : forall e0 e', bind (quantized_agent_state 1 1) k e0 = (Ok d, e') ->
                exists p0 p1, current_cell e0 = Some (p0, p1) /\
                  grid_value e' (last_scene_name (controller e0)) t p0 p1 = Some d /\
                  filled d)
  end.
  { intros e0 e'.
    unfold bind at 1. unfold current_cell.
    rewrite (read_only_run _ e0 (read_only_quantized_agent_state 1 1)).
    destruct (fst (quantized_agent_state 1 1 e0)) as [[[p0 p1] r] |]; [| discriminate].
    unfold bind at 1. unfold gets at 1.
    unfold bind at 1.
    rewrite (read_only_run _ e0 (read_only_lookup_cells _ t)).
    destruct (fst (lookup_cells _ t e0)) as [a0 |] eqn:Ea0; [| discriminate].
    unfold bind at 1. unfold lift at 1.
    destruct (np_get2 a0 p0 p1) as [v0 |] eqn:Ev0; [| discriminate].
    destruct (Qltb v0 (- (3 # 2))%Q) eqn:Elt.
    - unfold bind at 1.
      pose proof (path_corners_scene t e0 Hsim) as Hsc.
      destruct (path_corners t e0) as [[corners | ex] e2]; simpl in Hsc; [| discriminate].
      unfold bind at 1. unfold gets at 1. unfold bind at 1. rewrite Hsc.
      destruct (store_cell _ t p0 p1 _ e2) as [[[] | ex] e3] eqn:Est; [| discriminate].
      unfold ret. intros Heq. inversion Heq; subst; clear Heq.
      apply store_cell_stores in Est as [Hst _].
      exists p0, p1. split; [reflexivity |]. split; [exact Hst |].
      apply stored_distance_filled.
    - unfold bind at 1. unfold gets at 1. unfold bind at 1.
      rewrite (read_only_run _ e0 (read_only_lookup_cells _ t)). rewrite Ea0.
      unfold lift. rewrite Ev0. intros Heq. inversion Heq; subst; clear Heq.
      exists p0, p1. split; [reflexivity |]. split; [| exact Elt].
      apply lookup_cells_inv in Ea0 as (g0 & Hg0 & Ha0).
      unfold grid_value. rewrite Hg0, Ha0, Ev0. reflexivity. }
  unfold bind at 1.
  destruct (grid_cells g !! t) as [a |] eqn:Et.
  - unfold ret at 1. apply Htail.
  - unfold bind at 1. unfold lift at 1.
    destruct (np_full _ _ _) as [a |]; [| discriminate].
    unfold modify at 1. intros Hrun.
    apply Htail in Hrun as (p0 & p1 & Hc & Hv & Hf). simpl in Hv.
    exists p0, p1. split; [| split; assumption].
    rewrite <- Hc. symmetry. apply current_cell_depends; try reflexivity.
    simpl. rewrite lookup_insert_eq, Eg. reflexivity.
Qed.

(** *** The record of simulator calls only grows *)

Lemma calls_extend_record (l : list SimCall) (c : SimCall) (e : Env C) :
  calls_extend l e -> calls_extend l (record_call c e).
Proof.
  intros [rest Hr]. exists (rest ++ [c]). simpl. rewrite Hr, app_assoc. reflexivity.
Qed.

Lemma preserves_calls_step (l : list SimCall) (a : SimAction) :
  preserves (calls_extend l) (step a).
Proof.
  intros e He. unfold step, modify. simpl.
  apply (calls_extend_record l (CallStep a) (set_controller _ e)). exact He.
Qed.

(** The two controller calls of [path_corners]: the query, then the
    teleport back, whatever the query did. *)
Lemma path_corners_calls (t : string) (e : Env C) :
  sim_calls (snd (path_corners t e))
  = sim_calls e ++ [CallShortestPath t (position_of (last_agent (controller e)))
                      (Some (pose_rotation (last_agent (controller e))));
                    CallStep (TeleportFull (last_agent (controller e)))].
Proof.
  unfold path_corners, agent_state, try_except_finally, shortest_path_query, step.
  unfold_monad.
  destruct (get_shortest_path_to_object_type _ _ _ _) as [r c'].
  destruct r as [p | []]; simpl; rewrite <- app_assoc; reflexivity.
Qed.

Lemma preserves_calls_path_corners (l : list SimCall) (t : string) :
  preserves (calls_extend l) (path_corners t).
Proof.
  intros e [rest Hr]. unfold calls_extend.
  rewrite path_corners_calls, Hr, <- app_assoc. eauto.
Qed.

Lemma preserves_calls_access_grid (l : list SimCall) (t : string) :
  preserves (calls_extend l) (access_grid t).
Proof.
  unfold access_grid, store_cell, scene_name.
  repeat first
    [ apply preserves_calls_path_corners
    | apply preserves_read_only;
        first [ apply read_only_lookup_grid | apply read_only_lookup_cells
              | apply read_only_quantized_agent_state ]
    | apply preserves_modify; intros ? Hx; exact Hx
    | preserves_step ].
Qed.

Lemma preserves_calls_visible_objects (l : list SimCall) :
  preserves (calls_extend l) visible_objects.
Proof.
  apply preserves_read_only. unfold visible_objects, all_objects.
  repeat read_only_step.
Qed.

(** C1. Memoization of the grid cache: once [access_grid] has returned
    (hence stored) a distance [d] for the agent's quantized cell in a
    scene and for a target, then after any further sequence [ops] of
    environment operations (a) that cell still holds [d], it is never
    rewritten, and (b) a call of [access_grid] for the same target made
    in the same scene from any pose that quantizes to the same cell
    returns [d] and leaves the whole environment as it was: no call
    reaches the simulator, so no shortest-path query is issued, and the
    grids are untouched. The simulator is assumed to change scene only
    on [reset]. *)
Theorem access_grid_memoized (target : string) (e0 e1 : Env C) (d : Q)
    (ops : list EnvOp) :
  scene_changes_only_on_reset ->
  access_grid target e0 = (Ok d, e1) ->
  exists cell,
    current_cell e0 = Some cell /\
    d <> (-2)%Q /\
    grid_value (run_ops ops e1) (last_scene_name (controller e0)) target
      (fst cell) (snd cell) = Some d /\
    (last_scene_name (controller (run_ops ops e1)) = last_scene_name (controller e0) ->
     current_cell (run_ops ops e1) = Some cell ->
     access_grid target (run_ops ops e1) = (Ok d, run_ops ops e1) /\
     path_queries (snd (access_grid target (run_ops ops e1)))
     = path_queries (run_ops ops e1)).
Proof.
  intros Hsim Hrun.
  destruct (access_grid_result target e0 e1 d Hsim Hrun) as (p0 & p1 & Hc & Hv & Hf).
  exists (p0, p1). simpl.
  assert (Hkeep : grid_value (run_ops ops e1) (last_scene_name (controller e0))
                    target p0 p1 = Some d)
    by (apply run_ops_preserves; assumption).
  split; [exact Hc |].
  split; [intros ->; unfold filled in Hf; vm_compute in Hf; discriminate |].
  split; [exact Hkeep |].
  intros Hscene Hcell.
  assert (Hhit : access_grid target (run_ops ops e1) = (Ok d, run_ops ops e1)).
  { apply access_grid_hit with (p0 := p0) (p1 := p1); auto.
    rewrite Hscene. exact Hkeep. }
  split; [exact Hhit | rewrite Hhit; reflexivity].
Qed.

(** C2. [path_corners] returns the empty sequence when the
    shortest-path query raises [ValueError] (no path) and the path the
    query found otherwise; in every case, also when the query raises
    something else, the last thing it does is teleport the agent to the
    pose read before the query, so that, with a simulator whose
    [TeleportFull] reaches the requested pose, the pose after the call is
    the pose before it. *)
Theorem path_corners_restores_pose (object_type : string) (e : Env C) :
  teleport_reaches_pose ->
  let pose := last_agent (controller e) in
  let query :=
    get_shortest_path_to_object_type (controller e) object_type
      (position_of pose) (Some (pose_rotation pose)) in
  (fst query = Raise ValueError -> fst (path_corners object_type e) = Ok []) /\
  (forall path, fst query = Ok path -> fst (path_corners object_type e) = Ok path) /\
  sim_calls (snd (path_corners object_type e))
  = sim_calls e ++ [CallShortestPath object_type (position_of pose)
                      (Some (pose_rotation pose));
                    CallStep (TeleportFull pose)] /\
  fst (agent_state (snd (path_corners object_type e))) = Ok pose.
Proof.
  intros Htel pose query. subst pose query.
  unfold path_corners, agent_state, try_except_finally, shortest_path_query, step.
  unfold_monad.
  destruct (get_shortest_path_to_object_type _ _ _ _) as [r c'].
  destruct r as [p | ex]; simpl.
  - repeat split; auto; try discriminate.
    + rewrite <- app_assoc. reflexivity.
    + rewrite Htel. reflexivity.
  - destruct ex; simpl; (repeat split; auto; try discriminate;
      [rewrite <- app_assoc; reflexivity | rewrite Htel; reflexivity]).
Qed.

End EnvironmentFacts.

Lemma fake_scene_changes_only_on_reset :
  EnvObservations.scene_changes_only_on_reset (C := Fake.Controller).
Proof.
  split.
  - intros a c. destruct a as [p | | []]; reflexivity.
  - intros c t p r. simpl. unfold Fake.do_shortest_path.
    destruct (String.eqb t "Television"); reflexivity.
Qed.

Lemma fake_teleport_reaches_pose :
  EnvObservations.teleport_reaches_pose (C := Fake.Controller).
Proof. intros pose c. reflexivity. Qed.

Lemma access_grid_memoized_witness :
  exists cell,
    EnvObservations.current_cell Fake.env1 = Some cell /\
    (3000000 # 1000000)%Q <> (-2)%Q /\
    EnvObservations.grid_value
      (EnvObservations.run_ops
         [EnvObservations.OpStep (NamedAction ROTATE_LEFT);
          EnvObservations.OpAccessGrid "Apple"]
         (snd (RoboThorEnvironment.access_grid "Television" Fake.env1)))
      (last_scene_name (controller Fake.env1)) "Television"
      (fst cell) (snd cell) = Some (3000000 # 1000000)%Q /\
    (last_scene_name
       (controller
          (EnvObservations.run_ops
             [EnvObservations.OpStep (NamedAction ROTATE_LEFT);
              EnvObservations.OpAccessGrid "Apple"]
             (snd (RoboThorEnvironment.access_grid "Television" Fake.env1))))
     = last_scene_name (controller Fake.env1) ->
     EnvObservations.current_cell
       (EnvObservations.run_ops
          [EnvObservations.OpStep (NamedAction ROTATE_LEFT);
           EnvObservations.OpAccessGrid "Apple"]
          (snd (RoboThorEnvironment.access_grid "Television" Fake.env1)))
     = Some cell ->
     RoboThorEnvironment.access_grid "Television"
       (EnvObservations.run_ops
          [EnvObservations.OpStep (NamedAction ROTATE_LEFT);
           EnvObservations.OpAccessGrid "Apple"]
          (snd (RoboThorEnvironment.access_grid "Television" Fake.env1)))
     = (Ok (3000000 # 1000000)%Q,
        EnvObservations.run_ops
          [EnvObservations.OpStep (NamedAction ROTATE_LEFT);
           EnvObservations.OpAccessGrid "Apple"]
          (snd (RoboThorEnvironment.access_grid "Television" Fake.env1))) /\
     EnvObservations.path_queries
       (snd (RoboThorEnvironment.access_grid "Television"
          (EnvObservations.run_ops
             [EnvObservations.OpStep (NamedAction ROTATE_LEFT);
              EnvObservations.OpAccessGrid "Apple"]
             (snd (RoboThorEnvironment.access_grid "Television" Fake.env1)))))
     = EnvObservations.path_queries
         (EnvObservations.run_ops
            [EnvObservations.OpStep (NamedAction ROTATE_LEFT);
             EnvObservations.OpAccessGrid "Apple"]
            (snd (RoboThorEnvironment.access_grid "Television" Fake.env1)))).
Proof.
  apply (access_grid_memoized "Television" Fake.env1
           (snd (RoboThorEnvironment.access_grid "Television" Fake.env1))
           (3000000 # 1000000)%Q
           [EnvObservations.OpStep (NamedAction ROTATE_LEFT);
            EnvObservations.OpAccessGrid "Apple"]).
  - exact fake_scene_changes_only_on_reset.
  - vm_compute. reflexivity.
Defined.

Lemma path_corners_restores_pose_witness :
  fst (RoboThorEnvironment.agent_state
         (snd (RoboThorEnvironment.path_corners "Apple" Fake.env1)))
  = Ok (last_agent (controller Fake.env1)).
Proof.
  apply (path_corners_restores_pose "Apple" Fake.env1).
  exact fake_teleport_reaches_pose.
Defined.

End EnvFacts.

(** ** [PointNavTask] *)

Module PointNavFacts.
Section TaskFacts.
Context {C : Type} `{Simulator C} `{MathLib} `{PointDistance C}.
Context {Cache : Type} `{CacheUtils Cache}.

Import PointNavTask.

Ltac unfold_monad :=
  unfold bind, ret, raise, gets, modify, lift in *; simpl in *.

Lemma point_set_env_same (t : state (C := C) (Cache := Cache)) : set_env (env t) t = t.
Proof. destruct t; reflexivity. Qed.

(** Before the episode is over, [metrics()] is [{}] and changes nothing. *)
Lemma point_metrics_not_done (t : state (C := C) (Cache := Cache)) :
  is_done t = false -> metrics t = (Ok None, t).
Proof.
  intros Hd. unfold metrics. unfold_monad. rewrite Hd. reflexivity.
Qed.

(** C10. A PointNavTask without a distance cache in use: once the
    episode is over and the success flag is not [None], [metrics()]
    raises [NotImplementedError], having summed the rewards and emptied
    the reward list; and in no state at all does [metrics()] return a
    populated mapping. *)
Theorem metrics_without_cache (t : state (C := C) (Cache := Cache)) :
  cache_in_use (distance_cache t) = None ->
  (is_done t = true -> _success t <> None ->
   metrics t = (Raise NotImplementedError, set_rewards [] t)) /\
  (forall m, fst (metrics t) <> Ok (Some m)).
Proof.
  intros Hc. split.
  - intros Hd Hs. unfold metrics. unfold_monad. rewrite Hd. simpl.
    destruct (_success t) as [b |]; [| congruence].
    unfold set_rewards. simpl. rewrite Hc. reflexivity.
  - intros m. unfold metrics. unfold_monad.
    destruct (is_done t); simpl; [| discriminate].
    destruct (_success t) as [b |]; [| discriminate].
    unfold set_rewards. simpl. rewrite Hc. discriminate.
Qed.

(** *** What a step leaves alone *)

Lemma point_preserves_on_env {A : Type} (P : state (C := C) (Cache := Cache) -> Prop)
    (m : M (Env C) A) :
  (forall e t, P t -> P (set_env e t)) -> preserves P (on_env m).
Proof.
  intros HP t Ht. unfold on_env. destruct (m (env t)) as [r e']. simpl. auto.
Qed.

Ltac point_preserves :=
  repeat first
    [ preserves_step
    | apply point_preserves_on_env; solve [auto]
    | apply preserves_modify; solve [auto] ].

Lemma preserves_current_distance (P : state -> Prop) :
  bookkeeping_free P -> preserves P current_distance.
Proof.
  intros (Henv & Hgeo & Hwarn). unfold current_distance, dist_to_target.
  point_preserves.
Qed.

Lemma preserves_shaping (P : state -> Prop) :
  bookkeeping_free P -> preserves P shaping.
Proof.
  intros HP. pose proof HP as (Henv & Hgeo & Hwarn). unfold shaping.
  apply preserves_bind; [apply preserves_gets | intros weight].
  destruct (Qeq_bool weight 0); [apply preserves_ret |].
  apply preserves_bind; [apply preserves_current_distance, HP | intros measured].
  point_preserves.
Qed.

Lemma preserves_is_goal_in_range (P : state -> Prop) :
  bookkeeping_free P -> preserves P _is_goal_in_range.
Proof.
  intros HP. pose proof HP as (Henv & Hgeo & Hwarn).
  unfold _is_goal_in_range, warn_no_path.
  apply preserves_bind; [apply preserves_gets | intros tget].
  apply preserves_bind; [apply preserves_current_distance, HP | intros dist].
  point_preserves.
Qed.

(** [judge] appends the reward it returns to [_rewards]. *)
Lemma judge_records (t t' : state (C := C) (Cache := Cache)) (r : Q) :
  judge t = (Ok r, t') -> _rewards t' = _rewards t ++ [r].
Proof.
  unfold judge. intros Hj.
  apply bind_ok_inv in Hj as (base & t1 & Hbase & Hj).
  unfold gets in Hbase. inversion Hbase; subst t1; clear Hbase.
  apply bind_ok_inv in Hj as (shaped & t1 & Hshape & Hj).
  assert (Hr : _rewards t1 = _rewards t).
  { apply (preserves_run (fun s => _rewards s = _rewards t) shaping t t1 (Ok shaped));
      auto.
    apply preserves_shaping. repeat split; intros; assumption. }
  unfold_monad. inversion Hj; subst; clear Hj. simpl. rewrite Hr. reflexivity.
Qed.

Lemma _step_records (a : Z) (t t' : state (C := C) (Cache := Cache))
    (sr : RLStepResult) :
  _step a t = (Ok sr, t') -> _rewards t' = _rewards t ++ [reward sr].
Proof.
  unfold _step. intros Hs.
  pose (P := fun s : state (C := C) (Cache := Cache) => _rewards s = _rewards t).
  assert (HP : bookkeeping_free P) by (repeat split; intros; assumption).
  apply bind_ok_inv in Hs as (act & t0 & Hact & Hs).
  unfold lift in Hact. inversion Hact; subst t0; clear Hact.
  apply bind_ok_inv in Hs as (u & t1 & Hpre & Hs).
  assert (Hp1 : P t1).
  { eapply preserves_run; [| exact Hpre | reflexivity].
    destruct (Action_eqb act END).
    - apply preserves_bind; [apply preserves_modify; auto | intros _].
      apply preserves_bind; [apply preserves_is_goal_in_range, HP | intros r].
      destruct HP as (Henv & Hgeo & Hwarn). point_preserves.
    - destruct HP as (Henv & Hgeo & Hwarn). point_preserves. }
  apply bind_ok_inv in Hs as (moved & t2 & Hmoved & Hs).
  unfold gets in Hmoved. inversion Hmoved; subst; clear Hmoved.
  apply bind_ok_inv in Hs as (u' & t3 & Hmove & Hs).
  assert (Hp3 : P t3).
  { eapply preserves_run; [| exact Hmove | exact Hp1].
    destruct (last_two_differ (path t2)); [apply preserves_modify; auto |].
    apply preserves_ret. }
  apply bind_ok_inv in Hs as (obs & t4 & Hobs & Hs).
  unfold get_observations, gets in Hobs. inversion Hobs; subst; clear Hobs.
  apply bind_ok_inv in Hs as (rew & t5 & Hj & Hs).
  apply judge_records in Hj.
  unfold_monad. inversion Hs; subst; clear Hs. simpl.
  rewrite Hj. unfold P in Hp3. rewrite Hp3. reflexivity.
Qed.

Lemma step_records (a : Z) (t t' : state (C := C) (Cache := Cache))
    (sr : RLStepResult) :
  step a t = (Ok sr, t') -> _rewards t' = _rewards t ++ [reward sr].
Proof.
  unfold step. intros Hs.
  apply bind_ok_inv in Hs as (sr' & t1 & Hstep & Hs).
  apply _step_records in Hstep.
  unfold_monad. inversion Hs; subst; clear Hs. exact Hstep.
Qed.

(** Over an episode, [_rewards] collects the reward of every step. *)
Lemma run_episode_records (actions : list Z) (t t' : state (C := C) (Cache := Cache))
    (srs : list RLStepResult) :
  run_episode actions t = (Ok srs, t') ->
  _rewards t' = _rewards t ++ (reward <$> srs).
Proof.
  revert t srs. induction actions as [| a rest IH]; intros t srs Hrun.
  - simpl in Hrun. unfold ret in Hrun. inversion Hrun; subst.
    simpl. rewrite app_nil_r. reflexivity.
  - simpl in Hrun.
    apply bind_ok_inv in Hrun as (sr & t1 & Hstep & Hrun).
    apply bind_ok_inv in Hrun as (rest_srs & t2 & Hrest & Hrun).
    unfold ret in Hrun. inversion Hrun; subst; clear Hrun.
    apply step_records in Hstep. apply IH in Hrest.
    rewrite Hrest, Hstep, <- app_assoc. reflexivity.
Qed.

(** When [metrics()] returns a populated mapping, its total is the sum
    of the recorded rewards. *)
Lemma metrics_total (t t' : state (C := C) (Cache := Cache)) (m : Metrics TaskInfo) :
  metrics t = (Ok (Some m), t') -> m_total_reward m = np_sum (_rewards t).
Proof.
  unfold metrics. intros Hm.
  apply bind_ok_inv in Hm as (finished & t0 & Hfin & Hm).
  unfold gets in Hfin. inversion Hfin; subst; clear Hfin.
  destruct (negb (is_done t0)); [unfold ret in Hm; discriminate |].
  apply bind_ok_inv in Hm as (total & t1 & Htot & Hm).
  unfold gets in Htot. inversion Htot; subst; clear Htot.
  apply bind_ok_inv in Hm as (u & t2 & Hclear & Hm).
  apply bind_ok_inv in Hm as (succ & t3 & Hsucc & Hm).
  destruct succ as [b |]; [| unfold ret in Hm; discriminate].
  apply bind_ok_inv in Hm as (cache & t4 & Hcache & Hm).
  destruct cache as [c |]; [| unfold raise in Hm; discriminate].
  apply bind_ok_inv in Hm as (pose & t5 & Hpose & Hm).
  apply bind_ok_inv in Hm as (tget & t6 & Htget & Hm).
  destruct (get_distance c pose tget); [unfold ret in Hm; discriminate |].
  apply bind_ok_inv in Hm as (sp & t7 & Hspl & Hm).
  destruct sp; [unfold ret in Hm; discriminate |].
  unfold_monad. inversion Hm; subst. reflexivity.
Qed.

Lemma init_fresh (sensors : Env C -> observations) (info : TaskInfo) (steps : Z)
    (rewards : RewardConfigs) (cache : option Cache)
    (episode_info : option EpisodeInfo) (e e' : Env C)
    (t : state (C := C) (Cache := Cache)) :
  __init__ sensors info steps rewards cache episode_info e = (Ok t, e') ->
  _rewards t = [] /\ path t = [] /\ num_moves_made t = 0 /\
  _took_end_action t = false /\ _num_steps_taken t = 0.
Proof.
  unfold __init__. intros Hi.
  match type of Hi with
  | (match ?b ?t0 with _ => _ end) = _ => destruct (b t0) as [[u | ex] t1] eqn:Hb
  end; [| discriminate].
  inversion Hi; subst; clear Hi.
  apply bind_ok_inv in Hb as (cd & s1 & _ & Hb).
  apply bind_ok_inv in Hb as (u1 & s2 & _ & Hb).
  apply bind_ok_inv in Hb as (last & s3 & _ & Hb).
  unfold modify in Hb. inversion Hb; subst. simpl. auto.
Qed.

Lemma preserves_judge (P : state (C := C) (Cache := Cache) -> Prop) :
  bookkeeping_free P -> (forall r t, P t -> P (set_rewards r t)) ->
  preserves P judge.
Proof.
  intros HP Hrew. unfold judge.
  apply preserves_bind; [apply preserves_gets | intros base].
  apply preserves_bind; [apply preserves_shaping, HP | intros shaped].
  point_preserves.
Qed.

Lemma preserves_judge_path (X : list Position) (N : Z) :
  preserves (fun s : state (C := C) (Cache := Cache) =>
               path s = X /\ num_moves_made s = N) judge.
Proof.
  apply preserves_judge.
  - unfold bookkeeping_free. split; [| split]; intros ? ? [? ?]; split; assumption.
  - intros ? ? [? ?]; split; assumption.
Qed.

Lemma last_two_differ_snoc (l : list Position) (p : Position) :
  last_two_differ (l ++ [p])
  = match last l with
    | Some q => negb (position_eqb p q)
    | None => false
    end.
Proof.
  unfold last_two_differ. rewrite rev_app_distr. simpl.
  destruct l as [| q0 l'] using rev_ind; [reflexivity |].
  rewrite rev_app_distr, last_snoc. reflexivity.
Qed.

(** C9, as the code has it. For every action other than [END],
    [PointNavTask._step] appends the new agent position to [path]
    whether or not it differs from the previously recorded one, and
    [num_moves_made] goes up by one exactly when the path then has more
    than one entry and the new position differs from the previous one;
    so a position equal to the previously recorded one is appended but
    does not count as a move. This holds also when the rest of the step
    raises. *)
Theorem step_appends_position (a : Z) (act : Action)
    (t : state (C := C) (Cache := Cache)) :
  py_index _actions a = Ok act -> act <> END ->
  let p := position_of
             (last_agent (controller_step (NamedAction act) (controller (env t)))) in
  path (snd (_step a t)) = path t ++ [p] /\
  num_moves_made (snd (_step a t))
  = num_moves_made t + (if last_two_differ (path t ++ [p]) then 1 else 0) /\
  (forall q, last (path t) = Some q -> position_eqb p q = true ->
     num_moves_made (snd (_step a t)) = num_moves_made t).
Proof.
  intros Hact Hne p.
  assert (Hend : Action_eqb act END = false) by (destruct act; auto; congruence).
  pose (Q := fun (n : Z) (s : state (C := C) (Cache := Cache)) =>
               path s = path t ++ [p] /\ num_moves_made s = num_moves_made t + n).
  assert (Hmain : Q (if last_two_differ (path t ++ [p]) then 1 else 0)
                    (snd (_step a t))).
  { unfold _step. unfold bind at 1. unfold lift at 1. rewrite Hact.
    unfold bind at 1. rewrite Hend.
    unfold on_env, RoboThorEnvironment.step, RoboThorEnvironment.last_action_success,
      RoboThorEnvironment.agent_state, get_observations.
    unfold_monad. fold p.
    destruct (last_two_differ (path t ++ [p])); simpl.
    - match goal with
      | |- context [judge ?s] =>
          pose proof (preserves_judge_path (path t ++ [p]) (num_moves_made t + 1) s
                        ltac:(split; reflexivity)) as Hj;
          destruct (judge s) as [[r | ex] s5]
      end; simpl in *; exact Hj.
    - match goal with
      | |- context [judge ?s] =>
          pose proof (preserves_judge_path (path t ++ [p]) (num_moves_made t + 0) s
                        ltac:(split; [reflexivity | simpl; lia])) as Hj;
          destruct (judge s) as [[r | ex] s5]
      end; simpl in *; exact Hj. }
  destruct Hmain as [Hpath Hmoves]. split; [exact Hpath |]. split; [exact Hmoves |].
  intros q Hlast Heq. rewrite Hmoves, last_two_differ_snoc, Hlast, Heq. simpl. lia.
Qed.

(** *** The goal-range check at [END] *)

Lemma point_on_env_agent_state (t : state (C := C) (Cache := Cache)) :
  on_env RoboThorEnvironment.agent_state t
  = (Ok (last_agent (controller (env t))), t).
Proof.
  unfold on_env, RoboThorEnvironment.agent_state, gets.
  rewrite point_set_env_same. reflexivity.
Qed.

Lemma point_on_env_scene_name (t : state (C := C) (Cache := Cache)) :
  on_env RoboThorEnvironment.scene_name t
  = (Ok (last_scene_name (controller (env t))), t).
Proof.
  unfold on_env, RoboThorEnvironment.scene_name, gets.
  rewrite point_set_env_same. reflexivity.
Qed.

Lemma current_distance_cached (t : state (C := C) (Cache := Cache)) (c : Cache) :
  cache_in_use (distance_cache t) = Some c ->
  current_distance t
  = (Ok (get_distance c (last_agent (controller (env t))) (target (task_info t))), t).
Proof.
  intros Hc. unfold current_distance.
  unfold bind at 1. unfold gets at 1. rewrite Hc.
  unfold bind at 1. rewrite point_on_env_agent_state. reflexivity.
Qed.

Lemma current_distance_live (t : state (C := C) (Cache := Cache)) (res : Q)
    (e' : Env C) :
  cache_in_use (distance_cache t) = None ->
  dist_to_point (target (task_info t)) (env t) = (Ok res, e') ->
  current_distance t
  = (Ok (if Qltb (- (1 # 2)) res then VFloat res else VNone), set_env e' t).
Proof.
  intros Hc Hd. unfold current_distance.
  unfold bind at 1. unfold gets at 1. rewrite Hc.
  unfold dist_to_target, on_env. unfold_monad. rewrite Hd. reflexivity.
Qed.

(** With the distance cache: in range, out of range, or unknown with a
    warning and [None]. *)
Lemma is_goal_in_range_cached (t : state (C := C) (Cache := Cache)) (c : Cache) (d : Q) :
  cache_in_use (distance_cache t) = Some c ->
  get_distance c (last_agent (controller (env t))) (target (task_info t)) = VFloat d ->
  _is_goal_in_range t
  = if Qltb (- (1 # 2)) d && Qle_bool d (2 # 10) then (Ok (Some true), t)
    else if Qltb (2 # 10) d then (Ok (Some false), t)
    else (Ok None,
          add_warning (NoPath (last_scene_name (controller (env t)))
                         (last_agent (controller (env t))) (target (task_info t))) t).
Proof.
  intros Hc Hd. unfold _is_goal_in_range.
  unfold bind at 1. unfold gets at 1.
  unfold bind at 1. rewrite (current_distance_cached t c Hc), Hd.
  unfold bind at 1. unfold lift at 1. simpl.
  destruct (Qltb (- (1 # 2)) d); simpl.
  - unfold bind at 1. unfold lift at 1.
    destruct (Qle_bool d (2 # 10)); simpl; [reflexivity |].
    unfold bind at 1. unfold lift at 1. simpl.
    destruct (Qltb (2 # 10) d); [reflexivity |].
    unfold warn_no_path.
    unfold bind at 1. unfold bind at 1. rewrite point_on_env_scene_name.
    unfold bind at 1. rewrite point_on_env_agent_state. reflexivity.
  - unfold bind at 1. unfold ret at 1.
    unfold bind at 1. unfold lift at 1. simpl.
    destruct (Qltb (2 # 10) d); [reflexivity |].
    unfold warn_no_path.
    unfold bind at 1. unfold bind at 1. rewrite point_on_env_scene_name.
    unfold bind at 1. rewrite point_on_env_agent_state. reflexivity.
Qed.

(** The same comparison fails when the cache itself answers [None]. *)
Lemma is_goal_in_range_cached_none_raises (t : state (C := C) (Cache := Cache))
    (c : Cache) :
  cache_in_use (distance_cache t) = Some c ->
  get_distance c (last_agent (controller (env t))) (target (task_info t)) = VNone ->
  _is_goal_in_range t = (Raise TypeError, t).
Proof.
  intros Hc Hd. unfold _is_goal_in_range.
  unfold bind at 1. unfold gets at 1.
  unfold bind at 1. rewrite (current_distance_cached t c Hc), Hd. reflexivity.
Qed.

(** On the live path [_is_goal_in_range] never returns [None]. *)
Lemma is_goal_in_range_live_never_none (t : state (C := C) (Cache := Cache)) :
  cache_in_use (distance_cache t) = None ->
  fst (_is_goal_in_range t) <> Ok None.
Proof.
  intros Hc. unfold _is_goal_in_range.
  unfold bind at 1. unfold gets at 1.
  unfold bind at 1. unfold current_distance.
  unfold bind at 1. unfold gets at 1. rewrite Hc.
  unfold dist_to_target, on_env. unfold_monad.
  destruct (dist_to_point (target (task_info t)) (env t)) as [[res | ex] e'];
    simpl; [| discriminate].
  destruct (Qltb (- (1 # 2)) res) eqn:Elt; simpl; [| discriminate].
  rewrite Elt. simpl.
  destruct (Qle_bool res (2 # 10)) eqn:Ele; simpl; [discriminate |].
  unfold Qltb at 1. rewrite Ele. simpl. discriminate.
Qed.

(** C4, where the code departs from it. On the live path (no distance
    cache in use) an unreachable or unknown distance, that is any answer
    of [dist_to_point] not above -0.5, makes [dist_to_target] return
    [None], and the range test then compares a float with [None]:
    [_is_goal_in_range] raises [TypeError], logs no warning and returns
    no [None]; so [_step] raises at [END] before [_success] is assigned
    and before [judge] runs. *)
Theorem is_goal_in_range_live_unknown_raises (t : state (C := C) (Cache := Cache))
    (res : Q) (e' : Env C) :
  cache_in_use (distance_cache t) = None ->
  dist_to_point (target (task_info t)) (env t) = (Ok res, e') ->
  (res <= - (1 # 2))%Q ->
  _is_goal_in_range t = (Raise TypeError, set_env e' t) /\
  warnings (snd (_is_goal_in_range t)) = warnings t /\
  forall a, py_index _actions a = Ok END ->
    fst (_step a t) = Raise TypeError /\
    _success (snd (_step a t)) = _success t /\
    _rewards (snd (_step a t)) = _rewards t.
Proof.
  intros Hc Hd Hres.
  assert (Hlt : Qltb (- (1 # 2)) res = false) by (apply Qltb_ge; exact Hres).
  assert (Hrun : _is_goal_in_range t = (Raise TypeError, set_env e' t)).
  { unfold _is_goal_in_range.
    unfold bind at 1. unfold gets at 1.
    unfold bind at 1. rewrite (current_distance_live t res e' Hc Hd), Hlt.
    reflexivity. }
  split; [exact Hrun |]. split; [rewrite Hrun; reflexivity |].
  intros a Ha.
  assert (Hrun' : _is_goal_in_range (set_took_end_action true t)
                  = (Raise TypeError, set_env e' (set_took_end_action true t))).
  { unfold _is_goal_in_range.
    unfold bind at 1. unfold gets at 1.
    unfold bind at 1.
    rewrite (current_distance_live (set_took_end_action true t) res e' Hc Hd), Hlt.
    reflexivity. }
  assert (Hstep : _step a t
                  = (Raise TypeError, set_env e' (set_took_end_action true t))).
  { unfold _step. unfold bind at 1. unfold lift at 1. rewrite Ha.
    change (Action_eqb END END) with true. cbv iota.
    unfold bind at 1. unfold bind at 1. unfold modify at 1.
    unfold bind at 1. rewrite Hrun'. reflexivity. }
  rewrite Hstep. simpl. auto.
Qed.

(** With the success flag [None] at [END], [judge] adds neither the
    success nor the failure bonus: the reward is the step penalty plus
    the shaping term. *)
Lemma judge_ambiguous (t t' : state (C := C) (Cache := Cache)) (r : Q) :
  _took_end_action t = true -> _success t = None ->
  judge t = (Ok r, t') ->
  exists shaped t1,
    shaping t = (Ok shaped, t1) /\ r = (step_penalty (reward_configs t) + shaped)%Q.
Proof.
  intros Hend Hsucc. unfold judge. intros Hj.
  apply bind_ok_inv in Hj as (base & t0 & Hbase & Hj).
  unfold gets in Hbase. inversion Hbase; subst; clear Hbase.
  apply bind_ok_inv in Hj as (shaped & t1 & Hshape & Hj).
  exists shaped, t1. split; [exact Hshape |].
  assert (Hkeep : _took_end_action t1 = true /\ _success t1 = None).
  { apply (preserves_run (fun s => _took_end_action s = true /\ _success s = None)
             shaping t0 t1 (Ok shaped)); auto.
    apply preserves_shaping. unfold bookkeeping_free.
    split; [| split]; intros ? ? [? ?]; split; assumption. }
  destruct Hkeep as [Hend1 Hsucc1].
  unfold_monad. rewrite Hend1, Hsucc1 in Hj. inversion Hj; subst. reflexivity.
Qed.

(** *** SPL *)

Lemma point_spl_unsuccessful (t : state (C := C) (Cache := Cache)) :
  truthy (_success t) = false -> spl t = (Ok (VFloat 0), t).
Proof. intros Hs. unfold spl. unfold_monad. rewrite Hs. reflexivity. Qed.

Lemma point_spl_cached (t : state (C := C) (Cache := Cache)) (c : Cache) (li : Q) :
  _success t = Some true ->
  cache_in_use (distance_cache t) = Some c ->
  optimal_distance t = VFloat li ->
  (0 < li)%Q ->
  (li <= inject_Z (num_moves_made t) * gridSize (config (env t)))%Q ->
  exists r, spl t = (Ok (VFloat r), t) /\ (0 <= r)%Q /\ (r <= 1)%Q.
Proof.
  intros Hs Hc Hli Hpos Hle.
  destruct (spl_ratio_bounds li _ Hpos Hle) as (r & Hr & Hb).
  exists r. split; [| exact Hb].
  unfold spl. unfold_monad. rewrite Hs. simpl. rewrite Hc, Hli. simpl.
  rewrite Hr. reflexivity.
Qed.

Lemma point_spl_live (t : state (C := C) (Cache := Cache)) :
  _success t = Some true ->
  cache_in_use (distance_cache t) = None ->
  (0 < path_distance (episode_optimal_corners t))%Q ->
  (path_distance (episode_optimal_corners t) <= path_distance (path t))%Q ->
  exists r, spl t = (Ok (VFloat r), t) /\ (0 <= r)%Q /\ (r <= 1)%Q.
Proof.
  intros Hs Hc Hpos Hle.
  destruct (spl_ratio_bounds _ _ Hpos Hle) as (r & Hr & Hb).
  exists r. split; [| exact Hb].
  unfold spl, compute_single_spl. unfold_monad. rewrite Hs. simpl. rewrite Hc. simpl.
  rewrite Hr. reflexivity.
Qed.

End TaskFacts.

Lemma metrics_without_cache_witness :
  PointNavTask.metrics
    (snd (PointNavTask.step 3 (Fake.point_task None "Television")))
  = (Raise NotImplementedError,
     PointNavTask.set_rewards []
       (snd (PointNavTask.step 3 (Fake.point_task None "Television")))).
Proof.
  apply (metrics_without_cache
           (snd (PointNavTask.step 3 (Fake.point_task None "Television")))).
  - reflexivity.
  - vm_compute. reflexivity.
  - vm_compute. discriminate.
Defined.

Lemma step_appends_position_witness :
  PointNavTask.path
    (snd (PointNavTask._step 0 (Fake.point_task (Some Fake.cache0) "Television")))
  = PointNavTask.path (Fake.point_task (Some Fake.cache0) "Television")
    ++ [position_of
          (last_agent
             (controller_step (NamedAction MOVE_AHEAD)
                (controller
                   (PointNavTask.env
                      (Fake.point_task (Some Fake.cache0) "Television")))))].
Proof.
  apply (step_appends_position 0 MOVE_AHEAD
           (Fake.point_task (Some Fake.cache0) "Television")).
  - reflexivity.
  - discriminate.
Defined.

(** A rotation in place: the position recorded last is recorded again. *)
Lemma duplicate_position_appended :
  PointNavTask.path
    (snd (PointNavTask.step 0 (Fake.point_task (Some Fake.cache0) "Television")))
  = [mkPosition 0 0 (1 # 4)] /\
  PointNavTask.path
    (snd (PointNavTask._step 1
       (snd (PointNavTask.step 0 (Fake.point_task (Some Fake.cache0) "Television")))))
  = [mkPosition 0 0 (1 # 4); mkPosition 0 0 (1 # 4)].
Proof. split; vm_compute; reflexivity. Qed.

Lemma is_goal_in_range_live_unknown_raises_witness :
  PointNavTask._is_goal_in_range (Fake.point_task None "Apple")
  = (Raise TypeError,
     PointNavTask.set_env
       (snd (dist_to_point "Apple" (PointNavTask.env (Fake.point_task None "Apple"))))
       (Fake.point_task None "Apple")).
Proof.
  apply (is_goal_in_range_live_unknown_raises (Fake.point_task None "Apple") (-1)%Q
           (snd (dist_to_point "Apple"
                   (PointNavTask.env (Fake.point_task None "Apple"))))).
  - reflexivity.
  - vm_compute. reflexivity.
  - unfold Qle. simpl. lia.
Defined.

End PointNavFacts.

(** ** [ObjectNavTask] *)

Module ObjectNavFacts.
Section TaskFacts.
Context {C : Type} `{Simulator C} `{MathLib}.
Context {Cache : Type} `{CacheUtils Cache}.

Import ObjectNavTask.

Ltac unfold_monad :=
  unfold bind, ret, raise, gets, modify, lift in *; simpl in *.

Lemma object_set_env_same (t : state (C := C) (Cache := Cache)) : set_env (env t) t = t.
Proof. destruct t; reflexivity. Qed.

Lemma object_metrics_no_cache (t : state (C := C) (Cache := Cache)) :
  cache_in_use (distance_cache t) = None ->
  metrics t = (Raise NotImplementedError, t).
Proof.
  intros Hc. unfold metrics. unfold_monad. rewrite Hc. reflexivity.
Qed.

(** C8. Without a distance cache in use, [ObjectNavTask.metrics()]
    raises [NotImplementedError], whatever the state of the episode, and
    computes nothing: the task is left as it was. *)
Theorem metrics_requires_cache (t : state (C := C) (Cache := Cache)) :
  cache_in_use (distance_cache t) = None ->
  metrics t = (Raise NotImplementedError, t).
Proof.
  intros Hc. unfold metrics. unfold_monad. rewrite Hc. reflexivity.
Qed.

Lemma object_on_env_agent_state (t : state (C := C) (Cache := Cache)) :
  on_env RoboThorEnvironment.agent_state t
  = (Ok (last_agent (controller (env t))), t).
Proof.
  unfold on_env, RoboThorEnvironment.agent_state, gets.
  rewrite object_set_env_same. reflexivity.
Qed.

(** With a cache, before the episode is over, [metrics()] is [{}]. *)
Lemma object_metrics_not_done (t : state (C := C) (Cache := Cache)) (c : Cache) :
  cache_in_use (distance_cache t) = Some c ->
  is_done t = false -> metrics t = (Ok None, t).
Proof.
  intros Hc Hd. unfold metrics.
  unfold bind at 1. unfold gets at 1. rewrite Hc.
  unfold bind at 1. rewrite object_on_env_agent_state.
  unfold_monad. rewrite Hd. reflexivity.
Qed.

(** *** What a step leaves alone *)

Lemma object_preserves_on_env {A : Type} (P : state (C := C) (Cache := Cache) -> Prop)
    (m : M (Env C) A) :
  (forall e t, P t -> P (set_env e t)) -> preserves P (on_env m).
Proof.
  intros HP t Ht. unfold on_env. destruct (m (env t)) as [r e']. simpl. auto.
Qed.

(** A property of the environment kept by an environment method is kept
    by the call of that method on [self.env]. *)
Lemma object_on_env_lift {A : Type} (PE : Env C -> Prop) (m : M (Env C) A) :
  preserves PE m ->
  preserves (fun t : state (C := C) (Cache := Cache) => PE (env t)) (on_env m).
Proof.
  intros Hm t Ht. unfold on_env. specialize (Hm (env t) Ht).
  destruct (m (env t)) as [r e']. simpl in *. exact Hm.
Qed.

Lemma step_frame_env_free (P : state (C := C) (Cache := Cache) -> Prop) :
  (forall e t, P t -> P (set_env e t)) ->
  (forall d t, P t -> P (set_last_geodesic_distance d t)) ->
  step_frame P.
Proof.
  intros Henv Hgeo. unfold step_frame.
  repeat split; intros; try apply object_preserves_on_env; auto.
Qed.

Lemma step_frame_calls (l : list SimCall) :
  step_frame (fun t : state (C := C) (Cache := Cache) =>
                EnvObservations.calls_extend l (env t)).
Proof.
  unfold step_frame. repeat split.
  - apply (object_on_env_lift (EnvObservations.calls_extend l)).
    apply preserves_read_only. intros e. reflexivity.
  - intros o. apply (object_on_env_lift (EnvObservations.calls_extend l)).
    apply EnvFacts.preserves_calls_access_grid.
  - apply (object_on_env_lift (EnvObservations.calls_extend l)).
    apply EnvFacts.preserves_calls_visible_objects.
  - intros d t Ht. exact Ht.
Qed.

Ltac object_preserves :=
  repeat first
    [ match goal with
      | Hf : step_frame _ |- _ =>
          first [ apply (proj1 Hf) | apply (proj1 (proj2 Hf))
                | apply (proj1 (proj2 (proj2 Hf))) ]
      end
    | apply preserves_modify; solve [auto]
    | match goal with
      | Hf : step_frame _ |- _ =>
          apply preserves_modify; intros ? ?; apply (proj2 (proj2 (proj2 Hf))); assumption
      end
    | preserves_step ].

Lemma object_preserves_shaping (P : state (C := C) (Cache := Cache) -> Prop) :
  step_frame P -> preserves P shaping.
Proof. intros HP. unfold shaping. object_preserves. Qed.

Lemma object_preserves_is_goal_in_range
    (P : state (C := C) (Cache := Cache) -> Prop) :
  step_frame P -> preserves P _is_goal_in_range.
Proof. intros HP. unfold _is_goal_in_range. object_preserves. Qed.

Lemma object_preserves_judge (P : state (C := C) (Cache := Cache) -> Prop) :
  step_frame P -> (forall r t, P t -> P (set_rewards r t)) ->
  preserves P judge.
Proof.
  intros HP Hrew. unfold judge.
  apply preserves_bind; [apply preserves_gets | intros base].
  apply preserves_bind; [apply object_preserves_shaping, HP | intros shaped].
  object_preserves.
Qed.

(** *** Rewards are recorded *)

Lemma object_judge_records (t t' : state (C := C) (Cache := Cache)) (r : Q) :
  judge t = (Ok r, t') -> _rewards t' = _rewards t ++ [r].
Proof.
  unfold judge. intros Hj.
  apply bind_ok_inv in Hj as (base & t1 & Hbase & Hj).
  unfold gets in Hbase. inversion Hbase; subst t1; clear Hbase.
  apply bind_ok_inv in Hj as (shaped & t1 & Hshape & Hj).
  assert (Hr : _rewards t1 = _rewards t).
  { apply (preserves_run (fun s => _rewards s = _rewards t) shaping t t1 (Ok shaped));
      auto.
    apply object_preserves_shaping, step_frame_env_free; intros; assumption. }
  unfold_monad. inversion Hj; subst; clear Hj. simpl. rewrite Hr. reflexivity.
Qed.

Lemma object__step_records (a : Z) (t t' : state (C := C) (Cache := Cache))
    (sr : RLStepResult) :
  _step a t = (Ok sr, t') -> _rewards t' = _rewards t ++ [reward sr].
Proof.
  unfold _step. intros Hs.
  pose (P := fun s : state (C := C) (Cache := Cache) => _rewards s = _rewards t).
  assert (HP : step_frame P) by (apply step_frame_env_free; intros; assumption).
  apply bind_ok_inv in Hs as (named & t0 & Hact & Hs).
  unfold lift in Hact. inversion Hact; subst t0; clear Hact.
  apply bind_ok_inv in Hs as (flag & t0 & Hflag & Hs).
  unfold gets in Hflag. inversion Hflag; subst; clear Hflag.
  apply bind_ok_inv in Hs as (u0 & t1 & Htaken & Hs).
  unfold modify in Htaken. inversion Htaken; subst; clear Htaken.
  apply bind_ok_inv in Hs as (u & t1 & Hpre & Hs).
  assert (Hp1 : P t1).
  { eapply preserves_run; [| exact Hpre | reflexivity].
    destruct (Action_eqb _ END).
    - apply preserves_bind; [apply preserves_modify; auto | intros _].
      apply preserves_bind; [apply object_preserves_is_goal_in_range, HP | intros r].
      object_preserves.
    - apply preserves_bind; [apply object_preserves_on_env; auto | intros _].
      apply preserves_bind; [apply object_preserves_on_env; auto | intros ok].
      apply preserves_bind; [apply preserves_modify; auto | intros _].
      apply preserves_bind; [apply object_preserves_on_env; auto | intros pose].
      apply preserves_bind; [apply preserves_modify; auto | intros _].
      apply preserves_modify; auto. }
  apply bind_ok_inv in Hs as (moved & t2 & Hmoved & Hs).
  unfold gets in Hmoved. inversion Hmoved; subst; clear Hmoved.
  apply bind_ok_inv in Hs as (u' & t3 & Hmove & Hs).
  assert (Hp3 : P t3).
  { eapply preserves_run; [| exact Hmove | exact Hp1].
    destruct (last_two_differ (path t2)); [apply preserves_modify; auto |].
    apply preserves_ret. }
  apply bind_ok_inv in Hs as (obs & t4 & Hobs & Hs).
  assert (Hp4 : P t4).
  { eapply preserves_run; [| exact Hobs | exact Hp3].
    apply preserves_read_only. unfold get_observations. intros s0.
    unfold_monad. destruct (mirror s0); reflexivity. }
  apply bind_ok_inv in Hs as (rew & t5 & Hj & Hs).
  apply object_judge_records in Hj.
  unfold_monad. inversion Hs; subst; clear Hs. simpl.
  rewrite Hj. unfold P in Hp4. rewrite Hp4. reflexivity.
Qed.

Lemma object_step_records (a : Z) (t t' : state (C := C) (Cache := Cache))
    (sr : RLStepResult) :
  step a t = (Ok sr, t') -> _rewards t' = _rewards t ++ [reward sr].
Proof.
  unfold step. intros Hs.
  apply bind_ok_inv in Hs as (sr' & t1 & Hstep & Hs).
  apply object__step_records in Hstep.
  unfold_monad. inversion Hs; subst; clear Hs. exact Hstep.
Qed.

Lemma object_run_episode_records (actions : list Z)
    (t t' : state (C := C) (Cache := Cache)) (srs : list RLStepResult) :
  run_episode actions t = (Ok srs, t') ->
  _rewards t' = _rewards t ++ (reward <$> srs).
Proof.
  revert t srs. induction actions as [| a rest IH]; intros t srs Hrun.
  - simpl in Hrun. unfold ret in Hrun. inversion Hrun; subst.
    simpl. rewrite app_nil_r. reflexivity.
  - simpl in Hrun.
    apply bind_ok_inv in Hrun as (sr & t1 & Hstep & Hrun).
    apply bind_ok_inv in Hrun as (rest_srs & t2 & Hrest & Hrun).
    unfold ret in Hrun. inversion Hrun; subst; clear Hrun.
    apply object_step_records in Hstep. apply IH in Hrest.
    rewrite Hrest, Hstep, <- app_assoc. reflexivity.
Qed.

Lemma object_metrics_total (t t' : state (C := C) (Cache := Cache))
    (m : Metrics TaskInfo) :
  metrics t = (Ok (Some m), t') -> m_total_reward m = np_sum (_rewards t).
Proof.
  unfold metrics. intros Hm.
  apply bind_ok_inv in Hm as (cache & t0 & Hcache & Hm).
  unfold gets in Hcache. inversion Hcache; subst; clear Hcache.
  destruct (cache_in_use (distance_cache t0)) as [c |];
    [| unfold raise in Hm; discriminate].
  apply bind_ok_inv in Hm as (pose & t1 & Hpose & Hm).
  rewrite object_on_env_agent_state in Hpose. inversion Hpose; subst; clear Hpose.
  apply bind_ok_inv in Hm as (wanted & t2 & Hw & Hm).
  unfold gets in Hw. inversion Hw; subst; clear Hw.
  apply bind_ok_inv in Hm as (finished & t3 & Hfin & Hm).
  unfold gets in Hfin. inversion Hfin; subst; clear Hfin.
  destruct (negb (is_done t3)); [unfold ret in Hm; discriminate |].
  apply bind_ok_inv in Hm as (succ & t4 & Hsucc & Hm).
  unfold gets in Hsucc. inversion Hsucc; subst; clear Hsucc.
  apply bind_ok_inv in Hm as (steps & t5 & Hsteps & Hm).
  unfold gets in Hsteps. inversion Hsteps; subst; clear Hsteps.
  apply bind_ok_inv in Hm as (total & t6 & Htot & Hm).
  unfold gets in Htot. inversion Htot; subst; clear Htot.
  apply bind_ok_inv in Hm as (sp & t7 & Hspl & Hm).
  unfold_monad. inversion Hm; subst. reflexivity.
Qed.

Lemma object_init_fresh (sensors : Env C -> observations) (info : TaskInfo)
    (steps : Z) (rewards : RewardConfigs) (cache : option Cache) (e e' : Env C)
    (t : state (C := C) (Cache := Cache)) :
  __init__ sensors info steps rewards cache e = (Ok t, e') ->
  _rewards t = [] /\ path t = [] /\ num_moves_made t = 0 /\
  _took_end_action t = false /\ _num_steps_taken t = 0 /\ mirror t = mirrored info.
Proof.
  unfold __init__. intros Hi.
  match type of Hi with
  | (match ?b ?t0 with _ => _ end) = _ => destruct (b t0) as [[u | ex] t1] eqn:Hb
  end; [| discriminate].
  inversion Hi; subst; clear Hi.
  apply bind_ok_inv in Hb as (last & s1 & _ & Hb).
  apply bind_ok_inv in Hb as (u1 & s2 & _ & Hb).
  apply bind_ok_inv in Hb as (start & s3 & _ & Hb).
  apply bind_ok_inv in Hb as (u2 & s4 & _ & Hb).
  apply bind_ok_inv in Hb as (corners & s5 & _ & Hb).
  unfold modify in Hb. inversion Hb; subst. simpl. repeat split; reflexivity.
Qed.

(** *** SPL *)

Lemma object_spl_unsuccessful (t : state (C := C) (Cache := Cache)) :
  truthy (_success t) = false -> spl t = (Ok (VFloat 0), t).
Proof. intros Hs. unfold spl. unfold_monad. rewrite Hs. reflexivity. Qed.

Lemma object_spl_cached (t : state (C := C) (Cache := Cache)) (c : Cache) (li : Q) :
  _success t = Some true ->
  cache_in_use (distance_cache t) = Some c ->
  optimal_distance t = VFloat li ->
  (0 < li)%Q ->
  (li <= inject_Z (num_moves_made t) * gridSize (config (env t)))%Q ->
  exists r, spl t = (Ok (VFloat r), t) /\ (0 <= r)%Q /\ (r <= 1)%Q.
Proof.
  intros Hs Hc Hli Hpos Hle.
  destruct (spl_ratio_bounds li _ Hpos Hle) as (r & Hr & Hb).
  exists r. split; [| exact Hb].
  unfold spl. unfold_monad. rewrite Hs. simpl. rewrite Hc, Hli. simpl.
  rewrite Hr. reflexivity.
Qed.

Lemma object_spl_live (t : state (C := C) (Cache := Cache)) (corners : list Position) :
  _success t = Some true ->
  cache_in_use (distance_cache t) = None ->
  episode_optimal_corners t = Some corners ->
  (0 < path_distance corners)%Q ->
  (path_distance corners <= path_distance (path t))%Q ->
  exists r, spl t = (Ok (VFloat r), t) /\ (0 <= r)%Q /\ (r <= 1)%Q.
Proof.
  intros Hs Hc Hcs Hpos Hle.
  destruct (spl_ratio_bounds _ _ Hpos Hle) as (r & Hr & Hb).
  exists r. split; [| exact Hb].
  unfold spl, compute_single_spl. unfold_monad. rewrite Hs. simpl. rewrite Hc. simpl.
  rewrite Hcs. simpl. rewrite Hr. reflexivity.
Qed.

(** *** Mirroring *)

Lemma row_flipped_reverse {A : Type} (r : list A) : row_flipped r (reverse r).
Proof.
  split; [apply length_reverse |].
  intros j Hj. rewrite reverse_lookup by exact Hj. f_equal. lia.
Qed.

Lemma rows_flipped_reverse {A : Type} (rows : list (list A)) :
  Forall2 row_flipped rows (reverse <$> rows).
Proof.
  apply Forall2_fmap_r, Forall_Forall2_diag, Forall_forall.
  intros r _. apply row_flipped_reverse.
Qed.

(** The slice [::-1] on the second axis is the horizontal flip. *)
Lemma reverse_axis1_flips (a : ndarray) :
  (2 <= ndim a)%nat -> horizontal_flip_spec a (reverse_axis1 a).
Proof.
  destruct a as [v | rows | rows | rows]; simpl; intros Hn;
    [lia | apply rows_flipped_reverse ..].
Qed.

Lemma mirror_observation_spec (o : string * obsval) :
  mirrored_reading_spec o (mirror_observation o).
Proof.
  destruct o as [name [a | v]]; unfold mirrored_reading_spec, image_like; simpl;
    [| split; reflexivity].
  destruct (contains "rgb" name || contains "depth" name); simpl;
    [| split; reflexivity].
  destruct a as [v | rows | rows | rows]; simpl; split; try reflexivity;
    eexists; (split; [reflexivity | apply rows_flipped_reverse]).
Qed.

Lemma mirrored_action_opposite (named : Action) :
  mirrored_action true named = opposite_rotation named /\
  mirrored_action false named = named.
Proof. destruct named; split; reflexivity. Qed.

(** The first thing a step other than [END] does to the simulator is to
    send it the decoded action, after the mirror swap. *)
Lemma _step_sends (a : Z) (named : Action) (t : state (C := C) (Cache := Cache)) :
  py_index _actions a = Ok named ->
  mirrored_action (mirror t) named <> END ->
  EnvObservations.calls_extend
    (sim_calls (env t) ++ [CallStep (NamedAction (mirrored_action (mirror t) named))])
    (env (snd (_step a t))).
Proof.
  intros Hact Hne.
  assert (Hend : Action_eqb (mirrored_action (mirror t) named) END = false)
    by (destruct (mirrored_action (mirror t) named); auto; congruence).
  pose (P := fun s : state (C := C) (Cache := Cache) =>
    EnvObservations.calls_extend
      (sim_calls (env t) ++ [CallStep (NamedAction (mirrored_action (mirror t) named))])
      (env s)).
  assert (HP : step_frame P) by apply step_frame_calls.
  assert (Hset : forall f : state (C := C) (Cache := Cache) -> state,
            (forall s, env (f s) = env s) -> preserves P (modify f)).
  { intros f Hf. apply preserves_modify. intros s0 Hs0. unfold P. rewrite Hf.
    exact Hs0. }
  assert (Hread : forall A (m : M (Env C) A), read_only m -> preserves P (on_env m)).
  { intros A m Hm.
    apply (object_on_env_lift (EnvObservations.calls_extend _)).
    apply preserves_read_only, Hm. }
  change (P (snd (_step a t))).
  unfold _step. unfold bind at 1. unfold lift at 1. rewrite Hact.
  unfold bind at 1. unfold gets at 1.
  unfold bind at 1. unfold modify at 1.
  rewrite Hend.
  apply preserves_after; [apply preserves_after |].
  - unfold on_env, RoboThorEnvironment.step, modify. simpl.
    exists []. rewrite app_nil_r. reflexivity.
  - intros _.
    apply preserves_bind; [apply Hread; intros e; reflexivity | intros ok].
    apply preserves_bind; [apply Hset; reflexivity | intros _].
    apply preserves_bind; [apply (proj1 HP) | intros pose].
    apply preserves_bind; [apply Hset; reflexivity | intros _].
    apply Hset; reflexivity.
  - intros _.
    apply preserves_bind; [apply preserves_gets | intros moved].
    apply preserves_bind;
      [destruct moved; [apply Hset; reflexivity | apply preserves_ret] | intros _].
    apply preserves_bind.
    { apply preserves_read_only. unfold get_observations. intros s0.
      unfold_monad. destruct (mirror s0); reflexivity. }
    intros obs.
    apply preserves_bind;
      [apply object_preserves_judge; [exact HP | intros r s0 Hs0; exact Hs0] |].
    intros rew. repeat preserves_step.
Qed.

(** Mirroring in [ObjectNavTask], where it works.
    (1) The action a step sends to the simulator is the decoded one with
    [ROTATE_LEFT] and [ROTATE_RIGHT] exchanged when the task is mirrored
    and the decoded one itself when it is not, so a mirrored task sends
    for a rotation what an unmirrored task sends for the opposite
    rotation, and every other action unchanged ([END] is never sent).
    (2) The observations of a mirrored task are those of the unmirrored
    task on the same state, reading by reading, where every image-like
    array (name mentioning rgb or depth) with 2 or 3 dimensions is
    replaced by its exact horizontal flip.
    (3) Every frame [render] returns for a mirrored task is the exact
    horizontal flip of the frame it returns for the unmirrored task. *)
Theorem mirror_consistent (t : state (C := C) (Cache := Cache)) :
  (forall a named, py_index _actions a = Ok named ->
     mirrored_action true named = opposite_rotation named /\
     (opposite_rotation named <> END ->
      EnvObservations.calls_extend
        (sim_calls (env t) ++ [CallStep (NamedAction (opposite_rotation named))])
        (env (snd (_step a (set_mirror true t)))) /\
      forall b, py_index _actions b = Ok (opposite_rotation named) ->
        EnvObservations.calls_extend
          (sim_calls (env t) ++ [CallStep (NamedAction (opposite_rotation named))])
          (env (snd (_step b (set_mirror false t)))))) /\
  (exists plain mirrored_obs,
     get_observations (set_mirror false t) = (Ok plain, set_mirror false t) /\
     get_observations (set_mirror true t) = (Ok mirrored_obs, set_mirror true t) /\
     Forall2 mirrored_reading_spec plain mirrored_obs) /\
  (forall mode frame,
     fst (render mode (set_mirror true t)) = Ok frame ->
     exists plain_frame,
       fst (render mode (set_mirror false t)) = Ok plain_frame /\
       horizontal_flip_spec plain_frame frame).
Proof.
  split; [| split].
  - intros a named Hact.
    destruct (mirrored_action_opposite named) as [Htrue _].
    split; [exact Htrue |]. intros Hne. split.
    + pose proof (_step_sends a named (set_mirror true t) Hact) as Hs.
      change (mirror (set_mirror true t)) with true in Hs.
      change (env (set_mirror true t)) with (env t) in Hs.
      rewrite Htrue in Hs. apply Hs, Hne.
    + intros b Hb.
      pose proof (_step_sends b (opposite_rotation named) (set_mirror false t) Hb) as Hs.
      change (mirror (set_mirror false t)) with false in Hs.
      change (env (set_mirror false t)) with (env t) in Hs.
      rewrite (proj2 (mirrored_action_opposite (opposite_rotation named))) in Hs.
      apply Hs, Hne.
  - exists (sensor_suite t (env t)), (mirror_observation <$> sensor_suite t (env t)).
    split; [reflexivity |]. split; [reflexivity |].
    apply Forall2_fmap_r, Forall_Forall2_diag, Forall_forall.
    intros o _. apply mirror_observation_spec.
  - intros mode frame. unfold render.
    destruct (negb (String.eqb mode "rgb" || String.eqb mode "depth"));
      [discriminate |].
    unfold on_env, RoboThorEnvironment.current_frame, RoboThorEnvironment.current_depth.
    unfold_monad.
    destruct (String.eqb mode "rgb"); simpl; unfold flip_columns_3d;
      match goal with
      | |- context [ndim ?f] =>
          destruct (ndim f <? 3)%nat eqn:En; simpl; [discriminate |];
          intros Hf; inversion Hf; subst; exists f; split; [reflexivity |];
          apply reverse_axis1_flips; apply Nat.ltb_ge in En; lia
      end.
Qed.

(** C5, where the code departs from it. A mirrored [ObjectNavTask]
    whose simulator gives a depth frame of two dimensions (height and
    width): [render("depth")] raises [IndexError] and returns no frame,
    while the unmirrored task returns the frame; so the rendered frame
    of the mirrored task is not the horizontal flip of the unmirrored
    one. [get_observations] on the same task does flip every
    two-dimensional array whose name mentions depth. *)
Theorem mirrored_depth_render_raises (t : state (C := C) (Cache := Cache)) :
  mirror t = true ->
  ndim (last_depth_frame (controller (env t))) = 2%nat ->
  render "depth" t = (Raise IndexError, t) /\
  render "depth" (set_mirror false t)
  = (Ok (last_depth_frame (controller (env t))), set_mirror false t) /\
  (forall frame, fst (render "depth" t) <> Ok frame) /\
  exists obs,
    get_observations t = (Ok obs, t) /\
    forall name a,
      (name, ObsArray a) ∈ sensor_suite t (env t) ->
      contains "depth" name = true -> ndim a = 2%nat ->
      (name, ObsArray (reverse_axis1 a)) ∈ obs /\
      horizontal_flip_spec a (reverse_axis1 a).
Proof.
  intros Hm Hd.
  assert (Hraise : render "depth" t = (Raise IndexError, t)).
  { unfold render, flip_columns_3d, on_env, RoboThorEnvironment.current_depth.
    unfold_monad. rewrite object_set_env_same, Hm, Hd. reflexivity. }
  split; [exact Hraise |]. split; [| split].
  - unfold render, on_env, RoboThorEnvironment.current_depth. unfold_monad.
    clear. destruct t; reflexivity.
  - intros frame. rewrite Hraise. discriminate.
  - exists (mirror_observation <$> sensor_suite t (env t)). split.
    + unfold get_observations. unfold_monad. rewrite Hm. reflexivity.
    + intros name a Hin Hname Hnd. split.
      * apply list_elem_of_fmap. exists (name, ObsArray a). split; [| exact Hin].
        simpl. rewrite Hname, orb_true_r, Hnd. reflexivity.
      * apply reverse_axis1_flips. lia.
Qed.

End TaskFacts.

Lemma metrics_requires_cache_witness :
  ObjectNavTask.metrics (Fake.object_task None "Television" false)
  = (Raise NotImplementedError, Fake.object_task None "Television" false).
Proof.
  apply (metrics_requires_cache (Fake.object_task None "Television" false)).
  reflexivity.
Defined.

Lemma mirror_consistent_witness :
  EnvObservations.calls_extend
    (sim_calls (ObjectNavTask.env (Fake.object_task (Some Fake.cache0) "Television" true))
     ++ [CallStep (NamedAction ROTATE_RIGHT)])
    (ObjectNavTask.env
       (snd (ObjectNavTask._step 1
          (ObjectNavTask.set_mirror true
             (Fake.object_task (Some Fake.cache0) "Television" true))))).
Proof.
  destruct (mirror_consistent (Fake.object_task (Some Fake.cache0) "Television" true))
    as [Hsend _].
  destruct (Hsend 1 ROTATE_LEFT eq_refl) as [_ Hcalls].
  apply Hcalls. simpl. discriminate.
Defined.

Lemma mirrored_depth_render_raises_witness :
  ObjectNavTask.render "depth" (Fake.object_task (Some Fake.cache0) "Television" true)
  = (Raise IndexError, Fake.object_task (Some Fake.cache0) "Television" true) /\
  ObjectNavTask.render "depth"
    (ObjectNavTask.set_mirror false (Fake.object_task (Some Fake.cache0) "Television" true))
  = (Ok Fake.depth,
     ObjectNavTask.set_mirror false (Fake.object_task (Some Fake.cache0) "Television" true)).
Proof.
  destruct (mirrored_depth_render_raises
              (Fake.object_task (Some Fake.cache0) "Television" true)
              ltac:(vm_compute; reflexivity) ltac:(vm_compute; reflexivity))
    as (Hraise & Hplain & _).
  split; [exact Hraise | exact Hplain].
Defined.

End ObjectNavFacts.

(** ** The exploration-shaped [ObjectNavTask]: rewards are recorded *)

Module ExplorationFacts.
Section TaskFacts.
Context {C : Type} `{Simulator C} `{MathLib} `{AgentToGrid C}.
Variable final_distance : ExplorationObjectNavTask.state (C := C) -> pyval.
Variable final_spl : ExplorationObjectNavTask.state (C := C) -> pyval.

Import ExplorationObjectNavTask.

Lemma exploration_preserves_on_env {A : Type} (P : state (C := C) -> Prop)
    (m : M (Env C) A) :
  (forall e t, P t -> P (set_env e t)) -> preserves P (on_env m).
Proof.
  intros HP t Ht. unfold on_env. destruct (m (env t)) as [r e']. simpl. auto.
Qed.

(** Nothing in [_step] touches the recorded rewards. *)
Lemma exploration__step_rewards (a : Z) (R : list Q) :
  preserves (fun s : state (C := C) => _rewards s = R) (_step a).
Proof.
  unfold _step, judge, shaping, _is_goal_object_visible, get_observations.
  repeat first
    [ apply exploration_preserves_on_env; intros ? ? Hs; exact Hs
    | apply preserves_modify; intros ? Hs; exact Hs
    | preserves_step ].
Qed.

Lemma exploration_step_records (a : Z) (t t' : state (C := C)) (sr : RLStepResult) :
  step a t = (Ok sr, t') -> _rewards t' = _rewards t ++ [reward sr].
Proof.
  unfold step. intros Hs.
  apply bind_ok_inv in Hs as (sr' & t1 & Hstep & Hs).
  pose proof (exploration__step_rewards a (_rewards t) t eq_refl) as Hr.
  rewrite Hstep in Hr. simpl in Hr.
  unfold bind, modify, ret in Hs. inversion Hs; subst; clear Hs.
  simpl. rewrite Hr. reflexivity.
Qed.

Lemma exploration_run_episode_records (actions : list Z) (t t' : state (C := C))
    (srs : list RLStepResult) :
  run_episode actions t = (Ok srs, t') ->
  _rewards t' = _rewards t ++ (reward <$> srs).
Proof.
  revert t srs. induction actions as [| a rest IH]; intros t srs Hrun.
  - simpl in Hrun. unfold ret in Hrun. inversion Hrun; subst.
    simpl. rewrite app_nil_r. reflexivity.
  - simpl in Hrun.
    apply bind_ok_inv in Hrun as (sr & t1 & Hstep & Hrun).
    apply bind_ok_inv in Hrun as (rest_srs & t2 & Hrest & Hrun).
    unfold ret in Hrun. inversion Hrun; subst; clear Hrun.
    apply exploration_step_records in Hstep. apply IH in Hrest.
    rewrite Hrest, Hstep, <- app_assoc. reflexivity.
Qed.

Lemma exploration_metrics_total (t t' : state (C := C)) (m : Metrics TaskInfo) :
  metrics final_distance final_spl t = (Ok (Some m), t') ->
  m_total_reward m = np_sum (_rewards t).
Proof.
  unfold metrics. intros Hm.
  apply bind_ok_inv in Hm as (finished & t0 & Hfin & Hm).
  unfold gets in Hfin. inversion Hfin; subst; clear Hfin.
  destruct (negb (is_done t0)); [unfold ret in Hm; discriminate |].
  unfold bind, gets, modify, ret in Hm. simpl in Hm.
  destruct (final_distance _); [discriminate |].
  destruct (final_spl _); [discriminate |].
  inversion Hm; subst. reflexivity.
Qed.

Lemma exploration_init_fresh (sensors : Env C -> observations) (info : TaskInfo)
    (steps : Z) (rewards : RewardConfigs) (e e' : Env C) (t : state (C := C)) :
  __init__ sensors info steps rewards e = (Ok t, e') -> _rewards t = [].
Proof.
  unfold __init__. intros Hi.
  match type of Hi with
  | (match ?b ?t0 with _ => _ end) = _ =>
      assert (Hp : preserves (fun s : state (C := C) => _rewards s = []) b);
      [| pose proof (Hp t0 eq_refl) as Hr; destruct (b t0) as [[u | ex] t1]]
  end.
  - repeat first
      [ apply exploration_preserves_on_env; intros ? ? Hs; exact Hs
      | apply preserves_modify; intros ? Hs; exact Hs
      | preserves_step ].
  - inversion Hi; subst. exact Hr.
  - discriminate.
Qed.

End TaskFacts.
End ExplorationFacts.

(** ** Both tasks *)

Module NavTaskFacts.
Section BothTasks.
Context {C : Type} `{Simulator C} `{MathLib} `{PointDistance C}.
Context {Cache : Type} `{CacheUtils Cache}.
Context `{AgentToGrid C}.

(** C3, as the code has it. For a PointNavTask, for an ObjectNavTask
    and for the exploration-shaped ObjectNavTask: when the first
    [metrics()] call after the steps of an episode returns a populated
    mapping, its [total_reward] is the sum of the rewards [judge()]
    returned over the steps of that episode, in step order. *)
Theorem total_reward_is_sum_of_step_rewards :
  (forall sensors info steps rewards cache episode_info (e e' : Env C)
          (t0 t1 t2 : PointNavTask.state (C := C) (Cache := Cache))
          actions srs m,
     PointNavTask.__init__ sensors info steps rewards cache episode_info e
     = (Ok t0, e') ->
     PointNavTask.run_episode actions t0 = (Ok srs, t1) ->
     PointNavTask.metrics t1 = (Ok (Some m), t2) ->
     m_total_reward m = np_sum (reward <$> srs)) /\
  (forall sensors info steps rewards cache (e e' : Env C)
          (t0 t1 t2 : ObjectNavTask.state (C := C) (Cache := Cache))
          actions srs m,
     ObjectNavTask.__init__ sensors info steps rewards cache e = (Ok t0, e') ->
     ObjectNavTask.run_episode actions t0 = (Ok srs, t1) ->
     ObjectNavTask.metrics t1 = (Ok (Some m), t2) ->
     m_total_reward m = np_sum (reward <$> srs)) /\
  (forall final_distance final_spl sensors info steps rewards (e e' : Env C)
          (t0 t1 t2 : ExplorationObjectNavTask.state (C := C))
          actions srs m,
     ExplorationObjectNavTask.__init__ sensors info steps rewards e = (Ok t0, e') ->
     ExplorationObjectNavTask.run_episode actions t0 = (Ok srs, t1) ->
     ExplorationObjectNavTask.metrics final_distance final_spl t1 = (Ok (Some m), t2) ->
     m_total_reward m = np_sum (ExplorationObjectNavTask.reward <$> srs)).
Proof.
  split; [| split].
  - intros sensors info steps rewards cache episode_info e e' t0 t1 t2 actions srs m
      Hinit Hrun Hm.
    apply PointNavFacts.init_fresh in Hinit as (Hfresh & _).
    apply PointNavFacts.run_episode_records in Hrun.
    apply PointNavFacts.metrics_total in Hm.
    rewrite Hm, Hrun, Hfresh. reflexivity.
  - intros sensors info steps rewards cache e e' t0 t1 t2 actions srs m
      Hinit Hrun Hm.
    apply ObjectNavFacts.object_init_fresh in Hinit as (Hfresh & _).
    apply ObjectNavFacts.object_run_episode_records in Hrun.
    apply ObjectNavFacts.object_metrics_total in Hm.
    rewrite Hm, Hrun, Hfresh. reflexivity.
  - intros final_distance final_spl sensors info steps rewards e e' t0 t1 t2
      actions srs m Hinit Hrun Hm.
    apply ExplorationFacts.exploration_init_fresh in Hinit.
    apply ExplorationFacts.exploration_run_episode_records in Hrun.
    apply ExplorationFacts.exploration_metrics_total in Hm.
    rewrite Hm, Hrun, Hinit. reflexivity.
Qed.

(** C6, as the code has it. Before the episode is over, [metrics()] of
    a PointNavTask returns [{}], and so does [metrics()] of an
    ObjectNavTask that has a distance cache in use; in both cases nothing
    changes. An ObjectNavTask without a cache in use raises
    [NotImplementedError] instead. *)
Theorem metrics_empty_until_done :
  (forall t : PointNavTask.state (C := C) (Cache := Cache),
     PointNavTask.is_done t = false -> PointNavTask.metrics t = (Ok None, t)) /\
  (forall (t : ObjectNavTask.state (C := C) (Cache := Cache)) c,
     ObjectNavTask.cache_in_use (ObjectNavTask.distance_cache t) = Some c ->
     ObjectNavTask.is_done t = false -> ObjectNavTask.metrics t = (Ok None, t)) /\
  (forall t : ObjectNavTask.state (C := C) (Cache := Cache),
     ObjectNavTask.cache_in_use (ObjectNavTask.distance_cache t) = None ->
     ObjectNavTask.is_done t = false ->
     ObjectNavTask.metrics t = (Raise NotImplementedError, t)).
Proof.
  split; [| split].
  - apply PointNavFacts.point_metrics_not_done.
  - apply ObjectNavFacts.object_metrics_not_done.
  - intros t Hc _. apply ObjectNavFacts.object_metrics_no_cache, Hc.
Qed.

(** C7. [spl()] of either task returns 0 when the episode was not
    successful ([_success] is [False] or [None]); and for a successful
    episode whose actual path length is at least the optimal distance,
    itself positive, it returns a value in the closed interval [0, 1].
    With a cache the two lengths are the move count times the grid size
    and [optimal_distance]; without, the lengths of the walked path and
    of the optimal corners. *)
Theorem spl_bounds :
  (forall t : PointNavTask.state (C := C) (Cache := Cache),
     (truthy (PointNavTask._success t) = false ->
      PointNavTask.spl t = (Ok (VFloat 0), t)) /\
     (forall c li,
        PointNavTask._success t = Some true ->
        PointNavTask.cache_in_use (PointNavTask.distance_cache t) = Some c ->
        PointNavTask.optimal_distance t = VFloat li ->
        (0 < li)%Q ->
        (li <= inject_Z (PointNavTask.num_moves_made t)
               * gridSize (config (PointNavTask.env t)))%Q ->
        exists r, PointNavTask.spl t = (Ok (VFloat r), t) /\ (0 <= r)%Q /\ (r <= 1)%Q) /\
     (PointNavTask._success t = Some true ->
      PointNavTask.cache_in_use (PointNavTask.distance_cache t) = None ->
      (0 < path_distance (PointNavTask.episode_optimal_corners t))%Q ->
      (path_distance (PointNavTask.episode_optimal_corners t)
       <= path_distance (PointNavTask.path t))%Q ->
      exists r, PointNavTask.spl t = (Ok (VFloat r), t) /\ (0 <= r)%Q /\ (r <= 1)%Q)) /\
  (forall t : ObjectNavTask.state (C := C) (Cache := Cache),
     (truthy (ObjectNavTask._success t) = false ->
      ObjectNavTask.spl t = (Ok (VFloat 0), t)) /\
     (forall c li,
        ObjectNavTask._success t = Some true ->
        ObjectNavTask.cache_in_use (ObjectNavTask.distance_cache t) = Some c ->
        ObjectNavTask.optimal_distance t = VFloat li ->
        (0 < li)%Q ->
        (li <= inject_Z (ObjectNavTask.num_moves_made t)
               * gridSize (config (ObjectNavTask.env t)))%Q ->
        exists r, ObjectNavTask.spl t = (Ok (VFloat r), t) /\ (0 <= r)%Q /\ (r <= 1)%Q) /\
     (forall corners,
        ObjectNavTask._success t = Some true ->
        ObjectNavTask.cache_in_use (ObjectNavTask.distance_cache t) = None ->
        ObjectNavTask.episode_optimal_corners t = Some corners ->
        (0 < path_distance corners)%Q ->
        (path_distance corners <= path_distance (ObjectNavTask.path t))%Q ->
        exists r, ObjectNavTask.spl t = (Ok (VFloat r), t) /\ (0 <= r)%Q /\ (r <= 1)%Q)).
Proof.
  split; intros t; (split; [| split]).
  - apply PointNavFacts.point_spl_unsuccessful.
  - intros c li. apply PointNavFacts.point_spl_cached.
  - apply PointNavFacts.point_spl_live.
  - apply ObjectNavFacts.object_spl_unsuccessful.
  - intros c li. apply ObjectNavFacts.object_spl_cached.
  - intros corners. apply ObjectNavFacts.object_spl_live.
Qed.

End BothTasks.

Lemma total_reward_is_sum_of_step_rewards_witness :
  m_total_reward Fake.point_reached_metrics
  = np_sum (reward <$> Fake.point_reached_results) /\
  m_total_reward Episodes.exploration_metrics
  = np_sum (ExplorationObjectNavTask.reward <$> Episodes.exploration_results).
Proof.
  split.
  - apply (proj1 total_reward_is_sum_of_step_rewards
             Fake.sensors0 (PointNavTask.mkTaskInfo "Television" "Television") 100
             Fake.rewards0 (Some Fake.cache0) None Fake.env1
             (snd (PointNavTask.__init__ Fake.sensors0
                     (PointNavTask.mkTaskInfo "Television" "Television") 100
                     Fake.rewards0 (Some Fake.cache0) None Fake.env1))
             (Fake.point_task (Some Fake.cache0) "Television")
             Fake.point_reached
             (snd (PointNavTask.metrics Fake.point_reached))
             [0; 3] Fake.point_reached_results Fake.point_reached_metrics).
    + vm_compute. reflexivity.
    + vm_compute. reflexivity.
    + vm_compute. reflexivity.
  - apply (proj2 (proj2 total_reward_is_sum_of_step_rewards)
             Episodes.exploration_distance Episodes.exploration_spl
             Fake.sensors0 (ExplorationObjectNavTask.mkTaskInfo "Television") 100
             Episodes.exploration_rewards Fake.env1
             (snd (ExplorationObjectNavTask.__init__ Fake.sensors0
                     (ExplorationObjectNavTask.mkTaskInfo "Television") 100
                     Episodes.exploration_rewards Fake.env1))
             Episodes.exploration_task
             Episodes.exploration_done
             (snd (ExplorationObjectNavTask.metrics Episodes.exploration_distance
                     Episodes.exploration_spl Episodes.exploration_done))
             [0; 6] Episodes.exploration_results Episodes.exploration_metrics).
    + vm_compute. reflexivity.
    + vm_compute. reflexivity.
    + vm_compute. reflexivity.
Defined.

(** An episode that ends with [END] where the cache knows no path: the
    episode is over and [metrics()] is [{}]; there is no [total_reward]. *)
Lemma total_reward_unavailable :
  (exists srs,
     fst (PointNavTask.run_episode [0; 3] (Fake.point_task (Some Fake.cache0) "Apple"))
     = Ok srs) /\
  PointNavTask.is_done Fake.point_no_path = true /\
  fst (PointNavTask.metrics Fake.point_no_path) = Ok None.
Proof.
  split; [| split].
  - eexists. vm_compute. reflexivity.
  - vm_compute. reflexivity.
  - vm_compute. reflexivity.
Qed.

Lemma metrics_empty_until_done_witness :
  PointNavTask.metrics (Fake.point_task (Some Fake.cache0) "Television")
  = (Ok None, Fake.point_task (Some Fake.cache0) "Television").
Proof.
  apply (proj1 metrics_empty_until_done
           (Fake.point_task (Some Fake.cache0) "Television")).
  vm_compute. reflexivity.
Defined.

(** A fresh ObjectNavTask without a distance cache: not over, and
    [metrics()] raises instead of returning [{}]. *)
Lemma metrics_raises_before_done :
  ObjectNavTask.is_done (Fake.object_task None "Television" false) = false /\
  fst (ObjectNavTask.metrics (Fake.object_task None "Television" false))
  = Raise NotImplementedError.
Proof. split; vm_compute; reflexivity. Qed.

Lemma spl_bounds_witness :
  PointNavTask.spl Fake.point_no_path = (Ok (VFloat 0), Fake.point_no_path) /\
  exists r,
    PointNavTask.spl (PointNavTask.set_num_moves_made 4 Fake.point_reached)
    = (Ok (VFloat r), PointNavTask.set_num_moves_made 4 Fake.point_reached) /\
    (0 <= r)%Q /\ (r <= 1)%Q.
Proof.
  split.
  - apply (proj1 (proj1 spl_bounds Fake.point_no_path)).
    vm_compute. reflexivity.
  - apply (proj1 (proj2 (proj1 spl_bounds
             (PointNavTask.set_num_moves_made 4 Fake.point_reached)))
             Fake.cache0 (3 # 10)%Q).
    + vm_compute. reflexivity.
    + reflexivity.
    + vm_compute. reflexivity.
    + reflexivity.
    + vm_compute. discriminate.
Defined.

End NavTaskFacts.

(** * Further properties of the environment and the tasks *)

(** ** Quantization and the shape of the grids *)

Module GridFacts.
Section ShapeFacts.
Context {C : Type} `{Simulator C} `{MathLib}.

Import RoboThorEnvironment EnvObservations GridShape.

Ltac unfold_monad :=
  unfold bind, ret, raise, gets, modify, lift in *; simpl in *.

Lemma np_clip_bounds (a lo hi : Z) : lo <= hi -> lo <= np_clip a lo hi <= hi.
Proof. unfold np_clip. lia. Qed.

Lemma quantize_ok (cfg : Config) (v : Q) :
  ~ (gridSize cfg == 0)%Q -> quantize cfg v = Ok (py_round (v / gridSize cfg)).
Proof.
  intros Hg. unfold quantize.
  destruct (Qeq_bool (gridSize cfg) 0) eqn:E; [| reflexivity].
  apply Qeq_bool_eq in E. contradiction.
Qed.

Lemma py_fmod_nonneg (x m : Q) : (0 < m)%Q -> (0 <= py_fmod x m)%Q.
Proof.
  intros Hm. unfold py_fmod.
  pose proof (Qfloor_le (x / m)) as Hf.
  assert (Hx : (m * inject_Z (Qfloor (x / m)) <= m * (x / m))%Q).
  { apply Qmult_le_l; assumption. }
  assert (Hd : (m * (x / m) == x)%Q) by (field; lra).
  lra.
Qed.

Lemma py_round_nonneg (q : Q) : (0 <= q)%Q -> 0 <= py_round q.
Proof.
  intros Hq. unfold py_round.
  assert (Hf : 0 <= Qfloor q).
  { change 0 with (Qfloor 0). apply Qfloor_resp_le. exact Hq. }
  repeat match goal with |- context [if ?b then _ else _] => destruct b end; lia.
Qed.

Lemma py_fmod_below (x m : Q) : (0 < m)%Q -> (py_fmod x m < m)%Q.
Proof.
  intros Hm. unfold py_fmod.
  pose proof (Qlt_floor (x / m)) as Hf.
  assert (Hx : (m * (x / m) < m * inject_Z (Qfloor (x / m) + 1))%Q).
  { apply Qmult_lt_l; assumption. }
  assert (Hd : (m * (x / m) == x)%Q) by (field; lra).
  rewrite inject_Z_plus in Hx.
  assert (He : (m * (inject_Z (Qfloor (x / m)) + inject_Z 1)
                == m * inject_Z (Qfloor (x / m)) + m)%Q) by ring.
  rewrite He, Hd in Hx. lra.
Qed.

Lemma py_round_floor (q : Q) : Qfloor q <= py_round q <= Qfloor q + 1.
Proof.
  unfold py_round.
  repeat match goal with |- context [if ?b then _ else _] => destruct b end; lia.
Qed.

(** [round] never decreases. *)
Lemma py_round_mono (p q : Q) : (p <= q)%Q -> py_round p <= py_round q.
Proof.
  intros Hpq.
  pose proof (Qfloor_resp_le p q Hpq) as Hfl.
  destruct (Z.eq_dec (Qfloor p) (Qfloor q)) as [Heq | Hne].
  - unfold py_round. rewrite Heq.
    destruct (Qltb (p - inject_Z (Qfloor q)) (1 # 2)) eqn:Ep.
    + repeat match goal with |- context [if ?b then _ else _] => destruct b end; lia.
    + apply Qltb_ge in Ep.
      destruct (Qltb (q - inject_Z (Qfloor q)) (1 # 2)) eqn:Eq1;
        [apply Qltb_lt in Eq1; lra |].
      destruct (Qltb (1 # 2) (p - inject_Z (Qfloor q))) eqn:Ep2.
      * apply Qltb_lt in Ep2.
        destruct (Qltb (1 # 2) (q - inject_Z (Qfloor q))) eqn:Eq2; [lia |].
        apply Qltb_ge in Eq2. lra.
      * repeat match goal with |- context [if ?b then _ else _] => destruct b end; lia.
  - pose proof (py_round_floor p). pose proof (py_round_floor q). lia.
Qed.

Lemma quantized_agent_state_spec (xz_subsampling rot_subsampling : Z)
    (e : Env C) (g : Grid) :
  grids e !! last_scene_name (controller e) = Some g ->
  grid_xmin g <= grid_xmax g -> grid_zmin g <= grid_zmax g ->
  ~ (gridSize (config e) == 0)%Q ->
  (0 < rotateStepDegrees (config e) * inject_Z rot_subsampling)%Q ->
  0 < xz_subsampling ->
  exists p0 p1 r,
    quantized_agent_state xz_subsampling rot_subsampling e = (Ok (p0, p1, r), e) /\
    0 <= p0 <= (grid_xmax g - grid_xmin g) / xz_subsampling /\
    0 <= p1 <= (grid_zmax g - grid_zmin g) / xz_subsampling /\
    0 <= r <= py_round (360 / (rotateStepDegrees (config e) * inject_Z rot_subsampling)).
Proof.
  intros Hg Hx Hz Hgs Hrs Hk.
  unfold quantized_agent_state, agent_state, scene_name, lookup_grid.
  unfold_monad. rewrite Hg. simpl.
  rewrite !quantize_ok by exact Hgs. simpl.
  destruct (Qeq_bool (rotateStepDegrees (config e) * inject_Z rot_subsampling) 0) eqn:Ers.
  { apply Qeq_bool_eq in Ers. lra. }
  assert (Hk0 : (xz_subsampling =? 0) = false) by (apply Z.eqb_neq; lia).
  rewrite Hk0. simpl.
  eexists _, _, _. split; [reflexivity |].
  pose proof (np_clip_bounds (py_round (pose_x (last_agent (controller e))
                                        / gridSize (config e)))
                (grid_xmin g) (grid_xmax g) Hx) as Hcx.
  pose proof (np_clip_bounds (py_round (pose_z (last_agent (controller e))
                                        / gridSize (config e)))
                (grid_zmin g) (grid_zmax g) Hz) as Hcz.
  assert (H360 : (0 < 360)%Q) by reflexivity.
  repeat split.
  - apply Z.div_pos; lia.
  - apply Z.div_le_mono; lia.
  - apply Z.div_pos; lia.
  - apply Z.div_le_mono; lia.
  - apply py_round_nonneg. apply Qle_shift_div_l; [exact Hrs |].
    pose proof (py_fmod_nonneg
      (rot_y (pose_rotation (last_agent (controller e)))
       + rotateStepDegrees (config e) * inject_Z rot_subsampling / 2) 360
      H360) as Hb.
    rewrite Qmult_0_l. exact Hb.
  - apply py_round_mono. apply Qle_shift_div_l; [exact Hrs |].
    pose proof (py_fmod_below
      (rot_y (pose_rotation (last_agent (controller e)))
       + rotateStepDegrees (config e) * inject_Z rot_subsampling / 2) 360
      H360) as Hb.
    set (rs := (rotateStepDegrees (config e) * inject_Z rot_subsampling)%Q) in *.
    clearbody rs.
    match goal with
    | |- (?n / rs * rs <= 360)%Q =>
        assert (Hd : (n / rs * rs == n)%Q) by (field; lra)
    end.
    eapply Qle_trans; [apply Qle_lteq; right; exact Hd |].
    apply Qlt_le_weak, Hb.
Qed.

(** *** The bounding box *)

Lemma fold_min_spec (l : list Z) (a : Z) :
  (fold_left Z.min l a = a \/ fold_left Z.min l a ∈ l) /\
  fold_left Z.min l a <= a /\ Forall (fun x => fold_left Z.min l a <= x) l.
Proof.
  revert a. induction l as [| x l IH]; intros a; simpl.
  - repeat split; [left; reflexivity | lia | constructor].
  - destruct (IH (Z.min a x)) as (Hin & Hle & Hall). repeat split.
    + destruct Hin as [Heq | Hin]; [| right; right; exact Hin].
      rewrite Heq. destruct (Z.min_spec a x) as [[_ ->] | [_ ->]];
        [left; reflexivity | right; left].
    + lia.
    + constructor; [lia | exact Hall].
Qed.

Lemma fold_max_spec (l : list Z) (a : Z) :
  (fold_left Z.max l a = a \/ fold_left Z.max l a ∈ l) /\
  a <= fold_left Z.max l a /\ Forall (fun x => x <= fold_left Z.max l a) l.
Proof.
  revert a. induction l as [| x l IH]; intros a; simpl.
  - repeat split; [left; reflexivity | lia | constructor].
  - destruct (IH (Z.max a x)) as (Hin & Hle & Hall). repeat split.
    + destruct Hin as [Heq | Hin]; [| right; right; exact Hin].
      rewrite Heq. destruct (Z.max_spec a x) as [[_ ->] | [_ ->]];
        [right; left | left; reflexivity].
    + lia.
    + constructor; [lia | exact Hall].
Qed.

Lemma minimum_spec (l : list Z) (m : Z) :
  minimum l = Ok m -> m ∈ l /\ Forall (fun x => m <= x) l.
Proof.
  destruct l as [| a l]; simpl; [discriminate |].
  intros Hm. inversion Hm; subst; clear Hm.
  destruct (fold_min_spec l a) as (Hin & Hle & Hall). split.
  - destruct Hin as [-> | Hin]; [left | right; exact Hin].
  - constructor; assumption.
Qed.

Lemma maximum_spec (l : list Z) (m : Z) :
  maximum l = Ok m -> m ∈ l /\ Forall (fun x => x <= m) l.
Proof.
  destruct l as [| a l]; simpl; [discriminate |].
  intros Hm. inversion Hm; subst; clear Hm.
  destruct (fold_max_spec l a) as (Hin & Hle & Hall). split.
  - destruct Hin as [-> | Hin]; [left | right; exact Hin].
  - constructor; assumption.
Qed.

Lemma quantize_points_spec (cfg : Config) (pts : list Position) (keys : list (Z * Z)) :
  quantize_points cfg pts = Ok keys ->
  Forall2 (fun p k => quantize cfg (pos_x p) = Ok (fst k) /\
                      quantize cfg (pos_z p) = Ok (snd k)) pts keys.
Proof.
  revert keys. induction pts as [| p pts IH]; intros keys; simpl.
  - intros Hk. inversion Hk. constructor.
  - destruct (quantize cfg (pos_x p)) as [qx |] eqn:Ex; [| discriminate].
    destruct (quantize cfg (pos_z p)) as [qz |] eqn:Ez; [| discriminate].
    destruct (quantize_points cfg pts) as [rest |]; [| discriminate].
    intros Hk. inversion Hk; subst. constructor; [split; assumption | auto].
Qed.

Lemma remove_dups_length_le {A : Type} `{EqDecision A} (l : list A) :
  (length (remove_dups l) <= length l)%nat.
Proof.
  induction l as [| x l IH]; simpl; [lia |].
  destruct (decide_rel elem_of x l); simpl; lia.
Qed.

Lemma remove_dups_length_eq {A : Type} `{EqDecision A} (l : list A) :
  length (remove_dups l) = length l <-> NoDup l.
Proof.
  induction l as [| x l IH]; simpl.
  - split; [constructor | reflexivity].
  - pose proof (remove_dups_length_le l) as Hle.
    destruct (decide_rel elem_of x l) as [Hin | Hnin]; simpl.
    + split; [lia |]. intros Hnd. apply NoDup_cons in Hnd as [Hx _]. contradiction.
    + split.
      * intros Hlen. apply NoDup_cons. split; [exact Hnin |]. apply IH. lia.
      * intros Hnd. apply NoDup_cons in Hnd as [_ Hnd]. apply IH in Hnd. lia.
Qed.

Lemma initialize_grid_dimensions_spec (pts : list Position) (e e' : Env C)
    (xmin xmax zmin zmax : Z) :
  initialize_grid_dimensions pts e = (Ok (xmin, xmax, zmin, zmax), e') ->
  e' = e /\
  exists keys,
    quantize_points (config e) pts = Ok keys /\ NoDup keys /\
    xmin <= xmax /\ zmin <= zmax /\
    Forall (fun k => xmin <= fst k <= xmax /\ zmin <= snd k <= zmax) keys /\
    xmin ∈ (fst <$> keys) /\ xmax ∈ (fst <$> keys) /\
    zmin ∈ (snd <$> keys) /\ zmax ∈ (snd <$> keys).
Proof.
  unfold initialize_grid_dimensions. intros Hrun.
  apply bind_ok_inv in Hrun as (cfg & e0 & Hcfg & Hrun).
  unfold gets in Hcfg. inversion Hcfg; subst; clear Hcfg.
  apply bind_ok_inv in Hrun as (keys & e1 & Hkeys & Hrun).
  unfold lift in Hkeys. inversion Hkeys as [[Hq He]]; subst e1; clear Hkeys.
  destruct (negb (length pts =? length (remove_dups keys))%nat) eqn:Elen;
    [unfold raise in Hrun; discriminate |].
  apply negb_false_iff, Nat.eqb_eq in Elen.
  apply bind_ok_inv in Hrun as (a & e1 & Ha & Hrun).
  unfold lift in Ha. inversion Ha as [[Hmin He]]; subst e1; clear Ha.
  apply bind_ok_inv in Hrun as (b & e1 & Hb & Hrun).
  unfold lift in Hb. inversion Hb as [[Hmax He]]; subst e1; clear Hb.
  apply bind_ok_inv in Hrun as (c & e1 & Hc & Hrun).
  unfold lift in Hc. inversion Hc as [[Hzmin He]]; subst e1; clear Hc.
  apply bind_ok_inv in Hrun as (d & e1 & Hd & Hrun).
  unfold lift in Hd. inversion Hd as [[Hzmax He]]; subst e1; clear Hd.
  unfold ret in Hrun. inversion Hrun; subst; clear Hrun.
  split; [reflexivity |]. exists keys. split; [exact Hq |].
  assert (Hlen : length keys = length pts).
  { apply quantize_points_spec in Hq. symmetry. eapply Forall2_length, Hq. }
  assert (Hnd : NoDup keys) by (apply remove_dups_length_eq; lia).
  apply minimum_spec in Hmin as [Hmin_in Hmin_all].
  apply maximum_spec in Hmax as [Hmax_in Hmax_all].
  apply minimum_spec in Hzmin as [Hzmin_in Hzmin_all].
  apply maximum_spec in Hzmax as [Hzmax_in Hzmax_all].
  assert (Hsame_x : forall x, x ∈ (fst <$> remove_dups keys) <-> x ∈ (fst <$> keys)).
  { intros x. rewrite !list_elem_of_fmap.
    split; intros (k & -> & Hk); exists k; (split; [reflexivity |]);
      apply elem_of_remove_dups; exact Hk. }
  assert (Hsame_z : forall x, x ∈ (snd <$> remove_dups keys) <-> x ∈ (snd <$> keys)).
  { intros x. rewrite !list_elem_of_fmap.
    split; intros (k & -> & Hk); exists k; (split; [reflexivity |]);
      apply elem_of_remove_dups; exact Hk. }
  rewrite Forall_forall in Hmin_all, Hmax_all, Hzmin_all, Hzmax_all.
  split; [exact Hnd |].
  split; [apply Hmax_all; exact Hmin_in |].
  split; [apply Hzmax_all; exact Hzmin_in |].
  split.
  - apply Forall_forall. intros k Hk.
    assert (Hkx : fst k ∈ (fst <$> remove_dups keys))
      by (apply Hsame_x, list_elem_of_fmap; eauto).
    assert (Hkz : snd k ∈ (snd <$> remove_dups keys))
      by (apply Hsame_z, list_elem_of_fmap; eauto).
    repeat split; auto.
  - repeat split; [apply Hsame_x | apply Hsame_x | apply Hsame_z | apply Hsame_z];
      assumption.
Qed.

(** X3. How [initialize_grid_dimensions] fails. Without reachable points
    it raises [ValueError] (the minimum of nothing); with a zero grid
    size and at least one point, [ZeroDivisionError]; and when two
    reachable points quantize to the same cell its assertion fails. In
    each case the environment is left as it was. *)
Theorem initialize_grid_dimensions_errors (pts : list Position) (e : Env C) :
  (pts = [] -> initialize_grid_dimensions pts e = (Raise ValueError, e)) /\
  (pts <> [] -> (gridSize (config e) == 0)%Q ->
   initialize_grid_dimensions pts e = (Raise ZeroDivisionError, e)) /\
  (forall keys, quantize_points (config e) pts = Ok keys -> ~ NoDup keys ->
   initialize_grid_dimensions pts e = (Raise AssertionError, e)).
Proof.
  split; [| split].
  - intros ->. reflexivity.
  - intros Hne Hz. destruct pts as [| p pts]; [congruence |].
    unfold initialize_grid_dimensions. unfold_monad. unfold quantize.
    apply Qeq_bool_iff in Hz. rewrite Hz. reflexivity.
  - intros keys Hq Hnd. unfold initialize_grid_dimensions. unfold_monad.
    rewrite Hq. simpl.
    assert (Hlen : length keys = length pts).
    { apply quantize_points_spec in Hq. symmetry. eapply Forall2_length, Hq. }
    destruct (length pts =? length (remove_dups keys))%nat eqn:E; [| reflexivity].
    apply Nat.eqb_eq in E. exfalso. apply Hnd, remove_dups_length_eq. lia.
Qed.

(** *** Shapes *)

Lemma np_full_shape (nx nz : Z) (v : Q) (a : array2) :
  np_full nx nz v = Ok a -> has_shape a nx nz.
Proof.
  unfold np_full. destruct ((nx <? 0) || (nz <? 0)); [discriminate |].
  intros Ha. inversion Ha; subst. split.
  - apply length_replicate.
  - apply Forall_replicate. apply length_replicate.
Qed.

Lemma np_full_ok (nx nz : Z) (v : Q) :
  0 <= nx -> 0 <= nz -> exists a, np_full nx nz v = Ok a.
Proof.
  intros Hx Hz. unfold np_full.
  assert (Hb : (nx <? 0) || (nz <? 0) = false)
    by (apply orb_false_iff; split; apply Z.ltb_ge; lia).
  rewrite Hb. eauto.
Qed.

Lemma np_set2_shape (a a' : array2) (i j : Z) (v : Q) (nx nz : Z) :
  np_set2 a i j v = Ok a' -> has_shape a nx nz -> has_shape a' nx nz.
Proof.
  unfold np_set2. intros Hs [Hlen Hrows].
  destruct (py_norm_index (length a) i) as [ki |]; [| discriminate].
  destruct (a !! ki) as [row |] eqn:Er; [| discriminate].
  destruct (py_norm_index (length row) j) as [kj |]; [| discriminate].
  inversion Hs; subst; clear Hs. split.
  - rewrite length_insert. exact Hlen.
  - apply Forall_insert; [exact Hrows |]. rewrite length_insert.
    rewrite Forall_forall in Hrows. apply Hrows.
    eapply list_elem_of_lookup_2, Er.
Qed.

Lemma py_norm_index_in_range (n : nat) (i : Z) :
  0 <= i < Z.of_nat n -> py_norm_index n i = Some (Z.to_nat i).
Proof.
  intros Hi. unfold py_norm_index.
  assert (Hb : (0 <=? i) && (i <? Z.of_nat n) = true)
    by (apply andb_true_iff; split; [apply Z.leb_le | apply Z.ltb_lt]; lia).
  rewrite Hb. reflexivity.
Qed.

Lemma shape_row (a : array2) (nx nz i : Z) :
  has_shape a nx nz -> 0 <= i < nx ->
  exists row, a !! Z.to_nat i = Some row /\ length row = Z.to_nat nz.
Proof.
  intros [Hlen Hrows] Hi.
  destruct (lookup_lt_is_Some_2 a (Z.to_nat i)) as [row Hrow]; [lia |].
  exists row. split; [exact Hrow |].
  rewrite Forall_forall in Hrows. apply Hrows.
  eapply list_elem_of_lookup_2, Hrow.
Qed.

(** Inside the shape, reading and writing a cell cannot fail. *)
Lemma np_get2_in_shape (a : array2) (nx nz i j : Z) :
  has_shape a nx nz -> 0 <= i < nx -> 0 <= j < nz ->
  exists v, np_get2 a i j = Ok v.
Proof.
  intros Hs Hi Hj. pose proof Hs as [Hlen _].
  destruct (shape_row a nx nz i Hs Hi) as (row & Hrow & Hrl).
  destruct (lookup_lt_is_Some_2 row (Z.to_nat j)) as [v Hv]; [lia |].
  exists v. apply np_get2_inv. exists (Z.to_nat i), (Z.to_nat j), row.
  repeat split; auto; apply py_norm_index_in_range; lia.
Qed.

Lemma np_set2_in_shape (a : array2) (nx nz i j : Z) (v : Q) :
  has_shape a nx nz -> 0 <= i < nx -> 0 <= j < nz ->
  exists a', np_set2 a i j v = Ok a'.
Proof.
  intros Hs Hi Hj. pose proof Hs as [Hlen _].
  destruct (shape_row a nx nz i Hs Hi) as (row & Hrow & Hrl).
  unfold np_set2.
  rewrite (py_norm_index_in_range (length a) i) by lia. rewrite Hrow.
  rewrite (py_norm_index_in_range (length row) j) by lia. eauto.
Qed.

(** *** Well-formed grids stay well formed *)

Lemma env_well_formed_ext (e e' : Env C) :
  grids e' = grids e -> env_well_formed e -> env_well_formed e'.
Proof. unfold env_well_formed. intros ->. auto. Qed.

Lemma well_formed_insert_array (e : Env C) (scene : string) (g : Grid)
    (t : string) (a : array2) :
  env_well_formed e -> grid_well_formed g ->
  has_shape a (grid_xmax g - grid_xmin g + 1) (grid_zmax g - grid_zmin g + 1) ->
  env_well_formed
    (set_grids (<[scene := set_cells (<[t := a]> (grid_cells g)) g]> (grids e)) e).
Proof.
  intros Hwf (Hx & Hz & Hcells) Ha scene' g'. simpl.
  destruct (decide (scene' = scene)) as [-> | Hne].
  - rewrite lookup_insert_eq. intros Hg. inversion Hg; subst; clear Hg.
    unfold grid_well_formed. simpl. split; [exact Hx |]. split; [exact Hz |].
    intros t' a'. destruct (decide (t' = t)) as [-> | Hnet].
    + rewrite lookup_insert_eq. intros Heq. inversion Heq; subst. exact Ha.
    + rewrite lookup_insert_ne by congruence. apply Hcells.
  - rewrite lookup_insert_ne by congruence. apply Hwf.
Qed.

Lemma store_cell_well_formed (scene t : string) (i j : Z) (v : Q) :
  preserves env_well_formed (store_cell (C := C) scene t i j v).
Proof.
  intros e Hwf. unfold store_cell.
  unfold bind at 1. unfold lookup_grid at 1.
  destruct (grids e !! scene) as [g |] eqn:Hg; [| exact Hwf].
  unfold bind at 1. rewrite (read_only_run _ e (EnvFacts.read_only_lookup_cells scene t)).
  destruct (fst (lookup_cells scene t e)) as [a |] eqn:Ha; [| exact Hwf].
  apply EnvFacts.lookup_cells_inv in Ha as (g' & Hg' & Ha).
  assert (g' = g) by congruence; subst g'.
  unfold_monad.
  destruct (np_set2 a i j v) as [a' |] eqn:Eset; simpl; [| exact Hwf].
  pose proof (Hwf scene g Hg) as Hgwf.
  apply well_formed_insert_array; auto.
  eapply np_set2_shape; [exact Eset |]. destruct Hgwf as (_ & _ & Hc). eauto.
Qed.

Lemma path_corners_well_formed (t : string) :
  preserves env_well_formed (path_corners (C := C) t).
Proof.
  intros e Hwf. eapply env_well_formed_ext; [| exact Hwf].
  apply (proj1 (EnvFacts.path_corners_frame t e)).
Qed.

Lemma access_grid_well_formed (t : string) :
  preserves env_well_formed (access_grid (C := C) t).
Proof.
  intros e Hwf. unfold access_grid, scene_name.
  unfold bind at 1. unfold gets at 1.
  unfold bind at 1. unfold lookup_grid at 1.
  destruct (grids e !! last_scene_name (controller e)) as [g |] eqn:Eg; [| exact Hwf].
  match goal with
  | |- context [bind (quantized_agent_state 1 1) ?k] =>
      assert (Htail : preserves env_well_formed (bind (quantized_agent_state 1 1) k))
  end.
  { repeat first
      [ apply path_corners_well_formed
      | apply store_cell_well_formed
      | apply preserves_read_only;
          first [ apply EnvFacts.read_only_lookup_cells
                | apply EnvFacts.read_only_quantized_agent_state ]
      | preserves_step ]. }
  unfold bind at 1.
  destruct (grid_cells g !! t) as [a |] eqn:Et.
  - unfold ret at 1. apply Htail, Hwf.
  - unfold bind at 1. unfold lift at 1.
    destruct (np_full _ _ _) as [a |] eqn:Efull; [| exact Hwf].
    unfold modify at 1. apply Htail.
    apply well_formed_insert_array;
      [exact Hwf | exact (Hwf _ _ Eg) | exact (np_full_shape _ _ _ _ Efull)].
Qed.

Lemma initialize_grid_well_formed :
  preserves env_well_formed (initialize_grid (C := C)).
Proof.
  intros e Hwf. unfold initialize_grid, scene_name.
  unfold bind at 1. unfold gets at 1. unfold bind at 1. unfold gets at 1.
  destruct (grids e !! last_scene_name (controller e)) as [g |] eqn:Eg; [exact Hwf |].
  unfold bind at 1.
  pose proof (EnvFacts.keeps_grids_run _ e EnvFacts.keeps_grids_reachable_points) as Hgr.
  destruct (currently_reachable_points e) as [[pts | ex] e1]; simpl in Hgr;
    [| eapply env_well_formed_ext; eauto].
  assert (Hwf1 : env_well_formed e1) by (eapply env_well_formed_ext; eauto).
  unfold bind at 1.
  destruct (initialize_grid_dimensions pts e1) as [[[[[xmin xmax] zmin] zmax] | ex] e2]
    eqn:Edims.
  - apply initialize_grid_dimensions_spec in Edims
      as (-> & keys & _ & _ & Hx & Hz & _).
    unfold_monad. intros scene g. simpl.
    destruct (decide (scene = last_scene_name (controller e1))) as [-> | Hne].
    + rewrite lookup_insert_eq. intros Hg. inversion Hg; subst.
      unfold grid_well_formed. simpl. split; [exact Hx |]. split; [exact Hz |].
      intros t a. rewrite lookup_empty. discriminate.
    + rewrite lookup_insert_ne by congruence. apply Hwf1.
  - pose proof (EnvFacts.read_only_initialize_grid_dimensions pts e1) as Hro.
    rewrite Edims in Hro. simpl in Hro. subst e2. exact Hwf1.
Qed.

Lemma np_get2_full (nx nz : Z) (v w : Q) (a : array2) (i j : Z) :
  np_full nx nz v = Ok a -> np_get2 a i j = Ok w -> w = v.
Proof.
  unfold np_full. destruct ((nx <? 0) || (nz <? 0)); [discriminate |].
  intros Ha Hg. inversion Ha; subst; clear Ha.
  apply np_get2_inv in Hg as (ki & kj & row & _ & Hrow & _ & Hw).
  apply lookup_replicate in Hrow as [-> _].
  apply lookup_replicate in Hw as [-> _]. reflexivity.
Qed.

(** What [path_corners] makes of the answer of the query. *)
Lemma path_corners_result (t : string) (e : Env C) :
  fst (path_corners t e)
  = match path_query t e with
    | Ok p => Ok p
    | Raise ValueError => Ok []
    | Raise ex => Raise ex
    end.
Proof.
  unfold path_query, path_corners, agent_state, try_except_finally,
    shortest_path_query, step.
  unfold_monad.
  destruct (get_shortest_path_to_object_type _ _ _ _) as [r c'].
  destruct r as [p | []]; reflexivity.
Qed.

Lemma store_cell_ok (scene t : string) (i j : Z) (v : Q) (e : Env C) (g : Grid)
    (a : array2) :
  grids e !! scene = Some g -> grid_cells g !! t = Some a ->
  has_shape a (grid_xmax g - grid_xmin g + 1) (grid_zmax g - grid_zmin g + 1) ->
  0 <= i < grid_xmax g - grid_xmin g + 1 ->
  0 <= j < grid_zmax g - grid_zmin g + 1 ->
  exists e', store_cell scene t i j v e = (Ok tt, e') /\
             sim_calls e' = sim_calls e /\ controller e' = controller e.
Proof.
  intros Hg Ha Hs Hi Hj.
  destruct (np_set2_in_shape a _ _ i j v Hs Hi Hj) as [a' Hset].
  unfold store_cell. unfold bind at 1. unfold lookup_grid at 1. rewrite Hg.
  unfold bind at 1. rewrite (EnvFacts.lookup_cells_run _ _ _ _ _ Hg Ha).
  unfold_monad. rewrite Hset. simpl. eauto.
Qed.

Lemma current_cell_spec (e : Env C) (g : Grid) :
  grids e !! last_scene_name (controller e) = Some g ->
  grid_xmin g <= grid_xmax g -> grid_zmin g <= grid_zmax g ->
  ~ (gridSize (config e) == 0)%Q -> (0 < rotateStepDegrees (config e))%Q ->
  exists p0 p1,
    current_cell e = Some (p0, p1) /\
    0 <= p0 < grid_xmax g - grid_xmin g + 1 /\
    0 <= p1 < grid_zmax g - grid_zmin g + 1.
Proof.
  intros Hg Hx Hz Hgs Hrs.
  assert (Hrs1 : (0 < rotateStepDegrees (config e) * inject_Z 1)%Q).
  { change (inject_Z 1) with 1%Q. lra. }
  destruct (quantized_agent_state_spec 1 1 e g Hg Hx Hz Hgs Hrs1 ltac:(lia))
    as (p0 & p1 & r & Hq & Hp0 & Hp1 & _).
  rewrite Z.div_1_r in Hp0, Hp1.
  exists p0, p1. unfold current_cell. rewrite Hq. simpl.
  repeat split; lia.
Qed.

(** A miss, step by step: one query, one teleport back, one cell written. *)
Lemma access_grid_miss (t : string) (e : Env C) (g : Grid) (p0 p1 : Z) :
  env_well_formed e ->
  grids e !! last_scene_name (controller e) = Some g ->
  ~ (gridSize (config e) == 0)%Q -> (0 < rotateStepDegrees (config e))%Q ->
  scene_changes_only_on_reset -> query_fails_only_without_path ->
  current_cell e = Some (p0, p1) ->
  Qltb (cell_or_unknown e (last_scene_name (controller e)) t p0 p1) (- (3 # 2))%Q = true ->
  exists e',
    access_grid t e = (Ok (distance_of_answer (path_query t e)), e') /\
    env_well_formed e' /\
    sim_calls e' = sim_calls e ++ lookup_calls t e /\
    grid_value e' (last_scene_name (controller e)) t p0 p1
    = Some (distance_of_answer (path_query t e)).
Proof.
  intros Hwf Hg Hgs Hrs Hsim Hquery Hcell Hlt.
  pose proof (Hwf _ _ Hg) as (Hx & Hz & Hshape).
  destruct (current_cell_spec e g Hg Hx Hz Hgs Hrs) as (q0 & q1 & Hcell' & Hp0 & Hp1).
  assert (q0 = p0 /\ q1 = p1) as [-> ->] by (split; congruence). clear Hcell'.
  unfold access_grid, scene_name.
  unfold bind at 1. unfold gets at 1.
  unfold bind at 1. unfold lookup_grid at 1. rewrite Hg.
  match goal with
  | |- context [bind (quantized_agent_state 1 1) ?k] =>
      assert (Htail : forall e1 g1 a v,
        env_well_formed e1 ->
        controller e1 = controller e ->
        sim_calls e1 = sim_calls e ->
        grids e1 !! last_scene_name (controller e) = Some g1 ->
        grid_bounds g1 = grid_bounds g ->
        grid_cells g1 !! t = Some a ->
        current_cell e1 = Some (p0, p1) ->
        np_get2 a p0 p1 = Ok v -> Qltb v (- (3 # 2))%Q = true ->
        exists e',
          bind (quantized_agent_state 1 1) k e1
          = (Ok (distance_of_answer (path_query t e)), e') /\
          env_well_formed e' /\
          sim_calls e' = sim_calls e ++ lookup_calls t e /\
          grid_value e' (last_scene_name (controller e)) t p0 p1
          = Some (distance_of_answer (path_query t e)))
  end.
  { intros e1 g1 a v Hwf1 Hc1 Hcalls1 Hg1 Hb1 Ha Hcell1 Hget Hv.
    pose proof (Hwf1 _ _ Hg1) as (_ & _ & Hshape1).
    specialize (Hshape1 t a Ha).
    unfold grid_bounds in Hb1. inversion Hb1 as [[Hb_x0 Hb_x1 Hb_z0 Hb_z1]].
    apply EnvFacts.current_cell_inv in Hcell1 as [r Hq].
    unfold bind at 1. rewrite Hq. cbv iota beta.
    unfold bind at 1. unfold gets at 1. rewrite Hc1.
    unfold bind at 1. rewrite (EnvFacts.lookup_cells_run _ _ _ _ _ Hg1 Ha).
    unfold bind at 1. unfold lift at 1. rewrite Hget, Hv.
    unfold bind at 1.
    pose proof (path_corners_result t e1) as Hres.
    pose proof (EnvFacts.path_corners_frame t e1) as [Hgr _].
    pose proof (EnvFacts.path_corners_scene t e1 Hsim) as Hsc.
    pose proof (EnvFacts.path_corners_calls t e1) as Hpc.
    assert (Hpq : path_query t e1 = path_query t e)
      by (unfold path_query; rewrite Hc1; reflexivity).
    rewrite Hpq in Hres. rewrite Hc1 in Hsc, Hpc. rewrite Hcalls1 in Hpc.
    destruct (path_corners t e1) as [rc e2]. simpl in Hres, Hgr, Hsc, Hpc.
    assert (Hdist : exists corners, rc = Ok corners /\
              match path_corners_to_dist corners with
              | FFin d => d
              | FInf => (-1)%Q
              end = distance_of_answer (path_query t e)).
    { subst rc. destruct (path_query t e) as [p | ex] eqn:Epq.
      - exists p. split; [reflexivity |]. destruct p; reflexivity.
      - unfold path_query in Epq. apply Hquery in Epq. subst ex.
        exists []. split; reflexivity. }
    destruct Hdist as (corners & -> & Hd). rewrite Hd.
    unfold bind at 1. unfold gets at 1. rewrite Hsc.
    assert (Hg2 : grids e2 !! last_scene_name (controller e) = Some g1)
      by (rewrite Hgr; exact Hg1).
    destruct (store_cell_ok (last_scene_name (controller e)) t p0 p1
                (distance_of_answer (path_query t e)) e2 g1 a Hg2 Ha Hshape1
                ltac:(lia) ltac:(lia)) as (e3 & Hst & Hcalls3 & _).
    unfold bind at 1. rewrite Hst. unfold ret.
    exists e3. split; [reflexivity |]. split; [| split].
    - eapply (preserves_run env_well_formed); [apply store_cell_well_formed | exact Hst |].
      eapply env_well_formed_ext; eauto.
    - rewrite Hcalls3, Hpc. reflexivity.
    - apply EnvFacts.store_cell_stores in Hst as [Hst _]. exact Hst. }
  unfold bind at 1.
  destruct (grid_cells g !! t) as [a |] eqn:Et.
  - unfold ret at 1.
    destruct (np_get2_in_shape a _ _ p0 p1 (Hshape t a Et) Hp0 Hp1) as [v Hv].
    assert (Hold : cell_or_unknown e (last_scene_name (controller e)) t p0 p1 = v).
    { unfold cell_or_unknown, grid_value. rewrite Hg, Et, Hv. reflexivity. }
    rewrite Hold in Hlt.
    apply (Htail e g a v); auto.
  - destruct (np_full_ok (grid_xmax g - grid_xmin g + 1)
                (grid_zmax g - grid_zmin g + 1) (-2)%Q ltac:(lia) ltac:(lia))
      as [a Hfull].
    unfold bind at 1. unfold lift at 1. rewrite Hfull.
    unfold modify at 1.
    pose proof (np_full_shape _ _ _ _ Hfull) as Hsa.
    destruct (np_get2_in_shape a _ _ p0 p1 Hsa Hp0 Hp1) as [v Hv].
    assert (v = (-2)%Q) by (eapply np_get2_full; eauto). subst v.
    eapply (Htail _ (set_cells (<[t := a]> (grid_cells g)) g) a (-2)%Q).
    + apply well_formed_insert_array; auto.
      unfold grid_well_formed. auto.
    + reflexivity.
    + reflexivity.
    + simpl. apply lookup_insert_eq.
    + reflexivity.
    + simpl. apply lookup_insert_eq.
    + rewrite <- Hcell. apply EnvFacts.current_cell_depends; try reflexivity.
      simpl. rewrite lookup_insert_eq, Hg. reflexivity.
    + exact Hv.
    + reflexivity.
Qed.

(** What [initialize_grid] does: nothing when the scene has a grid;
    when it has none, either it raises and [grids] is as before, or it
    adds one fresh grid for the scene the controller is in afterwards. *)
Lemma initialize_grid_cases (e : Env C) :
  (initialize_grid e = (Ok tt, e) /\
   is_Some (grids e !! last_scene_name (controller e))) \/
  (grids e !! last_scene_name (controller e) = None /\
   exists ex, fst (initialize_grid e) = Raise ex /\
              grids (snd (initialize_grid e)) = grids e) \/
  (fst (initialize_grid e) = Ok tt /\
   grids e !! last_scene_name (controller e) = None /\
   exists xmin xmax zmin zmax,
     xmin <= xmax /\ zmin <= zmax /\
     grids (snd (initialize_grid e))
     = <[last_scene_name (controller (snd (initialize_grid e)))
         := mkGrid ∅ xmin xmax zmin zmax]> (grids e)).
Proof.
  destruct (initialize_grid e) as [r e'] eqn:Hrun. simpl.
  unfold initialize_grid, scene_name in Hrun.
  unfold bind at 1 in Hrun. unfold gets at 1 in Hrun.
  unfold bind at 1 in Hrun. unfold gets at 1 in Hrun.
  destruct (grids e !! last_scene_name (controller e)) as [g |] eqn:Eg.
  { unfold ret in Hrun. inversion Hrun; subst. left. split; [reflexivity | eauto]. }
  right.
  unfold bind at 1 in Hrun.
  pose proof (EnvFacts.keeps_grids_run _ e EnvFacts.keeps_grids_reachable_points) as Hgr.
  destruct (currently_reachable_points e) as [[pts | ex] e1]; simpl in Hgr;
    [| inversion Hrun; subst; left; eauto].
  unfold bind at 1 in Hrun.
  destruct (initialize_grid_dimensions pts e1) as [[[[[xmin xmax] zmin] zmax] | ex] e2]
    eqn:Edims.
  - apply initialize_grid_dimensions_spec in Edims
      as (-> & keys & _ & _ & Hx & Hz & _).
    unfold_monad. inversion Hrun; subst; clear Hrun.
    right. split; [reflexivity |]. split; [reflexivity |].
    exists xmin, xmax, zmin, zmax. simpl. rewrite Hgr. auto.
  - pose proof (EnvFacts.read_only_initialize_grid_dimensions pts e1) as Hro.
    rewrite Edims in Hro. simpl in Hro. subst e2.
    inversion Hrun; subst. left. eauto.
Qed.

(** [reset] is some bookkeeping that leaves [grids] alone, followed, if
    that did not raise, by [initialize_grid]. *)
Lemma bind_seq_run {S A B : Type} (m : M S A) (k : M S B) (s : S) :
  exists s1,
    (exists a, m s = (Ok a, s1) /\ bind m (fun _ => k) s = k s1) \/
    (exists ex, m s = (Raise ex, s1) /\ bind m (fun _ => k) s = (Raise ex, s1)).
Proof.
  unfold bind. destruct (m s) as [[a | ex] s1]; exists s1; eauto.
Qed.

Lemma reset_split (scene : option string) (e : Env C) :
  reset scene e = bind (reset_prefix scene) (fun _ => initialize_grid) e.
Proof. reflexivity. Qed.

Lemma reset_prefix_grids (scene : option string) (e : Env C) :
  preserves (fun e0 => grids e0 = grids e) (reset_prefix scene).
Proof.
  assert (Hro : forall A (m : M (Env C) A), read_only m ->
            preserves (fun e0 => grids e0 = grids e) m)
    by (intros A m Hm; apply preserves_read_only, Hm).
  unfold reset_prefix, return_to_known_good_location.
  repeat first
    [ apply preserves_bind; [| intros ?]
    | apply preserves_modify; intros ? Hx; exact Hx
    | match goal with
      | |- preserves _ (if ?b then _ else _) => destruct b
      | |- preserves _ (match ?t with _ => _ end) => destruct t
      end
    | solve [apply Hro; unfold last_action_success, agent_state, scene_name, gets;
             intros ?; reflexivity]
    | apply (EnvFacts.keeps_grids_step _ (grids e))
    | apply preserves_raise | apply preserves_ret ].
Qed.

Lemma reset_run (scene : option string) (e : Env C) :
  exists e1, grids e1 = grids e /\
    (reset scene e = initialize_grid e1 \/ exists ex, reset scene e = (Raise ex, e1)).
Proof.
  rewrite reset_split.
  destruct (bind_seq_run (reset_prefix scene) initialize_grid e)
    as [e1 [[a [Hp Hr]] | [ex [Hp Hr]]]];
    exists e1; (split; [| rewrite Hr; eauto]);
    pose proof (reset_prefix_grids scene e e eq_refl) as Hg;
    rewrite Hp in Hg; exact Hg.
Qed.

Lemma reset_well_formed (scene : option string) :
  preserves env_well_formed (reset (C := C) scene).
Proof.
  intros e Hwf.
  destruct (reset_run scene e) as (e1 & Hg & [Hr | [ex Hr]]); rewrite Hr.
  - apply initialize_grid_well_formed. eapply env_well_formed_ext; eauto.
  - simpl. eapply env_well_formed_ext; eauto.
Qed.

Lemma reset_has_grid (scene : option string) (e : Env C) :
  fst (reset scene e) = Ok tt ->
  is_Some (grids (snd (reset scene e))
             !! last_scene_name (controller (snd (reset scene e)))).
Proof.
  destruct (reset_run scene e) as (e1 & Hg & [Hr | [ex Hr]]); rewrite Hr;
    [| discriminate].
  intros Hok.
  destruct (initialize_grid_cases e1)
    as [[Hrun Hsome] | [(_ & ex & Hex & _) | (_ & _ & xmin & xmax & zmin & zmax & _ & _ & Hins)]].
  - rewrite Hrun. exact Hsome.
  - congruence.
  - rewrite Hins, lookup_insert_eq. eauto.
Qed.

(** *** What the cells hold *)

Lemma distances_valid_ext (e e' : Env C) :
  grids e' = grids e -> distances_valid e -> distances_valid e'.
Proof. unfold distances_valid. intros ->. auto. Qed.

Lemma np_full_entries (nx nz : Z) (v : Q) (a : array2) (P : Q -> Prop) :
  np_full nx nz v = Ok a -> P v -> Forall (Forall P) a.
Proof.
  unfold np_full. destruct ((nx <? 0) || (nz <? 0)); [discriminate |].
  intros Ha Hv. inversion Ha; subst.
  apply Forall_replicate, Forall_replicate, Hv.
Qed.

Lemma np_set2_entries (a a' : array2) (i j : Z) (v : Q) (P : Q -> Prop) :
  np_set2 a i j v = Ok a' -> P v -> Forall (Forall P) a -> Forall (Forall P) a'.
Proof.
  unfold np_set2. intros Hs Hv Hall.
  destruct (py_norm_index (length a) i) as [ki |]; [| discriminate].
  destruct (a !! ki) as [row |] eqn:Er; [| discriminate].
  destruct (py_norm_index (length row) j) as [kj |]; [| discriminate].
  inversion Hs; subst; clear Hs.
  apply Forall_insert; [exact Hall |].
  apply Forall_insert; [| exact Hv].
  rewrite Forall_forall in Hall. apply Hall. eapply list_elem_of_lookup_2, Er.
Qed.

Lemma np_get2_entry (a : array2) (i j : Z) (v : Q) (P : Q -> Prop) :
  np_get2 a i j = Ok v -> Forall (Forall P) a -> P v.
Proof.
  intros Hg Hall. apply np_get2_inv in Hg as (ki & kj & row & _ & Hrow & _ & Hv).
  rewrite Forall_forall in Hall.
  assert (Hr : Forall P row) by (apply Hall; eapply list_elem_of_lookup_2, Hrow).
  rewrite Forall_forall in Hr. apply Hr. eapply list_elem_of_lookup_2, Hv.
Qed.

Lemma distances_valid_insert_array (e : Env C) (scene : string) (g : Grid)
    (t : string) (a : array2) :
  distances_valid e -> grids e !! scene = Some g ->
  Forall (Forall distance_entry) a ->
  distances_valid
    (set_grids (<[scene := set_cells (<[t := a]> (grid_cells g)) g]> (grids e)) e).
Proof.
  intros Hv Hg Ha scene' g' t' a'. simpl.
  destruct (decide (scene' = scene)) as [-> | Hne].
  - rewrite lookup_insert_eq. intros Heq. inversion Heq; subst; clear Heq. simpl.
    destruct (decide (t' = t)) as [-> | Hnet].
    + rewrite lookup_insert_eq. intros Heq. inversion Heq; subst. exact Ha.
    + rewrite lookup_insert_ne by congruence. apply (Hv _ _ _ _ Hg).
  - rewrite lookup_insert_ne by congruence. apply Hv.
Qed.

Lemma store_cell_distances_valid (scene t : string) (i j : Z) (v : Q) :
  distance_entry v ->
  preserves distances_valid (store_cell (C := C) scene t i j v).
Proof.
  intros Hentry e Hv. unfold store_cell.
  unfold bind at 1. unfold lookup_grid at 1.
  destruct (grids e !! scene) as [g |] eqn:Hg; [| exact Hv].
  unfold bind at 1. rewrite (read_only_run _ e (EnvFacts.read_only_lookup_cells scene t)).
  destruct (fst (lookup_cells scene t e)) as [a |] eqn:Ha; [| exact Hv].
  apply EnvFacts.lookup_cells_inv in Ha as (g' & Hg' & Ha).
  assert (g' = g) by congruence; subst g'.
  unfold_monad.
  destruct (np_set2 a i j v) as [a' |] eqn:Eset; simpl; [| exact Hv].
  apply distances_valid_insert_array; auto.
  eapply np_set2_entries; eauto.
Qed.

Lemma stored_distance_entry (corners : list Position) :
  distance_entry match path_corners_to_dist corners with
                 | FInf => (-1)%Q
                 | FFin d => d
                 end.
Proof.
  unfold distance_entry. destruct corners as [| c0 rest]; simpl.
  - right. left. reflexivity.
  - right. right. apply EnvFacts.sum_segments_nonneg. lra.
Qed.

Lemma access_grid_distances_valid (t : string) :
  preserves distances_valid (access_grid (C := C) t).
Proof.
  intros e Hv. unfold access_grid, scene_name.
  unfold bind at 1. unfold gets at 1.
  unfold bind at 1. unfold lookup_grid at 1.
  destruct (grids e !! last_scene_name (controller e)) as [g |] eqn:Eg; [| exact Hv].
  match goal with
  | |- context [bind (quantized_agent_state 1 1) ?k] =>
      assert (Htail : preserves distances_valid (bind (quantized_agent_state 1 1) k))
  end.
  { repeat first
      [ apply store_cell_distances_valid, stored_distance_entry
      | intros e0 Hv0; eapply distances_valid_ext;
          [apply (proj1 (EnvFacts.path_corners_frame t e0)) | exact Hv0]
      | apply preserves_read_only;
          first [ apply EnvFacts.read_only_lookup_cells
                | apply EnvFacts.read_only_quantized_agent_state ]
      | preserves_step ]. }
  unfold bind at 1.
  destruct (grid_cells g !! t) as [a |] eqn:Et.
  - unfold ret at 1. apply Htail, Hv.
  - unfold bind at 1. unfold lift at 1.
    destruct (np_full _ _ _) as [a |] eqn:Efull; [| exact Hv].
    unfold modify at 1. apply Htail.
    apply distances_valid_insert_array; [exact Hv | exact Eg |].
    eapply np_full_entries; [exact Efull |]. left. reflexivity.
Qed.

Lemma access_grid_range (t : string) (e e' : Env C) (d : Q) :
  scene_changes_only_on_reset -> distances_valid e ->
  access_grid t e = (Ok d, e') ->
  distances_valid e' /\ (d == -1 \/ 0 <= d)%Q.
Proof.
  intros Hsim Hv Hrun.
  pose proof (access_grid_distances_valid t e Hv) as Hv'. rewrite Hrun in Hv'.
  simpl in Hv'. split; [exact Hv' |].
  destruct (EnvFacts.access_grid_result t e e' d Hsim Hrun)
    as (p0 & p1 & _ & Hval & Hfilled).
  apply EnvFacts.grid_value_inv in Hval as (g & a & Hg & Ha & Hget).
  pose proof (np_get2_entry _ _ _ _ _ Hget (Hv' _ _ _ _ Hg Ha)) as [Hd | [Hd | Hd]].
  - exfalso. unfold filled in Hfilled. apply Qltb_ge in Hfilled. lra.
  - left. exact Hd.
  - right. exact Hd.
Qed.

(** *** The invariant under every operation *)

Lemma keeps_grids_invariant {A : Type} (m : M (Env C) A) :
  keeps_grids m -> preserves cache_invariant m.
Proof.
  intros Hm e [Hwf Hv]. pose proof (EnvFacts.keeps_grids_run m e Hm) as Hg.
  split; [eapply env_well_formed_ext | eapply distances_valid_ext]; eauto.
Qed.

Lemma initialize_grid_distances_valid :
  preserves distances_valid (initialize_grid (C := C)).
Proof.
  intros e Hv.
  destruct (initialize_grid_cases e)
    as [[Hrun _] | [(_ & ex & _ & Hg) | (_ & Hnone & xmin & xmax & zmin & zmax & _ & _ & Hins)]].
  - rewrite Hrun. exact Hv.
  - eapply distances_valid_ext; eauto.
  - intros scene g t a. rewrite Hins.
    destruct (decide (scene = last_scene_name (controller (snd (initialize_grid e)))))
      as [-> | Hne].
    + rewrite lookup_insert_eq. intros Heq. inversion Heq; subst. simpl.
      rewrite lookup_empty. discriminate.
    + rewrite lookup_insert_ne by congruence. apply Hv.
Qed.

Lemma initialize_grid_invariant : preserves cache_invariant (initialize_grid (C := C)).
Proof.
  intros e [Hwf Hv]. split;
    [apply initialize_grid_well_formed | apply initialize_grid_distances_valid]; auto.
Qed.

Lemma reset_invariant (scene : option string) :
  preserves cache_invariant (reset (C := C) scene).
Proof.
  intros e [Hwf Hv].
  destruct (reset_run scene e) as (e1 & Hg & [Hr | [ex Hr]]); rewrite Hr.
  - apply initialize_grid_invariant.
    split; [eapply env_well_formed_ext | eapply distances_valid_ext]; eauto.
  - simpl. split; [eapply env_well_formed_ext | eapply distances_valid_ext]; eauto.
Qed.

Lemma access_grid_invariant (t : string) :
  preserves cache_invariant (access_grid (C := C) t).
Proof.
  intros e [Hwf Hv]. split;
    [apply access_grid_well_formed | apply access_grid_distances_valid]; auto.
Qed.

Lemma run_op_invariant (o : EnvOp) (e : Env C) :
  cache_invariant e -> cache_invariant (run_op o e).
Proof.
  intros Hinv. destruct o; unfold run_op.
  - exact (keeps_grids_invariant _ (EnvFacts.keeps_grids_step a) e Hinv).
  - exact (reset_invariant scene e Hinv).
  - exact (initialize_grid_invariant e Hinv).
  - exact (access_grid_invariant target e Hinv).
  - exact (access_grid_invariant object_type e Hinv).
  - refine (preserves_bind _ _ _ (access_grid_invariant object_type) _ e Hinv).
    intros ?. apply preserves_ret.
  - exact (keeps_grids_invariant _ (EnvFacts.keeps_grids_path_corners object_type) e Hinv).
  - exact (keeps_grids_invariant _ EnvFacts.keeps_grids_reachable_points e Hinv).
  - exact (keeps_grids_invariant _ EnvFacts.keeps_grids_visible_objects e Hinv).
Qed.

Lemma run_ops_invariant (ops : list EnvOp) (e : Env C) :
  cache_invariant e -> cache_invariant (run_ops ops e).
Proof.
  revert e. induction ops as [| o ops IH]; intros e Hinv; simpl; [exact Hinv |].
  apply IH, run_op_invariant, Hinv.
Qed.

Lemma cache_invariant_fresh (e : Env C) : grids e = ∅ -> cache_invariant e.
Proof.
  intros He. split.
  - intros scene g. rewrite He, lookup_empty. discriminate.
  - intros scene g t a. rewrite He, lookup_empty. discriminate.
Qed.

(** *** [access_grid] cannot fail on a well-formed grid *)

Lemma distance_of_answer_filled (r : result (list Position)) :
  filled (distance_of_answer r).
Proof.
  unfold filled. apply Qltb_ge. destruct r as [[| c0 rest] | ex]; simpl; try lra.
  pose proof (EnvFacts.sum_segments_nonneg rest 0%Q c0). lra.
Qed.

Lemma distance_of_answer_found (r : result (list Position)) :
  Qltb (- (1 # 2))%Q (distance_of_answer r) = path_found r.
Proof.
  destruct r as [[| c0 rest] | ex]; simpl; try reflexivity.
  apply Qltb_lt. pose proof (EnvFacts.sum_segments_nonneg rest 0%Q c0). lra.
Qed.

Lemma access_grid_ok (t : string) (e : Env C) (g : Grid) :
  env_well_formed e ->
  grids e !! last_scene_name (controller e) = Some g ->
  ~ (gridSize (config e) == 0)%Q -> (0 < rotateStepDegrees (config e))%Q ->
  scene_changes_only_on_reset -> query_fails_only_without_path ->
  exists d e', access_grid t e = (Ok d, e') /\ filled d /\ env_well_formed e'.
Proof.
  intros Hwf Hg Hgs Hrs Hsim Hquery.
  pose proof (Hwf _ _ Hg) as (Hx & Hz & _).
  destruct (current_cell_spec e g Hg Hx Hz Hgs Hrs) as (p0 & p1 & Hcell & _ & _).
  destruct (Qltb (cell_or_unknown e (last_scene_name (controller e)) t p0 p1)
              (- (3 # 2))%Q) eqn:Hlt.
  - destruct (access_grid_miss t e g p0 p1 Hwf Hg Hgs Hrs Hsim Hquery Hcell Hlt)
      as (e' & Hrun & Hwf' & _ & _).
    exists (distance_of_answer (path_query t e)), e'.
    split; [exact Hrun |]. split; [apply distance_of_answer_filled | exact Hwf'].
  - unfold cell_or_unknown in Hlt.
    destruct (grid_value e (last_scene_name (controller e)) t p0 p1) as [v |] eqn:Hv;
      [| discriminate].
    exists v, e. split; [| split; [exact Hlt | exact Hwf]].
    apply EnvFacts.access_grid_hit with (p0 := p0) (p1 := p1); auto.
Qed.

Lemma reset_config (scene : option string) (e : Env C) :
  config (snd (reset scene e)) = config e.
Proof.
  assert (Hp : preserves (fun e0 => config e0 = config e) (reset (C := C) scene)).
  { unfold reset, return_to_known_good_location, initialize_grid,
      currently_reachable_points, initialize_grid_dimensions, scene_name,
      last_action_success, agent_state, step.
    repeat first
      [ apply preserves_modify; intros ? Hx; exact Hx
      | preserves_step ]. }
  apply (Hp e eq_refl).
Qed.

(** *** Lengths of paths

    The lengths are sums of square roots, floats in the code and
    rationals here. What is stated of them below are comparisons that
    every single rounded addition keeps, not identities between sums
    added up in different orders. *)



(** ** The properties *)

(** X1. [quantized_agent_state] answers inside the grid. When the scene
    has a grid with a non-empty bounding box, the grid size is not zero
    and the rotation step and the subsampling factors are positive, it
    returns without touching the environment, its two position indices
    lie between 0 and the width of the box divided by the subsampling,
    and the rotation index between 0 and the number of steps of a full
    turn. *)
Theorem quantized_agent_state_within_grid (xz_subsampling rot_subsampling : Z)
    (e : Env C) (g : Grid) :
  grids e !! last_scene_name (controller e) = Some g ->
  grid_xmin g <= grid_xmax g -> grid_zmin g <= grid_zmax g ->
  ~ (gridSize (config e) == 0)%Q ->
  (0 < rotateStepDegrees (config e) * inject_Z rot_subsampling)%Q ->
  0 < xz_subsampling ->
  exists p0 p1 r,
    quantized_agent_state xz_subsampling rot_subsampling e = (Ok (p0, p1, r), e) /\
    0 <= p0 <= (grid_xmax g - grid_xmin g) / xz_subsampling /\
    0 <= p1 <= (grid_zmax g - grid_zmin g) / xz_subsampling /\
    0 <= r <= py_round (360 / (rotateStepDegrees (config e) * inject_Z rot_subsampling)).
Proof. apply quantized_agent_state_spec. Qed.

(** X2. The box [initialize_grid_dimensions] returns is the bounding box
    of the quantized reachable points: the points quantize to pairwise
    different cells, every cell lies inside the box, each of its four
    sides is attained by some cell, and the environment is unchanged. *)
Theorem initialize_grid_dimensions_bounding_box (pts : list Position) (e e' : Env C)
    (xmin xmax zmin zmax : Z) :
  initialize_grid_dimensions pts e = (Ok (xmin, xmax, zmin, zmax), e') ->
  e' = e /\
  exists keys,
    quantize_points (config e) pts = Ok keys /\ NoDup keys /\
    xmin <= xmax /\ zmin <= zmax /\
    Forall (fun k => xmin <= fst k <= xmax /\ zmin <= snd k <= zmax) keys /\
    xmin ∈ (fst <$> keys) /\ xmax ∈ (fst <$> keys) /\
    zmin ∈ (snd <$> keys) /\ zmax ∈ (snd <$> keys).
Proof. apply initialize_grid_dimensions_spec. Qed.

(** X4. Before [initialize_grid] has run for the scene, the grid methods
    fail with [KeyError] and leave the environment as it was. *)
Theorem grid_methods_need_initialize_grid (t : string) (a b : Z) (e : Env C) :
  grids e !! last_scene_name (controller e) = None ->
  access_grid t e = (Raise KeyError, e) /\
  dist_to_object t e = (Raise KeyError, e) /\
  object_reachable t e = (Raise KeyError, e) /\
  quantized_agent_state a b e = (Raise KeyError, e).
Proof.
  intros Hnone.
  unfold object_reachable, dist_to_object, access_grid, quantized_agent_state,
    agent_state, scene_name, lookup_grid.
  unfold_monad. rewrite Hnone. auto.
Qed.

(** X5. A lookup of an unknown cell. [access_grid] asks the simulator for
    the shortest path once, teleports the agent back once, and makes no
    other call; it returns the length of the path, or -1 when the query
    raised [ValueError] or gave no corner; and it stores what it returns
    in the cell of the agent. *)
Theorem access_grid_miss_queries_once (t : string) (e : Env C) (g : Grid)
    (p0 p1 : Z) :
  env_well_formed e ->
  grids e !! last_scene_name (controller e) = Some g ->
  ~ (gridSize (config e) == 0)%Q -> (0 < rotateStepDegrees (config e))%Q ->
  scene_changes_only_on_reset -> query_fails_only_without_path ->
  current_cell e = Some (p0, p1) ->
  Qltb (cell_or_unknown e (last_scene_name (controller e)) t p0 p1) (- (3 # 2))%Q = true ->
  exists e',
    access_grid t e = (Ok (distance_of_answer (path_query t e)), e') /\
    env_well_formed e' /\
    sim_calls e' = sim_calls e ++ lookup_calls t e /\
    grid_value e' (last_scene_name (controller e)) t p0 p1
    = Some (distance_of_answer (path_query t e)).
Proof. apply access_grid_miss. Qed.

(** X6. On an unknown cell [object_reachable] says whether the simulator
    found a path: [True] exactly when the query returned at least one
    corner. *)
Theorem object_reachable_on_miss (t : string) (e : Env C) (g : Grid) (p0 p1 : Z) :
  env_well_formed e ->
  grids e !! last_scene_name (controller e) = Some g ->
  ~ (gridSize (config e) == 0)%Q -> (0 < rotateStepDegrees (config e))%Q ->
  scene_changes_only_on_reset -> query_fails_only_without_path ->
  current_cell e = Some (p0, p1) ->
  Qltb (cell_or_unknown e (last_scene_name (controller e)) t p0 p1) (- (3 # 2))%Q = true ->
  fst (object_reachable t e) = Ok (path_found (path_query t e)).
Proof.
  intros Hwf Hg Hgs Hrs Hsim Hquery Hcell Hlt.
  destruct (access_grid_miss t e g p0 p1 Hwf Hg Hgs Hrs Hsim Hquery Hcell Hlt)
    as (e' & Hrun & _).
  unfold object_reachable, bind. rewrite Hrun. simpl.
  rewrite distance_of_answer_found. reflexivity.
Qed.

(** X7. After a [reset] that returned, [dist_to_object] answers for every
    object type: it does not raise, what it returns is -1 or a
    non-negative length, and the grids stay well formed. *)
Theorem dist_to_object_after_reset (scene : option string) (t : string) (e : Env C) :
  cache_invariant e ->
  ~ (gridSize (config e) == 0)%Q -> (0 < rotateStepDegrees (config e))%Q ->
  scene_changes_only_on_reset -> query_fails_only_without_path ->
  fst (reset scene e) = Ok tt ->
  exists d e',
    dist_to_object t (snd (reset scene e)) = (Ok d, e') /\
    (d == -1 \/ 0 <= d)%Q /\ cache_invariant e'.
Proof.
  intros Hinv Hgs Hrs Hsim Hquery Hok.
  pose proof (reset_invariant scene e Hinv) as [Hwf1 Hv1].
  destruct (reset_has_grid scene e Hok) as [g Hg].
  pose proof (reset_config scene e) as Hcfg.
  destruct (access_grid_ok t (snd (reset scene e)) g Hwf1 Hg
              ltac:(rewrite Hcfg; exact Hgs) ltac:(rewrite Hcfg; exact Hrs)
              Hsim Hquery) as (d & e' & Hrun & _ & Hwf').
  exists d, e'. unfold dist_to_object. split; [exact Hrun |].
  destruct (access_grid_range t _ e' d Hsim Hv1 Hrun) as [Hv' Hd].
  split; [exact Hd | split; assumption].
Qed.

(** X8. Whatever a client did with an environment that started without
    grids, a distance [dist_to_object] returns is -1 or a non-negative
    length, never the mark of an unknown cell. *)
Theorem dist_to_object_range (ops : list EnvOp) (t : string) (e e' : Env C) (d : Q) :
  grids e = ∅ -> scene_changes_only_on_reset ->
  dist_to_object t (run_ops ops e) = (Ok d, e') ->
  (d == -1 \/ 0 <= d)%Q.
Proof.
  intros He Hsim Hrun.
  pose proof (run_ops_invariant ops e (cache_invariant_fresh e He)) as [_ Hv].
  exact (proj2 (access_grid_range t _ e' d Hsim Hv Hrun)).
Qed.

(** X9. The invariant of the grid cache. Every operation of the
    environment, returning or raising, keeps each grid with a non-empty
    bounding box, each distance array of the size of the box, and each
    cell holding -2, -1 or a non-negative length. *)
Theorem cache_invariant_kept (ops : list EnvOp) (e : Env C) :
  cache_invariant e -> cache_invariant (run_ops ops e).
Proof. apply run_ops_invariant. Qed.

(** X10. A [reset] that raises leaves the grids as they were: neither
    the failed teleport or scene change nor a failed [initialize_grid]
    adds or changes a grid. *)
Theorem reset_failure_keeps_grids (scene : option string) (e : Env C) (ex : exn) :
  fst (reset scene e) = Raise ex ->
  grids (snd (reset scene e)) = grids e.
Proof.
  destruct (reset_run scene e) as (e1 & Hg & [Hr | [ex1 Hr]]); rewrite Hr;
    [| intros _; exact Hg].
  intros Hex.
  destruct (initialize_grid_cases e1)
    as [[Hrun _] | [(_ & ex2 & _ & Hkeep) | (Hok & _)]].
  - rewrite Hrun in Hex. discriminate.
  - congruence.
  - congruence.
Qed.


End ShapeFacts.

Lemma fake_query_fails_only_without_path :
  GridShape.query_fails_only_without_path (C := Fake.Controller).
Proof.
  intros c t p r ex. simpl. unfold Fake.do_shortest_path.
  destruct (String.eqb t "Television"); simpl; congruence.
Qed.

Lemma fake_env0_invariant : GridShape.cache_invariant Fake.env0.
Proof. apply cache_invariant_fresh. reflexivity. Qed.

Lemma fake_env1_invariant : GridShape.cache_invariant Fake.env1.
Proof. apply (reset_invariant None Fake.env0), fake_env0_invariant. Qed.

Lemma quantized_agent_state_within_grid_witness :
  exists p0 p1 r,
    RoboThorEnvironment.quantized_agent_state 1 1 Fake.env1
    = (Ok (p0, p1, r), Fake.env1) /\
    0 <= p0 <= (1 - 0) / 1 /\ 0 <= p1 <= (2 - 0) / 1 /\
    0 <= r <= py_round (360 / (30 * inject_Z 1)).
Proof.
  apply (quantized_agent_state_within_grid 1 1 Fake.env1 (mkGrid ∅ 0 1 0 2)).
  - vm_compute. reflexivity.
  - simpl. lia.
  - simpl. lia.
  - vm_compute. discriminate.
  - reflexivity.
  - lia.
Defined.

Lemma initialize_grid_dimensions_bounding_box_witness :
  Fake.env0 = Fake.env0 /\
  exists keys,
    RoboThorEnvironment.quantize_points (config Fake.env0) Fake.reachable = Ok keys /\
    NoDup keys /\ 0 <= 1 /\ 0 <= 2 /\
    Forall (fun k => 0 <= fst k <= 1 /\ 0 <= snd k <= 2) keys /\
    0 ∈ (fst <$> keys) /\ 1 ∈ (fst <$> keys) /\
    0 ∈ (snd <$> keys) /\ 2 ∈ (snd <$> keys).
Proof.
  apply (initialize_grid_dimensions_bounding_box Fake.reachable Fake.env0 Fake.env0
           0 1 0 2).
  vm_compute. reflexivity.
Defined.

Lemma initialize_grid_dimensions_errors_witness :
  RoboThorEnvironment.initialize_grid_dimensions [] Fake.env0
  = (Raise ValueError, Fake.env0) /\
  RoboThorEnvironment.initialize_grid_dimensions
    [mkPosition 0 0 0; mkPosition (1 # 10) 0 0] Fake.env0
  = (Raise AssertionError, Fake.env0).
Proof.
  pose proof (initialize_grid_dimensions_errors [] Fake.env0) as (Hempty & _ & _).
  pose proof (initialize_grid_dimensions_errors
                [mkPosition 0 0 0; mkPosition (1 # 10) 0 0] Fake.env0)
    as (_ & _ & Hdup).
  split; [apply Hempty; reflexivity |].
  apply (Hdup [(0, 0); (0, 0)]); [vm_compute; reflexivity |].
  intros Hnd. apply NoDup_cons in Hnd as [Hnin _]. apply Hnin. left.
Defined.

Lemma grid_methods_need_initialize_grid_witness :
  RoboThorEnvironment.access_grid "Television" Fake.env0 = (Raise KeyError, Fake.env0) /\
  RoboThorEnvironment.dist_to_object "Television" Fake.env0
  = (Raise KeyError, Fake.env0) /\
  RoboThorEnvironment.object_reachable "Television" Fake.env0
  = (Raise KeyError, Fake.env0) /\
  RoboThorEnvironment.quantized_agent_state 1 1 Fake.env0 = (Raise KeyError, Fake.env0).
Proof.
  apply (grid_methods_need_initialize_grid "Television" 1 1 Fake.env0).
  vm_compute. reflexivity.
Defined.

Lemma access_grid_miss_queries_once_witness :
  exists e',
    RoboThorEnvironment.access_grid "Apple" Fake.env1
    = (Ok (GridShape.distance_of_answer (GridShape.path_query "Apple" Fake.env1)), e') /\
    GridShape.env_well_formed e' /\
    sim_calls e' = sim_calls Fake.env1 ++ GridShape.lookup_calls "Apple" Fake.env1 /\
    EnvObservations.grid_value e' (last_scene_name (controller Fake.env1)) "Apple" 0 0
    = Some (GridShape.distance_of_answer (GridShape.path_query "Apple" Fake.env1)).
Proof.
  apply (access_grid_miss_queries_once "Apple" Fake.env1 (mkGrid ∅ 0 1 0 2) 0 0).
  - exact (proj1 fake_env1_invariant).
  - vm_compute. reflexivity.
  - vm_compute. discriminate.
  - reflexivity.
  - exact EnvFacts.fake_scene_changes_only_on_reset.
  - exact fake_query_fails_only_without_path.
  - vm_compute. reflexivity.
  - vm_compute. reflexivity.
Defined.

Lemma object_reachable_on_miss_witness :
  fst (RoboThorEnvironment.object_reachable "Television" Fake.env1)
  = Ok (GridShape.path_found (GridShape.path_query "Television" Fake.env1)).
Proof.
  apply (object_reachable_on_miss "Television" Fake.env1 (mkGrid ∅ 0 1 0 2) 0 0).
  - exact (proj1 fake_env1_invariant).
  - vm_compute. reflexivity.
  - vm_compute. discriminate.
  - reflexivity.
  - exact EnvFacts.fake_scene_changes_only_on_reset.
  - exact fake_query_fails_only_without_path.
  - vm_compute. reflexivity.
  - vm_compute. reflexivity.
Defined.

Lemma dist_to_object_after_reset_witness :
  exists d e',
    RoboThorEnvironment.dist_to_object "Television"
      (snd (RoboThorEnvironment.reset None Fake.env0)) = (Ok d, e') /\
    (d == -1 \/ 0 <= d)%Q /\ GridShape.cache_invariant e'.
Proof.
  apply (dist_to_object_after_reset None "Television" Fake.env0).
  - exact fake_env0_invariant.
  - vm_compute. discriminate.
  - reflexivity.
  - exact EnvFacts.fake_scene_changes_only_on_reset.
  - exact fake_query_fails_only_without_path.
  - vm_compute. reflexivity.
Defined.

Lemma dist_to_object_range_witness :
  ((3000000 # 1000000) == -1 \/ 0 <= 3000000 # 1000000)%Q.
Proof.
  apply (dist_to_object_range
           [EnvObservations.OpReset None;
            EnvObservations.OpStep (NamedAction ROTATE_LEFT);
            EnvObservations.OpAccessGrid "Apple"]
           "Television" Fake.env0
           (snd (RoboThorEnvironment.dist_to_object "Television"
                   (EnvObservations.run_ops
                      [EnvObservations.OpReset None;
                       EnvObservations.OpStep (NamedAction ROTATE_LEFT);
                       EnvObservations.OpAccessGrid "Apple"] Fake.env0)))).
  - reflexivity.
  - exact EnvFacts.fake_scene_changes_only_on_reset.
  - vm_compute. reflexivity.
Defined.

Lemma cache_invariant_kept_witness :
  GridShape.cache_invariant
    (EnvObservations.run_ops
       [EnvObservations.OpReset None; EnvObservations.OpAccessGrid "Television";
        EnvObservations.OpStep (NamedAction MOVE_AHEAD);
        EnvObservations.OpObjectReachable "Apple"] Fake.env0).
Proof.
  apply (cache_invariant_kept
           [EnvObservations.OpReset None; EnvObservations.OpAccessGrid "Television";
            EnvObservations.OpStep (NamedAction MOVE_AHEAD);
            EnvObservations.OpObjectReachable "Apple"] Fake.env0).
  exact fake_env0_invariant.
Defined.

Lemma reset_failure_keeps_grids_witness :
  grids (snd (RoboThorEnvironment.reset None
                (mkEnv Fake.controller0 (mkConfig (1 # 4) 30) None ∅ [])))
  = grids (mkEnv Fake.controller0 (mkConfig (1 # 4) 30) None ∅ []).
Proof.
  apply (reset_failure_keeps_grids None
           (mkEnv Fake.controller0 (mkConfig (1 # 4) 30) None ∅ []) AssertionError).
  vm_compute. reflexivity.
Defined.

End GridFacts.

(** ** Steps and episodes of the tasks *)

Lemma run_related_bind {S A B B' : Type} (R : B -> B' -> Prop) (m : M S A)
    (k : A -> M S B) (k' : A -> M S B') (s : S) :
  (forall a s', run_related R (k a s') (k' a s')) ->
  run_related R (bind m k s) (bind m k' s).
Proof.
  intros Hk. unfold bind. destruct (m s) as [[a | ex] s1]; [apply Hk |].
  split; reflexivity.
Qed.

Lemma py_index_out_of_range {A : Type} (l : list A) (i : Z) :
  i < - Z.of_nat (length l) \/ Z.of_nat (length l) <= i ->
  py_index l i = Raise IndexError.
Proof.
  intros Hi. unfold py_index, py_norm_index.
  assert (H1 : (0 <=? i) && (i <? Z.of_nat (length l)) = false).
  { apply andb_false_iff. destruct Hi; [left; apply Z.leb_gt | right; apply Z.ltb_ge]; lia. }
  assert (H2 : (- Z.of_nat (length l) <=? i) && (i <? 0) = false).
  { apply andb_false_iff. destruct Hi; [left; apply Z.leb_gt | right; apply Z.ltb_ge]; lia. }
  rewrite H1, H2. reflexivity.
Qed.

Lemma py_index_negative {A : Type} (l : list A) (i : Z) :
  - Z.of_nat (length l) <= i < 0 ->
  py_index l i = py_index l (i + Z.of_nat (length l)).
Proof.
  intros Hi. unfold py_index, py_norm_index.
  assert (H1 : (0 <=? i) && (i <? Z.of_nat (length l)) = false).
  { apply andb_false_iff. left. apply Z.leb_gt. lia. }
  assert (H2 : (- Z.of_nat (length l) <=? i) && (i <? 0) = true).
  { apply andb_true_iff. split; [apply Z.leb_le | apply Z.ltb_lt]; lia. }
  assert (H3 : (0 <=? i + Z.of_nat (length l))
               && (i + Z.of_nat (length l) <? Z.of_nat (length l)) = true).
  { apply andb_true_iff. split; [apply Z.leb_le | apply Z.ltb_lt]; lia. }
  rewrite H1, H2, H3. rewrite (Z.add_comm i). reflexivity.
Qed.

Module PointNavSteps.
Section Steps.
Context {C : Type} `{Simulator C} `{MathLib} `{PointDistance C}.
Context {Cache : Type} `{CacheUtils Cache}.

Import PointNavTask.

Ltac unfold_monad :=
  unfold bind, ret, raise, gets, modify, lift in *; simpl in *.

Lemma point_step_relabel (a b : Z) (t : state (C := C) (Cache := Cache)) :
  py_index _actions a = py_index _actions b ->
  run_related (fun sr sr' => sr' = with_action a sr) (_step b t) (_step a t).
Proof.
  intros Hab. unfold _step. rewrite Hab.
  repeat (apply run_related_bind; intros).
  split; reflexivity.
Qed.

(** A step that does not end the episode: where it leaves [path] and
    [num_moves_made], whether or not the rest of the step raises. *)
Lemma point_step_move (a : Z) (act : Action) (t : state (C := C) (Cache := Cache)) :
  py_index _actions a = Ok act -> act <> END ->
  path (snd (_step a t))
  = path t ++ [position_of
                 (last_agent (controller_step (NamedAction act) (controller (env t))))] /\
  num_moves_made (snd (_step a t))
  = num_moves_made t
    + (if last_two_differ
            (path t ++ [position_of
                          (last_agent (controller_step (NamedAction act)
                                         (controller (env t))))])
       then 1 else 0).
Proof.
  intros Hact Hne.
  set (p := position_of
              (last_agent (controller_step (NamedAction act) (controller (env t))))).
  assert (Hend : Action_eqb act END = false) by (destruct act; auto; congruence).
  pose (Q := fun (n : Z) (s : state (C := C) (Cache := Cache)) =>
               path s = path t ++ [p] /\ num_moves_made s = num_moves_made t + n).
  change (Q (if last_two_differ (path t ++ [p]) then 1 else 0) (snd (_step a t))).
  unfold _step. unfold bind at 1. unfold lift at 1. rewrite Hact.
  unfold bind at 1. rewrite Hend.
  unfold on_env, RoboThorEnvironment.step, RoboThorEnvironment.last_action_success,
    RoboThorEnvironment.agent_state, get_observations.
  unfold_monad. fold p.
  destruct (last_two_differ (path t ++ [p])); simpl.
  - match goal with
    | |- context [judge ?s] =>
        pose proof (PointNavFacts.preserves_judge_path (path t ++ [p])
                      (num_moves_made t + 1) s ltac:(split; reflexivity)) as Hj;
        destruct (judge s) as [[r | ex] s5]
    end; simpl in *; exact Hj.
  - match goal with
    | |- context [judge ?s] =>
        pose proof (PointNavFacts.preserves_judge_path (path t ++ [p])
                      (num_moves_made t + 0) s
                      ltac:(split; [reflexivity | simpl; lia])) as Hj;
        destruct (judge s) as [[r | ex] s5]
    end; simpl in *; exact Hj.
Qed.

(** With the cache in use [judge] reads the pose and the cache only: it
    keeps every property of the task that does not depend on the last
    measured distance or on the rewards. *)
Lemma point_judge_cached (c : Cache) (P : state (C := C) (Cache := Cache) -> Prop) :
  (forall s, P s -> cache_in_use (distance_cache s) = Some c) ->
  (forall d s, P s -> P (set_last_geodesic_distance d s)) ->
  (forall r s, P s -> P (set_rewards r s)) ->
  preserves P judge.
Proof.
  intros Hc Hgeo Hrew. unfold judge, shaping.
  repeat first
    [ match goal with
      | |- preserves _ current_distance =>
          let s := fresh "s" in let Hs := fresh "Hs" in
          intros s Hs; rewrite (PointNavFacts.current_distance_cached s c (Hc s Hs));
          exact Hs
      end
    | apply preserves_modify; solve [auto]
    | preserves_step ].
Qed.

(** *** Reading the metrics *)

Lemma point_spl_read_only (t : state (C := C) (Cache := Cache)) : snd (spl t) = t.
Proof.
  unfold spl. unfold_monad.
  destruct (negb (truthy (_success t))); [reflexivity |].
  destruct (cache_in_use (distance_cache t)).
  - destruct (optimal_distance t) as [| l]; [reflexivity |].
    destruct (py_div l _); reflexivity.
  - destruct (compute_single_spl _ _ _); reflexivity.
Qed.

Lemma point_metrics_done (t : state (C := C) (Cache := Cache)) (c : Cache)
    (b : bool) (q s : Q) :
  is_done t = true -> _success t = Some b ->
  cache_in_use (distance_cache t) = Some c ->
  get_distance c (last_agent (controller (env t))) (target (task_info t)) = VFloat q ->
  fst (spl (set_rewards [] t)) = Ok (VFloat s) ->
  metrics t
  = (Ok (Some (mkMetrics (Some b) (num_steps_taken t) (np_sum (_rewards t))
                 (VFloat q) (VFloat s) (task_info t))),
     set_rewards [] t).
Proof.
  intros Hd Hs Hc Hq Hspl. unfold metrics.
  unfold bind at 1. unfold gets at 1. rewrite Hd.
  change (negb true) with false. cbv iota beta.
  unfold bind at 1. unfold gets at 1. cbv beta iota.
  unfold bind at 1. unfold modify at 1. cbv beta iota.
  unfold bind at 1. unfold gets at 1. cbv beta iota.
  change (_success (set_rewards [] t)) with (_success t). rewrite Hs.
  unfold bind at 1. unfold gets at 1. cbv beta iota.
  change (distance_cache (set_rewards [] t)) with (distance_cache t). rewrite Hc.
  unfold bind at 1. rewrite PointNavFacts.point_on_env_agent_state. cbv beta iota.
  unfold bind at 1. unfold gets at 1. cbv beta iota.
  change (env (set_rewards [] t)) with (env t).
  change (task_info (set_rewards [] t)) with (task_info t). rewrite Hq.
  unfold bind at 1.
  pose proof (point_spl_read_only (set_rewards [] t)) as Hro.
  destruct (spl (set_rewards [] t)) as [r t1]. simpl in Hro, Hspl. subst t1 r.
  unfold_monad. reflexivity.
Qed.

Lemma point_metrics_inv (t t' : state (C := C) (Cache := Cache))
    (m : Metrics TaskInfo) :
  metrics t = (Ok (Some m), t') ->
  exists c b q s,
    is_done t = true /\ _success t = Some b /\
    cache_in_use (distance_cache t) = Some c /\
    get_distance c (last_agent (controller (env t))) (target (task_info t)) = VFloat q /\
    fst (spl (set_rewards [] t)) = Ok (VFloat s).
Proof.
  unfold metrics. intros Hm.
  apply bind_ok_inv in Hm as (finished & t0 & Hfin & Hm).
  unfold gets in Hfin. inversion Hfin; subst; clear Hfin.
  destruct (is_done t0) eqn:Hd; [| unfold ret in Hm; discriminate]. simpl in Hm.
  apply bind_ok_inv in Hm as (total & t1 & Htot & Hm).
  unfold gets in Htot. inversion Htot; subst; clear Htot.
  apply bind_ok_inv in Hm as (u & t2 & Hclear & Hm).
  unfold modify in Hclear. inversion Hclear; subst; clear Hclear.
  apply bind_ok_inv in Hm as (succ & t3 & Hsucc & Hm).
  unfold gets in Hsucc. inversion Hsucc as [[Hs He]]; subst t3; clear Hsucc.
  change (_success (set_rewards [] t1)) with (_success t1) in Hs.
  destruct succ as [b |]; [| unfold ret in Hm; discriminate].
  apply bind_ok_inv in Hm as (cache & t4 & Hcache & Hm).
  unfold gets in Hcache. inversion Hcache as [[Hc He]]; subst t4; clear Hcache.
  change (distance_cache (set_rewards [] t1)) with (distance_cache t1) in Hc.
  destruct cache as [c |]; [| unfold raise in Hm; discriminate].
  apply bind_ok_inv in Hm as (pose & t5 & Hpose & Hm).
  rewrite PointNavFacts.point_on_env_agent_state in Hpose.
  inversion Hpose; subst; clear Hpose.
  apply bind_ok_inv in Hm as (tget & t6 & Htget & Hm).
  unfold gets in Htget. inversion Htget; subst; clear Htget.
  change (env (set_rewards [] t1)) with (env t1) in Hm.
  change (task_info (set_rewards [] t1)) with (task_info t1) in Hm.
  destruct (get_distance c _ _) as [| q] eqn:Hq; [unfold ret in Hm; discriminate |].
  apply bind_ok_inv in Hm as (sp & t7 & Hspl & Hm).
  destruct sp as [| s]; [unfold ret in Hm; discriminate |].
  exists c, b, q, s. rewrite Hspl. auto 10.
Qed.

(** *** The shaped reward of a step

    Distances and rewards are floats in the code and rationals here.
    What is stated of a reward below is how it compares with the step
    penalty, which each rounded operation of [shaping] and [judge]
    keeps; sums of rewards over several steps are not compared with
    differences of distances, which cancel on rationals only. *)



(** *** Construction *)

Lemma point_init_env (sensors : Env C -> observations) (info : TaskInfo) (steps : Z)
    (rewards : RewardConfigs) (cache : option Cache) (c : Cache) (e : Env C) :
  cache_in_use cache = Some c ->
  snd (__init__ sensors info steps rewards cache None e)
  = snd (RoboThorEnvironment.path_corners (target info) e).
Proof.
  intros Hc. unfold __init__, warn_no_path.
  unfold bind at 1. unfold bind at 1. unfold on_env at 1. simpl env.
  destruct (RoboThorEnvironment.path_corners (target info) e) as [[corners | ex] e1];
    [| reflexivity].
  unfold ret at 1. cbv beta iota. simpl snd. simpl fst.
  rewrite Hc.
  destruct (RoboThorEnvironment.path_corners_to_dist corners);
    unfold on_env, RoboThorEnvironment.agent_state, RoboThorEnvironment.scene_name;
    unfold_monad; reflexivity.
Qed.

(** ** The properties *)

(** X12. The action index of [PointNavTask._step]. An index outside
    [-4, 3] raises [IndexError] before anything is changed; a negative
    index from -4 to -1 counts from the end of the action tuple, so the
    step does what the step with the index plus 4 does (-1 is [END]) and
    differs from it only in the action reported in the info. *)
Theorem point_step_action_index (a : Z) (t : state (C := C) (Cache := Cache)) :
  (a < -4 \/ 4 <= a -> _step a t = (Raise IndexError, t)) /\
  (-4 <= a < 0 ->
   run_related (fun sr sr' => sr' = with_action a sr) (_step (a + 4) t) (_step a t)).
Proof.
  split.
  - intros Ha. unfold _step. unfold bind at 1. unfold lift at 1.
    rewrite py_index_out_of_range by (simpl; lia). reflexivity.
  - intros Ha. apply point_step_relabel.
    apply (py_index_negative _actions a). simpl. lia.
Qed.

(** X13. The first move of an episode is never counted. On a task whose
    [path] is still empty a step other than [END] records the position
    but leaves [num_moves_made] as it was, wherever the agent went:
    only from the second step on is a change of position a move. *)
Theorem first_move_not_counted (a : Z) (act : Action)
    (t : state (C := C) (Cache := Cache)) :
  py_index _actions a = Ok act -> act <> END -> path t = [] ->
  length (path (snd (_step a t))) = 1%nat /\
  num_moves_made (snd (_step a t)) = num_moves_made t.
Proof.
  intros Hact Hne Hpath.
  destruct (point_step_move a act t Hact Hne) as [Hp Hn].
  rewrite Hp, Hn, Hpath. simpl. split; [reflexivity | lia].
Qed.

(** X14. The [END] step of a task with a distance cache. It makes no
    call on the environment and leaves [path] alone; it sets
    [_took_end_action]; [_success] is [True] for a cached distance
    within (-0.5, 0.2], [False] beyond 0.2 and [None] at -0.5 or below;
    and, since the move check runs again on the unchanged path, the last
    move is counted a second time when the last two positions differ.
    All of this holds also when [judge] raises afterwards. *)
Theorem end_step_with_cache (t : state (C := C) (Cache := Cache)) (c : Cache) (d : Q) :
  cache_in_use (distance_cache t) = Some c ->
  get_distance c (last_agent (controller (env t))) (target (task_info t)) = VFloat d ->
  env (snd (_step 3 t)) = env t /\
  path (snd (_step 3 t)) = path t /\
  _took_end_action (snd (_step 3 t)) = true /\
  _success (snd (_step 3 t)) = range_verdict d /\
  num_moves_made (snd (_step 3 t))
  = num_moves_made t + (if last_two_differ (path t) then 1 else 0).
Proof.
  intros Hc Hd.
  pose (P := fun s : state (C := C) (Cache := Cache) =>
               (env s = env t /\ path s = path t /\ _took_end_action s = true /\
                _success s = range_verdict d /\
                num_moves_made s
                = num_moves_made t + (if last_two_differ (path t) then 1 else 0)) /\
               cache_in_use (distance_cache s) = Some c).
  assert (HP : preserves P judge).
  { apply (point_judge_cached c).
    - intros s [_ Hs]. exact Hs.
    - intros d' s Hs. exact Hs.
    - intros r s Hs. exact Hs. }
  cut (P (snd (_step 3 t))); [intros [Hall _]; exact Hall |].
  unfold _step. unfold bind at 1. unfold lift at 1.
  change (py_index _actions 3) with (Ok (A := Action) END).
  unfold bind at 1. change (Action_eqb END END) with true. cbv iota.
  unfold bind at 1. unfold modify at 1.
  unfold bind at 1.
  rewrite (PointNavFacts.is_goal_in_range_cached (set_took_end_action true t) c d Hc Hd).
  unfold range_verdict in *.
  destruct (Qltb (- (1 # 2)) d && Qle_bool d (2 # 10));
    [| destruct (Qltb (2 # 10) d)];
    unfold get_observations; unfold_monad;
    destruct (last_two_differ (path t)); simpl;
    match goal with
    | |- context [judge ?s] =>
        let Hj := fresh "Hj" in
        assert (Hj : P (snd (judge s)))
          by (apply HP; repeat split; simpl; try reflexivity; try lia; exact Hc);
        destruct (judge s) as [[r | ex] s5]
    end; simpl in *; exact Hj.
Qed.

(** X15. [metrics()] can be read once. A call that returned the metrics
    has emptied [_rewards] and changed nothing else, so a second call
    returns the same mapping except for a total reward of 0. *)
Theorem metrics_second_read (t t' : state (C := C) (Cache := Cache))
    (m : Metrics TaskInfo) :
  metrics t = (Ok (Some m), t') ->
  t' = set_rewards [] t /\
  metrics t'
  = (Ok (Some (mkMetrics (m_success m) (m_ep_length m) 0 (m_dist_to_target m)
                 (m_spl m) (m_task_info m))), t').
Proof.
  intros Hm.
  destruct (point_metrics_inv t t' m Hm) as (c & b & q & s & Hd & Hs & Hc & Hq & Hspl).
  rewrite (point_metrics_done t c b q s Hd Hs Hc Hq Hspl) in Hm.
  inversion Hm; subst; clear Hm. split; [reflexivity |].
  exact (point_metrics_done (set_rewards [] t) c b q s Hd Hs Hc Hq Hspl).
Qed.

(** X16. What constructing a [PointNavTask] with a distance cache asks
    of the simulator. Given [episode_info] the constructor returns
    without changing the environment: the path and the distances come
    from the episode and the cache, and a warning is logged exactly
    when the given path length is infinite. Without [episode_info] its
    whole effect on the environment is that of one [path_corners]: one
    shortest-path query and one teleport back. *)
Theorem point_init_with_cache (sensors : Env C -> observations) (info : TaskInfo)
    (steps : Z) (rewards : RewardConfigs) (cache : option Cache) (c : Cache)
    (e : Env C) :
  cache_in_use cache = Some c ->
  (forall ei, exists t,
     __init__ sensors info steps rewards cache (Some ei) e = (Ok t, e) /\
     env t = e /\
     episode_optimal_corners t = shortest_path ei /\
     last_geodesic_distance t
     = get_distance c (last_agent (controller e)) (target info) /\
     optimal_distance t = last_geodesic_distance t /\
     warnings t
     = match shortest_path_length ei with
       | FInf => [NoPath (last_scene_name (controller e)) (last_agent (controller e))
                    (target info)]
       | FFin _ => []
       end) /\
  snd (__init__ sensors info steps rewards cache None e)
  = snd (RoboThorEnvironment.path_corners (target info) e) /\
  sim_calls (snd (__init__ sensors info steps rewards cache None e))
  = sim_calls e ++ GridShape.lookup_calls (target info) e.
Proof.
  intros Hc. split; [| split].
  - intros ei. unfold __init__, warn_no_path, on_env,
      RoboThorEnvironment.agent_state, RoboThorEnvironment.scene_name.
    unfold_monad. rewrite Hc.
    destruct (shortest_path_length ei); simpl; eexists; repeat split; reflexivity.
  - apply (point_init_env sensors info steps rewards cache c e), Hc.
  - rewrite (point_init_env sensors info steps rewards cache c e Hc).
    apply EnvFacts.path_corners_calls.
Qed.


End Steps.

Lemma first_move_not_counted_witness :
  length (PointNavTask.path
            (snd (PointNavTask._step 0 (Fake.point_task (Some Fake.cache0) "Television"))))
  = 1%nat /\
  PointNavTask.num_moves_made
    (snd (PointNavTask._step 0 (Fake.point_task (Some Fake.cache0) "Television")))
  = PointNavTask.num_moves_made (Fake.point_task (Some Fake.cache0) "Television").
Proof.
  apply (first_move_not_counted 0 MOVE_AHEAD
           (Fake.point_task (Some Fake.cache0) "Television")).
  - reflexivity.
  - discriminate.
  - vm_compute. reflexivity.
Defined.

Lemma end_step_with_cache_witness :
  PointNavTask.env (snd (PointNavTask._step 3 Episodes.point_two_moves))
  = PointNavTask.env Episodes.point_two_moves /\
  PointNavTask.path (snd (PointNavTask._step 3 Episodes.point_two_moves))
  = PointNavTask.path Episodes.point_two_moves /\
  PointNavTask._took_end_action (snd (PointNavTask._step 3 Episodes.point_two_moves))
  = true /\
  PointNavTask._success (snd (PointNavTask._step 3 Episodes.point_two_moves))
  = range_verdict (32 # 160) /\
  PointNavTask.num_moves_made (snd (PointNavTask._step 3 Episodes.point_two_moves))
  = PointNavTask.num_moves_made Episodes.point_two_moves
    + (if last_two_differ (PointNavTask.path Episodes.point_two_moves) then 1 else 0).
Proof.
  apply (end_step_with_cache Episodes.point_two_moves Fake.cache0 (32 # 160)).
  - vm_compute. reflexivity.
  - vm_compute. reflexivity.
Defined.

Lemma metrics_second_read_witness :
  snd (PointNavTask.metrics Fake.point_reached)
  = PointNavTask.set_rewards [] Fake.point_reached /\
  PointNavTask.metrics (snd (PointNavTask.metrics Fake.point_reached))
  = (Ok (Some (mkMetrics (m_success Fake.point_reached_metrics)
                 (m_ep_length Fake.point_reached_metrics) 0
                 (m_dist_to_target Fake.point_reached_metrics)
                 (m_spl Fake.point_reached_metrics)
                 (m_task_info Fake.point_reached_metrics))),
     snd (PointNavTask.metrics Fake.point_reached)).
Proof.
  apply (metrics_second_read Fake.point_reached
           (snd (PointNavTask.metrics Fake.point_reached))
           Fake.point_reached_metrics).
  vm_compute. reflexivity.
Defined.

Lemma point_init_with_cache_witness :
  sim_calls (snd (PointNavTask.__init__ Fake.sensors0
                    (PointNavTask.mkTaskInfo "Television" "Television") 100
                    Fake.rewards0 (Some Fake.cache0) None Fake.env1))
  = sim_calls Fake.env1 ++ GridShape.lookup_calls "Television" Fake.env1.
Proof.
  apply (point_init_with_cache Fake.sensors0
           (PointNavTask.mkTaskInfo "Television" "Television") 100 Fake.rewards0
           (Some Fake.cache0) Fake.cache0 Fake.env1).
  reflexivity.
Defined.



End PointNavSteps.

Module ObjectNavSteps.
Section Steps.
Context {C : Type} `{Simulator C} `{MathLib}.
Context {Cache : Type} `{CacheUtils Cache}.

Import ObjectNavTask.

Ltac unfold_monad :=
  unfold bind, ret, raise, gets, modify, lift in *; simpl in *.

Lemma object_step_relabel (a b : Z) (t : state (C := C) (Cache := Cache)) :
  py_index _actions a = py_index _actions b ->
  run_related (fun sr sr' => sr' = with_action a sr) (_step b t) (_step a t).
Proof.
  intros Hab. unfold _step. rewrite Hab.
  repeat (apply run_related_bind; intros).
  split; reflexivity.
Qed.

(** *** The mirror *)

Lemma reverse_rows_involutive {A : Type} (rows : list (list A)) :
  reverse <$> (reverse <$> rows) = rows.
Proof.
  induction rows as [| r rows IH]; simpl; [reflexivity |].
  rewrite reverse_involutive. f_equal. exact IH.
Qed.

Lemma reverse_axis1_involutive (a : ndarray) : reverse_axis1 (reverse_axis1 a) = a.
Proof.
  destruct a as [v | rows | rows | rows]; simpl; try reflexivity;
    rewrite reverse_rows_involutive; reflexivity.
Qed.

Lemma ndim_reverse_axis1 (a : ndarray) : ndim (reverse_axis1 a) = ndim a.
Proof. destruct a; reflexivity. Qed.

Lemma mirror_observation_involutive (o : string * obsval) :
  mirror_observation (mirror_observation o) = o.
Proof.
  destruct o as [name [a | v]]; simpl; [| reflexivity].
  destruct (contains "rgb" name || contains "depth" name) eqn:Hn; simpl;
    [| rewrite Hn; reflexivity].
  destruct (ndim a =? 3)%nat eqn:H3; simpl.
  - rewrite Hn, ndim_reverse_axis1, H3, reverse_axis1_involutive. reflexivity.
  - destruct (ndim a =? 2)%nat eqn:H2; simpl.
    + rewrite Hn, ndim_reverse_axis1, H3, H2, reverse_axis1_involutive. reflexivity.
    + rewrite Hn, H3, H2. reflexivity.
Qed.

Lemma mirror_observation_name (o : string * obsval) :
  fst (mirror_observation o) = fst o.
Proof.
  destruct o as [name [a | v]]; simpl; [| reflexivity].
  destruct (contains "rgb" name || contains "depth" name); [| reflexivity].
  destruct (ndim a =? 3)%nat; [reflexivity |].
  destruct (ndim a =? 2)%nat; reflexivity.
Qed.

(** *** The path followed *)

Lemma follows_path_step (a : Z) :
  preserves (follows_path (C := C) (Cache := Cache)) (_step a).
Proof.
  assert (Hframe : step_frame (follows_path (C := C) (Cache := Cache))).
  { apply ObjectNavFacts.step_frame_env_free; intros ? ? Hs; exact Hs. }
  unfold _step, get_observations.
  apply preserves_bind; [apply preserves_lift | intros named].
  apply preserves_bind; [apply preserves_gets | intros mirrored_task].
  apply preserves_bind; [apply preserves_modify; intros s Hs; exact Hs | intros _].
  apply preserves_bind.
  - destruct (Action_eqb (mirrored_action mirrored_task named) END).
    + apply preserves_bind; [apply preserves_modify; intros s Hs; exact Hs | intros _].
      apply preserves_bind;
        [apply ObjectNavFacts.object_preserves_is_goal_in_range, Hframe | intros r].
      apply preserves_bind; apply preserves_modify || intros _; intros s Hs; exact Hs.
    + apply preserves_bind;
        [apply ObjectNavFacts.object_preserves_on_env; intros ? ? Hs; exact Hs | intros _].
      apply preserves_bind;
        [apply ObjectNavFacts.object_preserves_on_env; intros ? ? Hs; exact Hs | intros ok].
      apply preserves_bind; [apply preserves_modify; intros s Hs; exact Hs | intros _].
      apply preserves_bind;
        [apply ObjectNavFacts.object_preserves_on_env; intros ? ? Hs; exact Hs | intros pose].
      intros s (start & rest & Hf & Hp). unfold bind, modify. simpl.
      exists start, (rest ++ [pose]). split.
      * change (followed_path (task_info s) ++ [pose] = start :: rest ++ [pose]).
        rewrite Hf. reflexivity.
      * change (position_of <$> (rest ++ [pose]) = path s ++ [position_of pose]).
        rewrite fmap_app, Hp. reflexivity.
  - intros _.
    apply preserves_bind; [apply preserves_gets | intros moved].
    apply preserves_bind.
    { destruct moved; [apply preserves_modify; intros s Hs; exact Hs | apply preserves_ret]. }
    intros _.
    apply preserves_bind.
    { apply preserves_bind; [apply preserves_gets | intros obs].
      apply preserves_bind; [apply preserves_gets | intros m].
      destruct m; apply preserves_ret. }
    intros obs.
    apply preserves_bind.
    { apply ObjectNavFacts.object_preserves_judge; [exact Hframe |].
      intros r s Hs. exact Hs. }
    intros rew.
    apply preserves_bind; [apply preserves_gets | intros fin].
    apply preserves_bind; [apply preserves_gets | intros ok].
    apply preserves_ret.
Qed.

Lemma follows_path_episode (actions : list Z) :
  preserves (follows_path (C := C) (Cache := Cache)) (run_episode actions).
Proof.
  induction actions as [| a rest IH]; simpl; [apply preserves_ret |].
  apply preserves_bind.
  - unfold step. apply preserves_bind; [apply follows_path_step | intros sr].
    apply preserves_bind; [apply preserves_modify; intros s Hs; exact Hs | intros _].
    apply preserves_ret.
  - intros sr. apply preserves_bind; [exact IH | intros srs]. apply preserves_ret.
Qed.

Lemma follows_path_init (sensors : Env C -> observations) (info : TaskInfo)
    (steps : Z) (rewards : RewardConfigs) (cache : option Cache) (e e' : Env C)
    (t : state (C := C) (Cache := Cache)) :
  __init__ sensors info steps rewards cache e = (Ok t, e') ->
  follows_path t /\ taken_actions (task_info t) = [].
Proof.
  unfold __init__. intros Hi.
  match type of Hi with
  | (match ?b ?t0 with _ => _ end) = _ => destruct (b t0) as [[u | ex] t1] eqn:Hb
  end; [| discriminate].
  inversion Hi; subst; clear Hi.
  apply bind_ok_inv in Hb as (last & s1 & _ & Hb).
  apply bind_ok_inv in Hb as (u1 & s2 & _ & Hb).
  apply bind_ok_inv in Hb as (start & s3 & _ & Hb).
  apply bind_ok_inv in Hb as (u2 & s4 & _ & Hb).
  apply bind_ok_inv in Hb as (corners & s5 & _ & Hb).
  unfold modify in Hb. inversion Hb; subst. simpl. split; [| reflexivity].
  exists start, []. split; reflexivity.
Qed.

(** *** The goal check *)

Lemma object_is_goal_in_range_run (t : state (C := C) (Cache := Cache)) :
  _is_goal_in_range t
  = (Ok (existsb (fun o => String.eqb (objectType o) (object_type (task_info t)))
           (List.filter (fun o => Bool.eqb (visible o) true)
              (last_objects (controller (env t))))), t).
Proof.
  unfold _is_goal_in_range, on_env, RoboThorEnvironment.visible_objects,
    RoboThorEnvironment.all_objects.
  unfold_monad. rewrite ObjectNavFacts.object_set_env_same. reflexivity.
Qed.

Lemma existsb_target_visible (t : state (C := C) (Cache := Cache)) :
  existsb (fun o => String.eqb (objectType o) (object_type (task_info t)))
    (List.filter (fun o => Bool.eqb (visible o) true)
       (last_objects (controller (env t)))) = true
  <-> target_visible t.
Proof.
  rewrite existsb_exists. unfold target_visible. split.
  - intros (o & Hin & Heq). apply filter_In in Hin as [Hin Hvis].
    exists o. split; [apply list_elem_of_In; exact Hin |].
    split; [destruct (visible o); [reflexivity | discriminate] |].
    apply String.eqb_eq, Heq.
  - intros (o & Hin & Hvis & Heq). exists o. split.
    + apply filter_In. split; [apply list_elem_of_In; exact Hin |].
      rewrite Hvis. reflexivity.
    + apply String.eqb_eq, Heq.
Qed.

Lemma object_end_step (t : state (C := C) (Cache := Cache)) :
  _took_end_action (snd (_step 3 t)) = true /\
  _success (snd (_step 3 t))
  = Some (existsb (fun o => String.eqb (objectType o) (object_type (task_info t)))
            (List.filter (fun o => Bool.eqb (visible o) true)
               (last_objects (controller (env t))))) /\
  path (snd (_step 3 t)) = path t /\
  followed_path (task_info (snd (_step 3 t))) = followed_path (task_info t) /\
  taken_actions (task_info (snd (_step 3 t))) = taken_actions (task_info t) ++ [END].
Proof.
  pose (P := fun s : state (C := C) (Cache := Cache) =>
    _took_end_action s = true /\
    _success s
    = Some (existsb (fun o => String.eqb (objectType o) (object_type (task_info t)))
              (List.filter (fun o => Bool.eqb (visible o) true)
                 (last_objects (controller (env t))))) /\
    path s = path t /\
    followed_path (task_info s) = followed_path (task_info t) /\
    taken_actions (task_info s) = taken_actions (task_info t) ++ [END]).
  assert (HP : preserves P judge).
  { apply ObjectNavFacts.object_preserves_judge.
    - apply ObjectNavFacts.step_frame_env_free; intros ? ? Hs; exact Hs.
    - intros r s Hs. exact Hs. }
  change (P (snd (_step 3 t))).
  unfold _step. unfold bind at 1. unfold lift at 1.
  change (py_index _actions 3) with (Ok (A := Action) END).
  unfold bind at 1. unfold gets at 1.
  assert (Hend : mirrored_action (mirror t) END = END) by (destruct (mirror t); reflexivity).
  rewrite Hend.
  unfold bind at 1. unfold modify at 1.
  unfold bind at 1. change (Action_eqb END END) with true. cbv iota.
  unfold bind at 1. unfold modify at 1.
  unfold bind at 1. rewrite object_is_goal_in_range_run.
  unfold get_observations. unfold_monad.
  destruct (last_two_differ (path t)); cbv beta iota;
    match goal with
    | |- context [if mirror ?s then _ else _] => change (mirror s) with (mirror t)
    end;
    destruct (mirror t); cbv beta iota;
    match goal with
    | |- context [judge ?s] =>
        let Hj := fresh "Hj" in
        assert (Hj : P (snd (judge s))) by (apply HP; repeat split; reflexivity);
        destruct (judge s) as [[r | ex] s5]
    end; simpl in *; exact Hj.
Qed.

(** *** Reading the metrics *)

Lemma object_spl_read_only (t : state (C := C) (Cache := Cache)) : snd (spl t) = t.
Proof.
  unfold spl. unfold_monad.
  destruct (negb (truthy (_success t))); [reflexivity |].
  destruct (cache_in_use (distance_cache t)).
  - destruct (optimal_distance t) as [| l]; [reflexivity |].
    destruct (py_div l _); reflexivity.
  - destruct (episode_optimal_corners t) as [cs |]; [| reflexivity].
    destruct (compute_single_spl _ _ _); reflexivity.
Qed.

Lemma object_spl_depends (t1 t2 : state (C := C) (Cache := Cache)) :
  _success t1 = _success t2 -> distance_cache t1 = distance_cache t2 ->
  optimal_distance t1 = optimal_distance t2 ->
  num_moves_made t1 = num_moves_made t2 -> env t1 = env t2 ->
  path t1 = path t2 -> episode_optimal_corners t1 = episode_optimal_corners t2 ->
  fst (spl t1) = fst (spl t2).
Proof.
  intros Hs Hc Ho Hn He Hp Hk. unfold spl. unfold_monad.
  rewrite Hs. destruct (negb (truthy (_success t2))); simpl; [reflexivity |].
  rewrite Hc. destruct (cache_in_use (distance_cache t2)); simpl.
  - rewrite Ho. destruct (optimal_distance t2) as [| l]; simpl; [reflexivity |].
    rewrite Hn, He. destruct (py_div l _); reflexivity.
  - rewrite Hk. destruct (episode_optimal_corners t2) as [cs |]; simpl; [| reflexivity].
    rewrite Hp. destruct (compute_single_spl _ _ _); reflexivity.
Qed.

Lemma object_spl_rewards (r : list Q) (t : state (C := C) (Cache := Cache)) :
  fst (spl (set_rewards r t)) = fst (spl t).
Proof. apply object_spl_depends; reflexivity. Qed.

Lemma object_metrics_done (t : state (C := C) (Cache := Cache)) (c : Cache) (s : pyval) :
  cache_in_use (distance_cache t) = Some c ->
  is_done t = true ->
  fst (spl t) = Ok s ->
  metrics t
  = (Ok (Some (mkMetrics (_success t) (num_steps_taken t) (np_sum (_rewards t))
                 (get_distance_to_object c (last_agent (controller (env t)))
                    (object_type (task_info t)))
                 s (task_info t))),
     set_rewards [] t).
Proof.
  intros Hc Hd Hspl. unfold metrics.
  unfold bind at 1. unfold gets at 1. rewrite Hc. cbv beta iota.
  unfold bind at 1. rewrite ObjectNavFacts.object_on_env_agent_state. cbv beta iota.
  unfold bind at 1. unfold gets at 1. cbv beta iota.
  unfold bind at 1. unfold gets at 1. rewrite Hd.
  change (negb true) with false. cbv beta iota.
  unfold bind at 1. unfold gets at 1. cbv beta iota.
  unfold bind at 1. unfold gets at 1. cbv beta iota.
  unfold bind at 1. unfold gets at 1. cbv beta iota.
  unfold bind at 1.
  pose proof (object_spl_read_only t) as Hro.
  destruct (spl t) as [r t1]. simpl in Hro, Hspl. subst t1 r.
  reflexivity.
Qed.

Lemma object_metrics_inv (t t' : state (C := C) (Cache := Cache))
    (m : Metrics TaskInfo) :
  metrics t = (Ok (Some m), t') ->
  exists c s,
    cache_in_use (distance_cache t) = Some c /\ is_done t = true /\
    fst (spl t) = Ok s.
Proof.
  unfold metrics. intros Hm.
  apply bind_ok_inv in Hm as (cache & t0 & Hcache & Hm).
  unfold gets in Hcache. inversion Hcache as [[Hc He]]; subst t0; clear Hcache.
  destruct cache as [c |]; [| unfold raise in Hm; discriminate].
  apply bind_ok_inv in Hm as (pose & t1 & Hpose & Hm).
  rewrite ObjectNavFacts.object_on_env_agent_state in Hpose.
  inversion Hpose; subst; clear Hpose.
  apply bind_ok_inv in Hm as (wanted & t2 & Hw & Hm).
  unfold gets in Hw. inversion Hw; subst; clear Hw.
  apply bind_ok_inv in Hm as (finished & t3 & Hfin & Hm).
  unfold gets in Hfin. inversion Hfin; subst; clear Hfin.
  destruct (is_done t3) eqn:Hd; [| unfold ret in Hm; discriminate]. simpl in Hm.
  apply bind_ok_inv in Hm as (succ & t4 & Hsucc & Hm).
  unfold gets in Hsucc. inversion Hsucc; subst; clear Hsucc.
  apply bind_ok_inv in Hm as (steps & t5 & Hsteps & Hm).
  unfold gets in Hsteps. inversion Hsteps; subst; clear Hsteps.
  apply bind_ok_inv in Hm as (total & t6 & Htot & Hm).
  unfold gets in Htot. inversion Htot; subst; clear Htot.
  apply bind_ok_inv in Hm as (sp & t7 & Hspl & Hm).
  exists c, sp. rewrite Hspl. auto.
Qed.

(** ** The properties *)

(** X17. The action index of [ObjectNavTask._step]. An index outside
    [-6, 5] raises [IndexError] before anything is changed, also before
    the action is added to [taken_actions]; a negative index from -6 to
    -1 counts from the end of the action tuple, so the step does what
    the step with the index plus 6 does and differs from it only in the
    action reported in the info. *)
Theorem object_step_action_index (a : Z) (t : state (C := C) (Cache := Cache)) :
  (a < -6 \/ 6 <= a -> _step a t = (Raise IndexError, t)) /\
  (-6 <= a < 0 ->
   run_related (fun sr sr' => sr' = with_action a sr) (_step (a + 6) t) (_step a t)).
Proof.
  split.
  - intros Ha. unfold _step. unfold bind at 1. unfold lift at 1.
    rewrite py_index_out_of_range by (simpl; lia). reflexivity.
  - intros Ha. apply object_step_relabel.
    apply (py_index_negative _actions a). simpl. lia.
Qed.

(** X18. The mirror of the observations undoes itself. The observations
    of a mirrored task are those of the same task without the mirror
    with each image flipped, under the same names and in the same
    order; flipping them once more gives back the unmirrored
    observations. *)
Theorem mirrored_observations_flip_back (t : state (C := C) (Cache := Cache)) :
  exists raw flipped,
    get_observations (set_mirror false t) = (Ok raw, set_mirror false t) /\
    get_observations (set_mirror true t) = (Ok flipped, set_mirror true t) /\
    flipped = mirror_observation <$> raw /\
    mirror_observation <$> flipped = raw /\
    fst <$> flipped = fst <$> raw.
Proof.
  exists (sensor_suite t (env t)), (mirror_observation <$> sensor_suite t (env t)).
  split; [reflexivity |]. split; [reflexivity |]. split; [reflexivity |].
  split.
  - induction (sensor_suite t (env t)) as [| o obs IH]; simpl; [reflexivity |].
    rewrite mirror_observation_involutive. f_equal. exact IH.
  - induction (sensor_suite t (env t)) as [| o obs IH]; simpl; [reflexivity |].
    rewrite mirror_observation_name. f_equal. exact IH.
Qed.

(** X19. What [render] returns. A mode other than "rgb" and "depth"
    fails the assertion. Otherwise the frame of the mode is returned as
    it is by a task without mirror; a mirrored task returns the frame
    with its second axis reversed when the frame has at least three
    dimensions and raises [IndexError] on a frame with fewer, such as a
    depth image of height and width only. The task is never changed. *)
Theorem render_cases (mode : string) (t : state (C := C) (Cache := Cache)) :
  (mode <> "rgb" -> mode <> "depth" -> render mode t = (Raise AssertionError, t)) /\
  (forall frame,
     (mode = "rgb" /\ frame = last_frame (controller (env t))) \/
     (mode = "depth" /\ frame = last_depth_frame (controller (env t))) ->
     render mode t
     = if mirror t then
         if (ndim frame <? 3)%nat then (Raise IndexError, t)
         else (Ok (reverse_axis1 frame), t)
       else (Ok frame, t)).
Proof.
  split.
  - intros Hrgb Hdepth. unfold render.
    apply String.eqb_neq in Hrgb, Hdepth. rewrite Hrgb, Hdepth. reflexivity.
  - intros frame [[-> ->] | [-> ->]]; unfold render, flip_columns_3d, on_env,
      RoboThorEnvironment.current_frame, RoboThorEnvironment.current_depth;
      unfold_monad; rewrite ObjectNavFacts.object_set_env_same;
      destruct (mirror t); [| reflexivity | | reflexivity];
      match goal with |- context [(ndim ?f <? 3)%nat] => destruct (ndim f <? 3)%nat end;
      reflexivity.
Qed.

(** X20. The [END] step of an [ObjectNavTask]. It sets
    [_took_end_action], and [_success] is [True] exactly when the
    simulator lists an object of the wanted type as visible; [END] is
    appended to [taken_actions], and [path] and [followed_path] stay as
    they are. This holds also when [judge] raises afterwards. *)
Theorem object_end_step_success (t : state (C := C) (Cache := Cache)) :
  exists b,
    _success (snd (_step 3 t)) = Some b /\
    (b = true <-> target_visible t) /\
    _took_end_action (snd (_step 3 t)) = true /\
    path (snd (_step 3 t)) = path t /\
    followed_path (task_info (snd (_step 3 t))) = followed_path (task_info t) /\
    taken_actions (task_info (snd (_step 3 t))) = taken_actions (task_info t) ++ [END].
Proof.
  destruct (object_end_step t) as (Hend & Hs & Hp & Hf & Ha).
  eexists. split; [exact Hs |]. split; [apply existsb_target_visible |]. auto.
Qed.

(** X21. [followed_path] tracks [path]. From construction on and after
    any sequence of steps, returning or raising, [followed_path] is the
    starting pose followed by the poses whose positions are the entries
    of [path], in the same order; so it is always one longer. *)
Theorem followed_path_tracks_path (sensors : Env C -> observations) (info : TaskInfo)
    (steps : Z) (rewards : RewardConfigs) (cache : option Cache) (e e' : Env C)
    (t : state (C := C) (Cache := Cache)) (actions : list Z) :
  __init__ sensors info steps rewards cache e = (Ok t, e') ->
  follows_path (snd (run_episode actions t)) /\
  length (followed_path (task_info (snd (run_episode actions t))))
  = S (length (path (snd (run_episode actions t)))).
Proof.
  intros Hi.
  assert (Hfp : follows_path (snd (run_episode actions t))).
  { apply follows_path_episode. eapply follows_path_init, Hi. }
  split; [exact Hfp |].
  destruct Hfp as (start & rest & Hf & Hp).
  rewrite Hf, <- Hp, length_fmap. reflexivity.
Qed.

(** X25. [ObjectNavTask.metrics] can be read once. A call that returned
    the metrics has emptied [_rewards] and changed nothing else, so a
    second call returns the same mapping except for a total reward of
    0. *)
Theorem object_metrics_second_read (t t' : state (C := C) (Cache := Cache))
    (m : Metrics TaskInfo) :
  metrics t = (Ok (Some m), t') ->
  t' = set_rewards [] t /\
  metrics t'
  = (Ok (Some (mkMetrics (m_success m) (m_ep_length m) 0 (m_dist_to_target m)
                 (m_spl m) (m_task_info m))), t').
Proof.
  intros Hm.
  destruct (object_metrics_inv t t' m Hm) as (c & s & Hc & Hd & Hspl).
  rewrite (object_metrics_done t c s Hc Hd Hspl) in Hm.
  inversion Hm; subst; clear Hm. split; [reflexivity |].
  apply (object_metrics_done (set_rewards [] t) c s Hc Hd).
  rewrite object_spl_rewards. exact Hspl.
Qed.

End Steps.

Lemma followed_path_tracks_path_witness :
  follows_path
    (snd (ObjectNavTask.run_episode [0; 1; 7; 3]
            (Fake.object_task (Some Fake.cache0) "Television" true))) /\
  length (ObjectNavTask.followed_path
            (ObjectNavTask.task_info
               (snd (ObjectNavTask.run_episode [0; 1; 7; 3]
                       (Fake.object_task (Some Fake.cache0) "Television" true)))))
  = S (length (ObjectNavTask.path
                 (snd (ObjectNavTask.run_episode [0; 1; 7; 3]
                         (Fake.object_task (Some Fake.cache0) "Television" true))))).
Proof.
  apply (followed_path_tracks_path Fake.sensors0 (Fake.object_info "Television" true)
           100 Fake.rewards0 (Some Fake.cache0) Fake.env1
           (snd (ObjectNavTask.__init__ Fake.sensors0
                   (Fake.object_info "Television" true) 100 Fake.rewards0
                   (Some Fake.cache0) Fake.env1))
           (Fake.object_task (Some Fake.cache0) "Television" true) [0; 1; 7; 3]).
  vm_compute. reflexivity.
Defined.

Lemma object_metrics_second_read_witness :
  snd (ObjectNavTask.metrics Fake.object_reached)
  = ObjectNavTask.set_rewards [] Fake.object_reached /\
  ObjectNavTask.metrics (snd (ObjectNavTask.metrics Fake.object_reached))
  = (Ok (Some (mkMetrics (m_success Episodes.object_reached_metrics)
                 (m_ep_length Episodes.object_reached_metrics) 0
                 (m_dist_to_target Episodes.object_reached_metrics)
                 (m_spl Episodes.object_reached_metrics)
                 (m_task_info Episodes.object_reached_metrics))),
     snd (ObjectNavTask.metrics Fake.object_reached)).
Proof.
  apply (object_metrics_second_read Fake.object_reached
           (snd (ObjectNavTask.metrics Fake.object_reached))
           Episodes.object_reached_metrics).
  vm_compute. reflexivity.
Defined.

End ObjectNavSteps.

(** ** Processes per device *)

Module ExperimentFacts.

Import ObjectNavRoboThorRGBDDPPOCVPRExperimentConfig.

Lemma share_step (d n j : Z) :
  0 < d -> 0 <= n -> 0 <= j < d ->
  share d (n + 1) j = share d n j + (if decide (j = n mod d) then 1 else 0).
Proof.
  intros Hd Hn Hj. unfold share.
  pose proof (Z.div_mod n d ltac:(lia)) as Hdm.
  pose proof (Z.mod_pos_bound n d Hd) as Hr.
  set (q := n / d) in *. set (r := n mod d) in *.
  destruct (decide (j = r)) as [-> | Hne].
  - assert (H1 : (n + 1 + d - 1 - r) / d = q + 1).
    { symmetry. apply (Z.div_unique _ d (q + 1) 0); lia. }
    assert (H2 : (n + d - 1 - r) / d = q).
    { symmetry. apply (Z.div_unique _ d q (d - 1)); lia. }
    lia.
  - destruct (Z.lt_ge_cases j r) as [Hlt | Hge].
    + assert (H1 : (n + 1 + d - 1 - j) / d = q + 1).
      { symmetry. apply (Z.div_unique _ d (q + 1) (r - j)); lia. }
      assert (H2 : (n + d - 1 - j) / d = q + 1).
      { symmetry. apply (Z.div_unique _ d (q + 1) (r - j - 1)); lia. }
      lia.
    + assert (H1 : (n + 1 + d - 1 - j) / d = q).
      { symmetry. apply (Z.div_unique _ d q (d + r - j)); lia. }
      assert (H2 : (n + d - 1 - j) / d = q).
      { symmetry. apply (Z.div_unique _ d q (d + r - j - 1)); lia. }
      lia.
Qed.

Lemma range_lookup (n : Z) (k : nat) :
  (k < Z.to_nat n)%nat -> range n !! k = Some (Z.of_nat k).
Proof.
  intros Hk. unfold range. rewrite list_lookup_fmap, lookup_seq_lt by exact Hk.
  reflexivity.
Qed.

Lemma shares_length (d n : Z) : length (shares d n) = Z.to_nat d.
Proof. unfold shares, range. rewrite !length_fmap, length_seq. reflexivity. Qed.

Lemma shares_lookup (d n : Z) (k : nat) :
  (k < Z.to_nat d)%nat -> shares d n !! k = Some (share d n (Z.of_nat k)).
Proof.
  intros Hk. unfold shares. rewrite list_lookup_fmap, range_lookup by exact Hk.
  reflexivity.
Qed.

Lemma increment_shares (d n : Z) :
  0 < d -> 0 <= n -> increment (shares d n) (n mod d) = Ok (shares d (n + 1)).
Proof.
  intros Hd Hn. pose proof (Z.mod_pos_bound n d Hd) as Hr.
  unfold increment. rewrite shares_length.
  rewrite GridFacts.py_norm_index_in_range by lia.
  rewrite shares_lookup by lia. f_equal.
  apply list_eq. intros k.
  destruct (decide (k < Z.to_nat d)%nat) as [Hk | Hk].
  - rewrite (shares_lookup d (n + 1) k Hk).
    rewrite (share_step d n (Z.of_nat k)) by lia.
    destruct (decide (k = Z.to_nat (n mod d))) as [-> | Hne].
    + rewrite list_lookup_insert_eq by (rewrite shares_length; lia).
      rewrite Z2Nat.id by lia.
      destruct (decide (n mod d = n mod d)); [reflexivity | congruence].
    + rewrite list_lookup_insert_ne by congruence.
      rewrite shares_lookup by exact Hk.
      destruct (decide (Z.of_nat k = n mod d)); [lia |]. f_equal. lia.
  - rewrite !lookup_ge_None_2; [reflexivity | |].
    + rewrite shares_length. lia.
    + rewrite length_insert, shares_length. lia.
Qed.

Lemma distribute_shares (d : Z) (k n : nat) :
  0 < d ->
  distribute d (Z.of_nat <$> seq n k) (shares d (Z.of_nat n))
  = Ok (shares d (Z.of_nat (n + k))).
Proof.
  intros Hd. revert n. induction k as [| k IH]; intros n; simpl.
  - rewrite Nat.add_0_r. reflexivity.
  - unfold py_mod. assert (Hd0 : (d =? 0) = false) by (apply Z.eqb_neq; lia).
    rewrite Hd0. rewrite increment_shares by lia.
    replace (Z.of_nat n + 1) with (Z.of_nat (S n)) by lia.
    rewrite IH. do 2 f_equal. lia.
Qed.

Lemma shares_zero (d : Z) : 0 < d -> shares d 0 = replicate (Z.to_nat d) 0.
Proof.
  intros Hd. apply list_eq. intros k.
  destruct (decide (k < Z.to_nat d)%nat) as [Hk | Hk].
  - rewrite shares_lookup by exact Hk.
    rewrite (proj2 (lookup_replicate _ _ _ _)) by (split; [reflexivity | exact Hk]).
    f_equal. unfold share. apply Z.div_small. lia.
  - rewrite !lookup_ge_None_2; [reflexivity | |].
    + rewrite length_replicate. lia.
    + rewrite shares_length. lia.
Qed.

Lemma split_num_processes_run (self : ExperimentConfig) (d : Z) :
  0 < d <= NUM_PROCESSES self ->
  split_num_processes self d = Ok (shares d (NUM_PROCESSES self)).
Proof.
  intros Hd. unfold split_num_processes, range.
  assert (Hlt : (NUM_PROCESSES self <? d) = false) by (apply Z.ltb_ge; lia).
  rewrite Hlt, <- shares_zero by lia.
  change (shares d 0) with (shares d (Z.of_nat 0)).
  rewrite (distribute_shares d (Z.to_nat (NUM_PROCESSES self)) 0) by lia.
  do 2 f_equal. lia.
Qed.

Lemma total_insert (res : list Z) (k : nat) (v w : Z) :
  res !! k = Some v -> total (<[k := w]> res) = total res - v + w.
Proof.
  revert k. induction res as [| x res IH]; intros k Hk; [discriminate |].
  destruct k as [| k]; simpl in *.
  - inversion Hk; subst. unfold total. simpl. lia.
  - unfold total in *. simpl. rewrite (IH k Hk). lia.
Qed.

Lemma increment_total (res res' : list Z) (i : Z) :
  increment res i = Ok res' -> total res' = total res + 1 /\ length res' = length res.
Proof.
  unfold increment. intros Hi.
  destruct (py_norm_index (length res) i) as [k |]; [| discriminate].
  destruct (res !! k) as [v |] eqn:Hk; [| discriminate].
  inversion Hi; subst. rewrite (total_insert res k v (v + 1) Hk), length_insert.
  split; [lia | reflexivity].
Qed.

Lemma distribute_total (d : Z) (its res res' : list Z) :
  distribute d its res = Ok res' ->
  total res' = total res + Z.of_nat (length its) /\ length res' = length res.
Proof.
  revert res. induction its as [| it its IH]; intros res Hrun; simpl in *.
  - inversion Hrun; subst. split; [lia | reflexivity].
  - destruct (py_mod it d) as [i |]; [| discriminate].
    destruct (increment res i) as [res1 |] eqn:Hinc; [| discriminate].
    apply increment_total in Hinc as [Ht Hl]. apply IH in Hrun as [Ht' Hl'].
    split; [lia | congruence].
Qed.

Lemma total_replicate_zero (n : nat) : total (replicate n 0) = 0.
Proof. induction n as [| n IH]; [reflexivity |]. unfold total in *. simpl. exact IH. Qed.

Lemma share_bounds (d n j : Z) :
  0 < d -> 0 <= j < d -> n / d <= share d n j <= n / d + 1.
Proof.
  intros Hd Hj. unfold share. split.
  - apply Z.div_le_mono; lia.
  - replace (n / d + 1) with ((n + 1 * d) / d) by (rewrite Z.div_add by lia; reflexivity).
    apply Z.div_le_mono; lia.
Qed.

(** X22. [split_num_processes] spreads the processes evenly. For a
    positive number of devices not above [NUM_PROCESSES] it returns one
    count per device, the counts add up to [NUM_PROCESSES], device [j]
    gets the number of indices below [NUM_PROCESSES] that leave
    remainder [j], and so every count is the quotient
    [NUM_PROCESSES // ndevices] or one more. *)
Theorem split_num_processes_balanced (self : ExperimentConfig) (ndevices : Z) :
  0 < ndevices <= NUM_PROCESSES self ->
  exists res,
    split_num_processes self ndevices = Ok res /\
    length res = Z.to_nat ndevices /\
    total res = NUM_PROCESSES self /\
    (forall j : nat, (j < Z.to_nat ndevices)%nat ->
       res !! j = Some ((NUM_PROCESSES self + ndevices - 1 - Z.of_nat j) / ndevices)) /\
    Forall (fun v => NUM_PROCESSES self / ndevices <= v
                     <= NUM_PROCESSES self / ndevices + 1) res.
Proof.
  intros Hd. exists (shares ndevices (NUM_PROCESSES self)).
  pose proof (split_num_processes_run self ndevices Hd) as Hrun.
  split; [exact Hrun |]. split; [apply shares_length |]. split.
  - unfold split_num_processes in Hrun.
    assert (Hlt : (NUM_PROCESSES self <? ndevices) = false) by (apply Z.ltb_ge; lia).
    rewrite Hlt in Hrun. apply distribute_total in Hrun as [Ht _].
    rewrite Ht, total_replicate_zero. unfold range.
    rewrite length_fmap, length_seq. lia.
  - split.
    + intros j Hj. apply shares_lookup, Hj.
    + apply Forall_forall. intros v Hv. unfold shares in Hv.
      apply list_elem_of_fmap in Hv as (j & -> & Hj).
      unfold range in Hj. apply list_elem_of_fmap in Hj as (k & -> & Hk).
      apply elem_of_seq in Hk. apply share_bounds; lia.
Qed.

(** X23. How [split_num_processes] fails. More devices than processes
    fail the assertion. With at least one process, no device at all
    raises [ZeroDivisionError] and a negative number of devices raises
    [IndexError]; without any process, no or a negative number of
    devices gives the empty list. *)
Theorem split_num_processes_errors (self : ExperimentConfig) (ndevices : Z) :
  (NUM_PROCESSES self < ndevices ->
   split_num_processes self ndevices = Raise AssertionError) /\
  (0 < NUM_PROCESSES self -> ndevices = 0 ->
   split_num_processes self ndevices = Raise ZeroDivisionError) /\
  (0 < NUM_PROCESSES self -> ndevices < 0 ->
   split_num_processes self ndevices = Raise IndexError) /\
  (NUM_PROCESSES self = 0 -> ndevices <= 0 ->
   split_num_processes self ndevices = Ok []).
Proof.
  unfold split_num_processes, range. repeat split.
  - intros Hlt. apply Z.ltb_lt in Hlt. rewrite Hlt. reflexivity.
  - intros Hn ->. assert (Hlt : (NUM_PROCESSES self <? 0) = false) by (apply Z.ltb_ge; lia).
    rewrite Hlt.
    destruct (Z.to_nat (NUM_PROCESSES self)) as [| k] eqn:Hk; [lia |]. reflexivity.
  - intros Hn Hd.
    assert (Hlt : (NUM_PROCESSES self <? ndevices) = false) by (apply Z.ltb_ge; lia).
    rewrite Hlt.
    destruct (Z.to_nat (NUM_PROCESSES self)) as [| k] eqn:Hk; [lia |].
    replace (Z.to_nat ndevices) with 0%nat by lia. simpl.
    unfold py_mod. assert (Hd0 : (ndevices =? 0) = false) by (apply Z.eqb_neq; lia).
    rewrite Hd0. rewrite Z.mod_0_l by lia. reflexivity.
  - intros Hn Hd.
    assert (Hlt : (NUM_PROCESSES self <? ndevices) = false) by (apply Z.ltb_ge; lia).
    rewrite Hlt, Hn. replace (Z.to_nat ndevices) with 0%nat by lia. reflexivity.
Qed.

Lemma split_num_processes_balanced_witness :
  exists res,
    split_num_processes default 7 = Ok res /\
    length res = Z.to_nat 7 /\
    total res = NUM_PROCESSES default /\
    (forall j : nat, (j < Z.to_nat 7)%nat ->
       res !! j = Some ((NUM_PROCESSES default + 7 - 1 - Z.of_nat j) / 7)) /\
    Forall (fun v => NUM_PROCESSES default / 7 <= v <= NUM_PROCESSES default / 7 + 1) res.
Proof.
  apply (split_num_processes_balanced default 7). simpl. lia.
Defined.

End ExperimentFacts.
